(** * Passport OCR workers: fusion, duplicate detection, fingerprints, job start

    A shallow embedding of the processing core of the repository:

    - [FusionService]      services/fusionService.js   (unnamed/part_007)
    - [DuplicateDetector]  server/services/duplicateDetector.js
    - [ImageProcessor]     services/imageProcessor.js  (unnamed/part_008),
                           [calculatePHash] only
    - [Pipeline]           the queue/worker-pool ProcessingPipeline
                           (unnamed/part_010): [startJob], [pauseJob],
                           [stopJob], [postProcess]
    - [DirectPipeline]     the direct-loop ProcessingPipeline
                           (unnamed/part_009): [startJob] up to its batch
                           loop, [getPendingImages]
    - [Db]                 the tables of database/init.js (unnamed/part_012)
    - [OCRService]         services/ocrService.js (unnamed/part_006):
                           [generateFallbackCharacterAnalysis] and
                           [validateAndCorrectHallucinations], with the
                           values of the model's JSON answer in [Json]
    - [SystemLogger]       the logger in front of the fusion service
                           (unnamed/part_007): [log], [getLogs],
                           [clearLogs], [getStats]
    - [SettingsTable]      [seedDefaultSettings] of database/init.js and the
                           delete statement of server/routes/settings.js
    - [Worker]             [processQueue], [reprocessImage],
                           [handleTaskError] and the row [fuseResults]
                           stores (unnamed/part_010)
    - [DuplicateRoutes]    the reject route (unnamed/part_011)

    JavaScript numbers are IEEE 754 binary64 values; they are embedded as the
    kernel's primitive floats, whose operations round exactly as the
    JavaScript ones do.  32-bit integer operators ([|], [^], [<<], [>>]) are
    embedded on [Z] with the wrap-around written out. *)

From Stdlib Require Import ZArith List String Ascii Bool Lia Sorted.
From Stdlib Require Import Floats.
From stdpp Require Import gmap strings.
Import ListNotations.

Set Warnings "-inexact-float".
Local Open Scope string_scope.
Local Open Scope Z_scope.

(* ===================================================================== *)
(** ** JavaScript values *)

Module JS.

(** [Number(z)] for an integer [z]: the nearest binary64 value. *)
Definition of_Z (z : Z) : float :=
  SF2Prim (SpecFloat.binary_normalize prec emax z 0 false).

Definition of_nat (n : nat) : float := of_Z (Z.of_nat n).

(** The mathematical integer part of a finite number, rounded towards zero;
    [NaN] and the infinities give 0 (the ToIntegerOrInfinity / ToInt32
    convention for non-finite values). *)
Definition truncate (x : float) : Z :=
  match Prim2SF x with
  | S754_finite s m e =>
      let a := if (0 <=? e)%Z then Z.pos m * 2 ^ e else Z.pos m / 2 ^ (- e) in
      if s then - a else a
  | _ => 0
  end.

(** [Math.round]: nearest integer, ties towards +Infinity.  The rounding is
    done on the exact value of [x], not through the float sum [x + 0.5]. *)
Definition Math_round (x : float) : float :=
  match Prim2SF x with
  | S754_finite s m e =>
      if (0 <=? e)%Z then x
      else
        let n := if s then Z.neg m else Z.pos m in
        let d := 2 ^ (- e) in
        let r := (2 * n + d) / (2 * d) in
        if (r =? 0)%Z then (if s then neg_zero else zero) else of_Z r
  | _ => x
  end.

(** [Math.max] and [Math.min] on two arguments: [NaN] is contagious and
    [+0] is larger than [-0]. *)
Definition Math_max (a b : float) : float :=
  if is_nan a || is_nan b then nan
  else if (a <? b)%float then b
  else if (b <? a)%float then a
  else if get_sign a then b else a.

Definition Math_min (a b : float) : float :=
  if is_nan a || is_nan b then nan
  else if (a <? b)%float then a
  else if (b <? a)%float then b
  else if get_sign a then a else b.

(** Truthiness of a number: everything but [0], [-0] and [NaN]. *)
Definition truthy (x : float) : bool := negb (is_zero x || is_nan x).

(** [a > b] and [a >= b]. *)
Definition gtb (a b : float) : bool := (b <? a)%float.
Definition geb (a b : float) : bool := (b <=? a)%float.

(** [xs.reduce((sum, x) => sum + x, 0)]. *)
Definition sum (xs : list float) : float :=
  fold_left (fun acc x => (acc + x)%float) xs zero.

(** ToInt32: the integer part modulo 2^32, read as a signed 32-bit value. *)
Definition wrap32 (z : Z) : Z := (z + 2 ^ 31) mod 2 ^ 32 - 2 ^ 31.
Definition ToInt32 (x : float) : Z := wrap32 (truncate x).

(** [a << b] on int32 operands: the shift count is taken modulo 32. *)
Definition shl32 (a b : Z) : Z := wrap32 (Z.shiftl a (b mod 32)).

(** [a >> b], the sign-propagating right shift. *)
Definition sar32 (a b : Z) : Z := Z.shiftr a (b mod 32).

(** ** Strings (the code units are modelled as 8-bit characters)

    The recognizers' texts, the fingerprints and the log texts are taken to
    be ASCII.  On the code units above 127 the case mappings below are the
    identity, where JavaScript's also map the accented letters ('ß' to the
    two characters "SS"); what is proved through them is proved for ASCII
    texts. *)

Definition chr (c : ascii) : string := String c EmptyString.

Definition is_digit (c : ascii) : bool :=
  let n := nat_of_ascii c in (48 <=? n)%nat && (n <=? 57)%nat.
Definition is_upper (c : ascii) : bool :=
  let n := nat_of_ascii c in (65 <=? n)%nat && (n <=? 90)%nat.
Definition is_lower (c : ascii) : bool :=
  let n := nat_of_ascii c in (97 <=? n)%nat && (n <=? 122)%nat.

Definition toUpperCase (c : ascii) : ascii :=
  if is_lower c then ascii_of_nat (nat_of_ascii c - 32) else c.

Definition toLowerCase (c : ascii) : ascii :=
  if is_upper c then ascii_of_nat (nat_of_ascii c + 32) else c.

Definition chars (s : string) : list ascii := list_ascii_of_string s.

(** [s.toLowerCase()]. *)
Definition lower (s : string) : string :=
  string_of_list_ascii (map toLowerCase (chars s)).

(** [s.replace(/X/g, '')]. *)
Definition strip_X (s : string) : string :=
  string_of_list_ascii (List.filter (fun c => negb (Ascii.eqb c "X")) (chars s)).

(** [(s.match(/X/g) || []).length]. *)
Definition count_X (s : string) : nat :=
  List.length (List.filter (fun c => Ascii.eqb c "X") (chars s)).

(** A string of at most one character. *)
Definition short (s : string) : Prop := (String.length s <= 1)%nat.

(** [xs.join(sep)] on strings. *)
Fixpoint join (sep : string) (xs : list string) : string :=
  match xs with
  | [] => ""
  | [x] => x
  | x :: rest => x ++ sep ++ join sep rest
  end.

(** [s.includes(needle)]. *)
Fixpoint includes (needle s : string) : bool :=
  String.prefix needle s ||
  match s with
  | EmptyString => false
  | String _ rest => includes needle rest
  end.

(** A template literal: literal text and interpolated numbers.  The text of
    a number is what [Number.prototype.toString] prints; it is kept
    unprinted here. *)
Inductive piece :=
| Lit (s : string)
| Num (x : float).

Definition text := list piece.

Definition piece_nonempty (p : piece) : bool :=
  match p with
  | Lit s => negb (String.eqb s "")
  | Num _ => true
  end.

(** Truthiness of a string: non-empty. *)
Definition text_truthy (t : text) : bool := existsb piece_nonempty t.

(** [xs.join(sep)] on template texts. *)
Fixpoint join_text (sep : string) (xs : list text) : text :=
  match xs with
  | [] => []
  | [x] => x
  | x :: rest => (x ++ Lit sep :: join_text sep rest)%list
  end.

End JS.

(* ===================================================================== *)
(** ** FusionService (services/fusionService.js, unnamed/part_007) *)

Inductive status :=
| SUCCESS | REVIEW_REQUIRED | BAD_IMAGE | ERROR | DUPLICATE_NUMBER | PROCESSING.

(** The settings the fusion service reads.  [patternRegex] is a regular
    expression source in the code; only [new RegExp(patternRegex).test(s)] is
    ever used, so the field holds that test. *)
Module Settings.
Record t := {
  confThreshold : float;
  patternRegex : string -> bool
}.
End Settings.

(** What a recognizer returns.  A missing property is [None]; a
    [passport_number] that is [null] is [None] too. *)
Module OcrResult.
Record t := {
  passport_number : option string;
  per_char_conf : option (list float);
  damage_flags : option (list bool);
  confidence : option float;
  damage_detected : bool
}.
End OcrResult.

(** The [ocrResults] object: a recognizer that failed left [null]. *)
Module OcrResults.
Record t := {
  vision : option OcrResult.t;
  tesseract : option OcrResult.t;
  template : option OcrResult.t
}.
End OcrResults.

Module Source.
Record t := {
  name : string;
  result : OcrResult.t;
  weight : float;
  reliability : float
}.
End Source.

Module Candidate.
Record t := {
  char : string;
  confidence : float;
  source : string;
  damaged : bool;
  originalConf : float;
  positionValid : bool
}.
End Candidate.

Module Consensus.
Record t := {
  char : string;
  confidence : float;
  source : string;
  damaged : bool;
  notes : option JS.text
}.
End Consensus.

(** The object [performVariableLengthFusion] returns. *)
Module Fusion.
Record t := {
  passport_number : string;
  per_char_conf : list float;
  per_char_src : list string;
  damage_flags : list bool;
  confidence : float;
  reasons : JS.text;
  fusion_method : string;
  sources_used : list string;
  valid_positions : nat;
  detected_length : nat
}.
End Fusion.

Module QualityGates.
Record t := {
  pattern_valid : bool;
  confidence_passed : bool;
  completeness : float;
  damage_ratio : float;
  length_valid : bool
}.
End QualityGates.

(** The result [fuseOCRResults] returns.  [createEmptyResult] sets neither
    [detected_length] nor [quality_gates]. *)
Module FusedResult.
Record t := {
  passport_number : string;
  per_char_conf : list float;
  per_char_src : list string;
  damage_flags : list bool;
  confidence : float;
  status : status;
  reasons : JS.text;
  fusion_method : string;
  sources_used : list string;
  valid_positions : nat;
  detected_length : option nat;
  quality_gates : option QualityGates.t
}.
End FusedResult.

Module FusionService.

Import JS.

(** The properties a call may override: [{ ...this.settings, ...settings }]. *)
Record overrides := {
  o_confThreshold : option float;
  o_patternRegex : option (string -> bool)
}.

Definition no_overrides : overrides :=
  {| o_confThreshold := None; o_patternRegex := None |}.

Definition merge (self : Settings.t) (o : overrides) : Settings.t :=
  {| Settings.confThreshold :=
       match o_confThreshold o with Some c => c | None => Settings.confThreshold self end;
     Settings.patternRegex :=
       match o_patternRegex o with Some p => p | None => Settings.patternRegex self end |}.

Definition in_class (set : string) (c : ascii) : bool :=
  existsb (Ascii.eqb c) (chars set).

(** [/^(?:(?:[CDES][0-9]{8})|(?:[CDESN]{2}[0-9]{7}))$/.test(s)], the pattern
    of the constructor's settings. *)
Definition default_pattern (s : string) : bool :=
  match chars s with
  | c0 :: rest =>
      (in_class "CDES" c0 && (List.length rest =? 8)%nat && forallb is_digit rest)
      || match rest with
         | c1 :: rest' =>
             in_class "CDESN" c0 && in_class "CDESN" c1
             && (List.length rest' =? 7)%nat && forallb is_digit rest'
         | [] => false
         end
  | [] => false
  end.

(** The constructor's [this.settings]. *)
Definition default_settings : Settings.t :=
  {| Settings.confThreshold := 80; Settings.patternRegex := default_pattern |}.

(** A string that is neither [null]/[undefined] nor empty. *)
Definition truthy_string (s : option string) : option string :=
  match s with
  | Some str => if String.eqb str "" then None else Some str
  | None => None
  end.

Definition validateCharacterAtPosition (char : ascii) (position : nat) (fullString : string)
  : bool :=
  match position with
  | O => in_class "CDESN" char
  | S O =>
      match chars fullString with
      | firstChar :: _ =>
          if in_class "CDES" firstChar
          then in_class "CDESN0123456789" char
          else in_class "CDESN0123456789" char
      | [] => in_class "CDESN0123456789" char
      end
  | _ => is_digit char
  end.

(** [counts[len] = (counts[len] || 0) + 1] on an object whose keys are array
    indices: [Object.entries] lists such keys in ascending numeric order, so
    the object is kept as an association list sorted by key. *)
Fixpoint bump (len : nat) (counts : list (nat * nat)) : list (nat * nat) :=
  match counts with
  | [] => [(len, 1%nat)]
  | (k, c) :: rest =>
      if (len =? k)%nat then (k, S c) :: rest
      else if (len <? k)%nat then (len, 1%nat) :: counts
      else (k, c) :: bump len rest
  end.

Definition getMostCommonLength (lengths : list nat) : nat :=
  match lengths with
  | [] => 9%nat
  | _ =>
      let counts := fold_left (fun counts len => bump len counts) lengths [] in
      snd (fold_left
             (fun '(maxCount, mostCommon) '(len, count) =>
                if (maxCount <? count)%nat then (count, len) else (maxCount, mostCommon))
             counts (0%nat, 9%nat))
  end.

(** The index after the last non-empty entry, 0 when there is none (the
    source scans from the end). *)
Fixpoint determineActualLength (chars : list string) : nat :=
  match chars with
  | [] => 0%nat
  | c :: rest =>
      match determineActualLength rest with
      | O => if String.eqb c "" then 0%nat else 1%nat
      | S n => S (S n)
      end
  end.

(** [charGroups[candidate.char].push(candidate)], the groups in insertion
    order of their keys. *)
Fixpoint add_to_group (groups : list (string * list Candidate.t)) (c : Candidate.t)
  : list (string * list Candidate.t) :=
  match groups with
  | [] => [(Candidate.char c, [c])]
  | (k, g) :: rest =>
      if String.eqb k (Candidate.char c) then (k, (g ++ [c])%list) :: rest
      else (k, g) :: add_to_group rest c
  end.

Definition is_index_key (k : string) : bool :=
  match k with
  | String c EmptyString => is_digit c
  | _ => false
  end.

(** [Object.entries(charGroups)]: the keys that are array indices (here the
    digits) first, in ascending numeric order, then the other keys in
    insertion order. *)
Definition entries (groups : list (string * list Candidate.t))
  : list (string * list Candidate.t) :=
  (flat_map
     (fun d => List.filter (fun kg => String.eqb (fst kg) (chr d)) groups)
     (chars "0123456789")
   ++ List.filter (fun kg => negb (is_index_key (fst kg))) groups)%list.

(** The score of one group in [buildCharacterConsensus]. *)
Definition group_score (group : list Candidate.t) : float :=
  let totalWeight := fold_left (fun sum c => (sum + Candidate.confidence c)%float) group zero in
  let avgConfidence := (totalWeight / of_nat (List.length group))%float in
  let sourceBonus : float := if (1 <? List.length group)%nat then 10%float else 0%float in
  let positionValidBonus : float :=
    if forallb Candidate.positionValid group then 5%float else (-10)%float in
  (avgConfidence + sourceBonus + positionValidBonus)%float.

(** One turn of the loop over the groups: the group that scores above the
    best score so far becomes the best. *)
Definition best_step (best : string * float * list Candidate.t)
  (kg : string * list Candidate.t) : string * float * list Candidate.t :=
  let '(bestChar, bestScore, bestGroup) := best in
  let '(char, group) := kg in
  let score := group_score group in
  if gtb score bestScore then (char, score, group) else (bestChar, bestScore, bestGroup).

(** What that loop keeps true of the groups it has seen: either no group
    has scored above 0 and the best is still the initial placeholder, or
    the best is a group that scored above 0, that every group seen before
    it scores below (or scores NaN), and that no group seen after it
    outscores: the first of the groups with the highest score. *)
Definition is_first_best (seen : list (string * list Candidate.t))
  (best : string * float * list Candidate.t) : Prop :=
  let '(bestChar, bestScore, bestGroup) := best in
  (bestChar = "X" /\ bestScore = zero /\ bestGroup = []
   /\ forall kg, In kg seen -> (0 <? group_score (snd kg))%float = false)
  \/ (exists before after,
        seen = (before ++ (bestChar, bestGroup) :: after)%list
        /\ bestScore = group_score bestGroup
        /\ (0 <? bestScore)%float = true
        /\ (forall kg, In kg before ->
              (group_score (snd kg) <? bestScore)%float = true
              \/ is_nan (group_score (snd kg)) = true)
        /\ (forall kg, In kg after ->
              (bestScore <? group_score (snd kg))%float = false)).

Definition buildCharacterConsensus (candidates : list Candidate.t) (position : nat)
  : Consensus.t :=
  match candidates with
  | [candidate] =>
      {| Consensus.char := Candidate.char candidate;
         Consensus.confidence := Math_round (Candidate.confidence candidate);
         Consensus.source := Candidate.source candidate;
         Consensus.damaged := Candidate.damaged candidate;
         Consensus.notes :=
           if (Candidate.originalConf candidate <? 50)%float
           then Some [Lit "Low confidence single source"]
           else if negb (Candidate.positionValid candidate)
                then Some [Lit "Invalid character for position"]
                else None |}
  | _ =>
      let charGroups := entries (fold_left add_to_group candidates []) in
      let '(bestChar, bestScore, bestGroup) :=
        fold_left best_step charGroups ("X", zero, []) in
      let conflict := (1 <? List.length charGroups)%nat in
      let consensusNotes : list text :=
        if conflict
        then [Lit "Character conflict: "
              :: join_text " vs "
                   (map (fun '(char, group) =>
                           [Lit char; Lit "("; Num (of_nat (List.length group)); Lit ")"])
                        charGroups)]
        else [] in
      let finalConfidence := Math_round bestScore in
      let finalConfidence :=
        if conflict then Math_max 30 (finalConfidence - 20) else finalConfidence in
      let anyDamaged := existsb Candidate.damaged bestGroup in
      let finalConfidence :=
        if anyDamaged then Math_max 20 (finalConfidence - 15) else finalConfidence in
      let consensusNotes :=
        if anyDamaged then (consensusNotes ++ [[Lit "Damage detected in area"]])%list
        else consensusNotes in
      let anyInvalid := existsb (fun c => negb (Candidate.positionValid c)) bestGroup in
      let finalConfidence :=
        if anyInvalid then Math_max 10 (finalConfidence - 25) else finalConfidence in
      let consensusNotes :=
        if anyInvalid
        then (consensusNotes ++ [[Lit "Invalid character for passport format"]])%list
        else consensusNotes in
      {| Consensus.char := bestChar;
         Consensus.confidence := Math_min 100 finalConfidence;
         Consensus.source := join "+" (map Candidate.source bestGroup);
         Consensus.damaged := anyDamaged;
         Consensus.notes :=
           match consensusNotes with
           | [] => None
           | _ => Some (join_text ", " consensusNotes)
           end |}
  end.

Definition count_true (flags : list bool) : nat :=
  List.length (List.filter (fun d => d) flags).

Definition calculateOverallConfidence (perCharConf : list float) (damageFlags : list bool)
  : float :=
  let validConf := List.filter (fun conf => gtb conf 0) perCharConf in
  match validConf with
  | [] => 0%float
  | _ =>
      let avgConf := (JS.sum validConf / of_nat (List.length validConf))%float in
      let completeness :=
        (of_nat (List.length validConf) / of_nat (List.length perCharConf))%float in
      let damageRatio :=
        (of_nat (count_true damageFlags) / of_nat (List.length perCharConf))%float in
      let finalConf := (avgConf * completeness * (1 - damageRatio * 0.3))%float in
      Math_round (Math_max 0 (Math_min 100 finalConf))
  end.

(** [arr[idx]] on an array of numbers and on an array of flags: out of range
    the JavaScript value is [undefined], which behaves as [NaN] in the
    arithmetic and comparisons that follow, and as [false] in a condition. *)
Definition num_at (arr : list float) (idx : nat) : float := nth idx arr nan.
Definition flag_at (arr : list bool) (idx : nat) : bool := nth idx arr false.

Section WithSettings.

(** [this.settings] of the service. *)
Variable self : Settings.t.

Definition assessSourceReliability (result : OcrResult.t) : float :=
  let reliability : float := 1%float in
  let reliability :=
    match truthy_string (OcrResult.passport_number result) with
    | Some passport_number =>
        let reliability :=
          if existsb (fun c => negb (is_upper c || is_digit c)) (chars passport_number)
          then (reliability * 0.3)%float else reliability in
        let reliability :=
          if (9 <? String.length passport_number)%nat
          then (reliability * 0.5)%float else reliability in
        let cleanNumber := strip_X passport_number in
        if negb (Settings.patternRegex self cleanNumber)
           && (0 <? String.length cleanNumber)%nat
        then (reliability * 0.7)%float else reliability
    | None => reliability
    end in
  let reliability :=
    if OcrResult.damage_detected result then (reliability * 1.1)%float else reliability in
  let reliability :=
    match OcrResult.damage_flags result, OcrResult.per_char_conf result with
    | Some damage_flags, Some per_char_conf =>
        let suspiciousHighConf :=
          existsb (fun idx => flag_at damage_flags idx && gtb (num_at per_char_conf idx) 80)
                  (seq 0 (List.length damage_flags)) in
        if suspiciousHighConf then (reliability * 0.6)%float else reliability
    | _, _ => reliability
    end in
  Math_max 0.1 (Math_min 1.0 reliability).

End WithSettings.

(** The candidate one source contributes at position [pos], if any. *)
Definition candidate_of (source : Source.t) (pos : nat) : list Candidate.t :=
  let result := Source.result source in
  match truthy_string (OcrResult.passport_number result) with
  | Some passport_number =>
      match nth_error (chars passport_number) pos with
      | Some char =>
          let conf :=
            match OcrResult.per_char_conf result with
            | Some per_char_conf => num_at per_char_conf pos
            | None =>
                match OcrResult.confidence result with
                | Some c => if truthy c then c else 0%float
                | None => 0%float
                end
            end in
          let damaged :=
            match OcrResult.damage_flags result with
            | Some damage_flags => flag_at damage_flags pos
            | None => false
            end in
          if negb (Ascii.eqb char "X") then
            let isValidChar := validateCharacterAtPosition char pos passport_number in
            [{| Candidate.char := chr (toUpperCase char);
                Candidate.confidence :=
                  (conf * Source.weight source * Source.reliability source
                   * (if isValidChar then 1.0 else 0.3))%float;
                Candidate.source := Source.name source;
                Candidate.damaged := damaged;
                Candidate.originalConf := conf;
                Candidate.positionValid := isValidChar |}]
          else []
      | None => []
      end
  | None => []
  end.

(** What one iteration of the position loop writes at index [pos]. *)
Record cell := {
  cell_char : string;
  cell_conf : float;
  cell_src : string;
  cell_damage : bool;
  cell_reason : option text
}.

Definition position_label (pos : nat) : text :=
  [Lit "Position "; Num (of_nat (pos + 1)); Lit ": "].

(** The [candidates] array of one iteration: [sources.forEach(...)]. *)
Definition candidates_at (sources : list Source.t) (pos : nat) : list Candidate.t :=
  flat_map (fun source => candidate_of source pos) sources.

Definition fuse_position (sources : list Source.t) (mostCommonLength pos : nat) : cell :=
  let candidates := candidates_at sources pos in
  match candidates with
  | [] =>
      {| cell_char := if (pos <? mostCommonLength)%nat then "X" else "";
         cell_conf := 0;
         cell_src := "no_candidates";
         cell_damage := (pos <? mostCommonLength)%nat;
         cell_reason :=
           if (pos <? mostCommonLength)%nat
           then Some (position_label pos ++ [Lit "No readable characters detected"])%list
           else None |}
  | _ =>
      let consensus := buildCharacterConsensus candidates pos in
      {| cell_char := Consensus.char consensus;
         cell_conf := Consensus.confidence consensus;
         cell_src := Consensus.source consensus;
         cell_damage := Consensus.damaged consensus;
         cell_reason :=
           match Consensus.notes consensus with
           | Some notes =>
               if text_truthy notes then Some (position_label pos ++ notes)%list else None
           | None => None
           end |}
  end.

Definition option_list {A} (o : option A) : list A :=
  match o with Some a => [a] | None => [] end.

(** The lengths of the candidates without their placeholders. *)
Definition candidate_lengths (sources : list Source.t) : list nat :=
  flat_map
    (fun s =>
       match truthy_string (OcrResult.passport_number (Source.result s)) with
       | Some passport_number => [String.length (strip_X passport_number)]
       | None => []
       end)
    sources.

(** Every iteration of the loop over [pos] writes index [pos] of the four
    arrays and nothing else, so the arrays after the loop are the cells of
    the positions [0 .. maxLength - 1] in order. *)
Definition fusion_cells (sources : list Source.t) : list cell :=
  let lengths := candidate_lengths sources in
  let mostCommonLength := getMostCommonLength lengths in
  let maxLength := Nat.max 9 mostCommonLength in
  map (fuse_position sources mostCommonLength) (seq 0 maxLength).

Definition performVariableLengthFusion (sources : list Source.t) (settings : Settings.t)
  : Fusion.t :=
  let cells := fusion_cells sources in
  let finalChars := map cell_char cells in
  let finalConf := map cell_conf cells in
  let finalSrc := map cell_src cells in
  let damageFlags := map cell_damage cells in
  let reasons := flat_map (fun c => option_list (cell_reason c)) cells in
  let actualLength := determineActualLength finalChars in
  let passportNumber := join "" (firstn actualLength finalChars) in
  let overallConfidence :=
    calculateOverallConfidence (firstn actualLength finalConf)
                               (firstn actualLength damageFlags) in
  {| Fusion.passport_number := passportNumber;
     Fusion.per_char_conf := firstn actualLength finalConf;
     Fusion.per_char_src := firstn actualLength finalSrc;
     Fusion.damage_flags := firstn actualLength damageFlags;
     Fusion.confidence := overallConfidence;
     Fusion.reasons := join_text "; " reasons;
     Fusion.fusion_method := "variable_length_consensus";
     Fusion.sources_used := map Source.name sources;
     Fusion.valid_positions :=
       List.length
         (List.filter (fun c => negb (String.eqb c "X") && negb (String.eqb c ""))
                      (firstn actualLength finalChars));
     Fusion.detected_length := actualLength |}.

Definition applyQualityGates (result : Fusion.t) (settings : Settings.t) : FusedResult.t :=
  let reasons : list text :=
    if text_truthy (Fusion.reasons result) then [Fusion.reasons result] else [] in
  let status := SUCCESS in
  let passport_number := Fusion.passport_number result in
  let len := String.length passport_number in
  let cleanNumber := strip_X passport_number in
  let pattern := Settings.patternRegex settings in
  let '(status, reasons) :=
    if negb (pattern cleanNumber) && (0 <? String.length cleanNumber)%nat
    then (REVIEW_REQUIRED,
          reasons ++ [[Lit "Pattern validation failed - does not match expected passport format"]])%list
    else (status, reasons) in
  let '(status, reasons) :=
    if (Fusion.confidence result <? Settings.confThreshold settings)%float
    then (REVIEW_REQUIRED,
          reasons ++ [[Lit "Confidence "; Num (Fusion.confidence result);
                       Lit "% below threshold "; Num (Settings.confThreshold settings);
                       Lit "%"]])%list
    else (status, reasons) in
  let missingCount := count_X passport_number in
  let '(status, reasons) :=
    if (0 <? missingCount)%nat then
      if (5 <=? missingCount)%nat
      then (BAD_IMAGE,
            reasons ++ [[Lit "Too many unreadable characters ("; Num (of_nat missingCount);
                         Lit "/"; Num (of_nat len); Lit ")"]])%list
      else (REVIEW_REQUIRED,
            reasons ++ [[Num (of_nat missingCount);
                         Lit " characters unreadable due to damage"]])%list
    else (status, reasons) in
  let '(status, reasons) :=
    if (len <? 7)%nat || (9 <? len)%nat
    then (REVIEW_REQUIRED,
          reasons ++ [[Lit "Invalid passport number length: "; Num (of_nat len);
                       Lit " characters"]])%list
    else (status, reasons) in
  let '(status, reasons) :=
    if (3 <? count_true (Fusion.damage_flags result))%nat
    then (REVIEW_REQUIRED, reasons ++ [[Lit "Extensive damage detected"]])%list
    else (status, reasons) in
  {| FusedResult.passport_number := passport_number;
     FusedResult.per_char_conf := Fusion.per_char_conf result;
     FusedResult.per_char_src := Fusion.per_char_src result;
     FusedResult.damage_flags := Fusion.damage_flags result;
     FusedResult.confidence := Fusion.confidence result;
     FusedResult.status := status;
     FusedResult.reasons := join_text "; " reasons;
     FusedResult.fusion_method := Fusion.fusion_method result;
     FusedResult.sources_used := Fusion.sources_used result;
     FusedResult.valid_positions := Fusion.valid_positions result;
     FusedResult.detected_length := Some (Fusion.detected_length result);
     FusedResult.quality_gates :=
       Some {| QualityGates.pattern_valid := pattern cleanNumber;
               QualityGates.confidence_passed :=
                 geb (Fusion.confidence result) (Settings.confThreshold settings);
               QualityGates.completeness :=
                 (of_nat (len - missingCount) / of_nat len)%float;
               QualityGates.damage_ratio :=
                 (of_nat (count_true (Fusion.damage_flags result)) / of_nat len)%float;
               QualityGates.length_valid := (7 <=? len)%nat && (len <=? 9)%nat |} |}.

Definition createEmptyResult (reason : string) : FusedResult.t :=
  {| FusedResult.passport_number := "XXXXXXXXX";
     FusedResult.per_char_conf := repeat 0%float 9;
     FusedResult.per_char_src := repeat "no_source" 9;
     FusedResult.damage_flags := repeat true 9;
     FusedResult.confidence := 0;
     FusedResult.status := ERROR;
     FusedResult.reasons := [Lit reason];
     FusedResult.fusion_method := "no_fusion";
     FusedResult.sources_used := [];
     FusedResult.valid_positions := 0;
     FusedResult.detected_length := None;
     FusedResult.quality_gates := None |}.

Definition source_of (self : Settings.t) (name : string) (weight : float)
  (r : option OcrResult.t) : list Source.t :=
  match r with
  | Some result =>
      [{| Source.name := name;
          Source.result := result;
          Source.weight := weight;
          Source.reliability := assessSourceReliability self result |}]
  | None => []
  end.

(** The [sources] array [fuseOCRResults] collects. *)
Definition collect_sources (self : Settings.t) (ocrResults : OcrResults.t) : list Source.t :=
  (source_of self "vision" 1.0 (OcrResults.vision ocrResults)
   ++ source_of self "tesseract" 0.7 (OcrResults.tesseract ocrResults)
   ++ source_of self "template" 0.5 (OcrResults.template ocrResults))%list.

Definition fuseOCRResults (self : Settings.t) (ocrResults : OcrResults.t)
  (settings : overrides) : FusedResult.t :=
  let effectiveSettings := merge self settings in
  let sources := collect_sources self ocrResults in
  match sources with
  | [] => createEmptyResult "No OCR sources available"
  | _ =>
      let fusedResult := performVariableLengthFusion sources effectiveSettings in
      applyQualityGates fusedResult effectiveSettings
  end.

End FusionService.

(* ===================================================================== *)
(** ** The persistent store (database/init.js, unnamed/part_012)

    The tables as lists of rows in insertion order, with the columns the
    embedded functions read or write. *)

Module Db.

Record image := {
  id : string;
  job_id : string;
  phash : option string;
  upload_ts : Z
}.

Record result := {
  r_image_id : string;
  r_job_id : string;
  version : Z;
  passport_number : option string;
  r_status : status
}.

(** A row of [duplicates]; the table declares [UNIQUE(image_id_a, image_id_b)]
    and [confirmed BOOLEAN DEFAULT FALSE]. *)
Record duplicate := {
  image_id_a : string;
  image_id_b : string;
  hamming : Z;
  text_distance : float;
  confirmed : bool
}.

Record job := {
  j_id : string;
  j_name : string;
  j_status : string
}.

Record t := {
  jobs : list job;
  images : list image;
  results : list result;
  duplicates : list duplicate
}.

(** The pairs the UNIQUE constraint of [duplicates] ranges over. *)
Definition ordered_pairs (db : t) : list (string * string) :=
  map (fun d => (image_id_a d, image_id_b d)) (duplicates db).

Definition has_link (a b : string) (db : t) : bool :=
  existsb (fun d => String.eqb (image_id_a d) a && String.eqb (image_id_b d) b)
          (duplicates db).

(** [INSERT OR IGNORE INTO duplicates (image_id_a, image_id_b, hamming,
    text_distance) VALUES (?, ?, ?, ?)]: the row is dropped when it would
    break the UNIQUE constraint; [confirmed] takes its default. *)
Definition insert_or_ignore_duplicate (a b : string) (h : Z) (td : float) (db : t) : t :=
  if has_link a b db then db
  else {| jobs := jobs db;
          images := images db;
          results := results db;
          duplicates :=
            (duplicates db
             ++ [{| image_id_a := a; image_id_b := b; hamming := h;
                    text_distance := td; confirmed := false |}])%list |}.

(** [SELECT MAX(version) FROM results WHERE image_id = ?]. *)
Definition max_version (db : t) (image_id : string) : option Z :=
  fold_left
    (fun acc r =>
       if String.eqb (r_image_id r) image_id then
         match acc with
         | Some m => Some (Z.max m (version r))
         | None => Some (version r)
         end
       else acc)
    (results db) None.

Definition option_Z_eqb (a : option Z) (b : Z) : bool :=
  match a with Some x => (x =? b)%Z | None => false end.

Definition option_string_eqb (a : option string) (b : string) : bool :=
  match a with Some x => String.eqb x b | None => false end.

End Db.

(* ===================================================================== *)
(** ** DuplicateDetector (server/services/duplicateDetector.js) *)

Module DuplicateDetector.

Import JS.

Record settings := {
  dupPhashThreshold : float;
  textDistanceThreshold : float;
  autoConfirmDuplicates : bool
}.

(** The constructor's [this.settings]. *)
Definition default_settings : settings :=
  {| dupPhashThreshold := 10;
     textDistanceThreshold := 0.8;
     autoConfirmDuplicates := false |}.

(** The white space [parseInt] skips, among the 8-bit code units: TAB, LF,
    VT, FF, CR, SP and the no-break space. *)
Definition is_space (c : ascii) : bool :=
  let n := nat_of_ascii c in
  ((9 <=? n)%nat && (n <=? 13)%nat) || (n =? 32)%nat || (n =? 160)%nat.

Fixpoint trim_start (cs : list ascii) : list ascii :=
  match cs with
  | c :: rest => if is_space c then trim_start rest else cs
  | [] => []
  end.

Definition hex_value (c : ascii) : option Z :=
  let n := Z.of_nat (nat_of_ascii c) in
  if (48 <=? n) && (n <=? 57) then Some (n - 48)
  else if (97 <=? n) && (n <=? 102) then Some (n - 87)
  else if (65 <=? n) && (n <=? 70) then Some (n - 55)
  else None.

(** The value of the longest prefix of hexadecimal digits, if it is not
    empty. *)
Fixpoint hex_prefix (cs : list ascii) (acc : option Z) : option Z :=
  match cs with
  | c :: rest =>
      match hex_value c with
      | Some d => hex_prefix rest (Some (16 * match acc with Some a => a | None => 0 end + d))
      | None => acc
      end
  | [] => acc
  end.

(** [parseInt(s, 16)]. *)
Definition parseInt16 (s : string) : float :=
  let cs := trim_start (chars s) in
  let '(negative, cs) :=
    match cs with
    | "-"%char :: rest => (true, rest)
    | "+"%char :: rest => (false, rest)
    | _ => (false, cs)
    end in
  let cs :=
    match cs with
    | "0"%char :: "x"%char :: rest => rest
    | "0"%char :: "X"%char :: rest => rest
    | _ => cs
    end in
  match hex_prefix cs None with
  | None => nan
  | Some v =>
      if (v =? 0)%Z then (if negative then neg_zero else zero)
      else if negative then (- of_Z v)%float else of_Z v
  end.

(** The bit-counting loop
    [while (n) { count += n & 1; n >>= 1 }]
    run for at most [fuel] evaluations of its condition; [None] when the
    loop is still running after that. *)
Fixpoint count_set_bits (fuel : nat) (count n : Z) : option Z :=
  match fuel with
  | O => None
  | S fuel' =>
      if (n =? 0)%Z then Some count
      else count_set_bits fuel' (count + Z.land n 1) (sar32 n 1)
  end.

(** The same loop as a relation: [loop_returns count n r] when the loop
    started in the state [(count, n)] exits with [count = r]. *)
Inductive loop_returns : Z -> Z -> Z -> Prop :=
| loop_exit count : loop_returns count 0 count
| loop_iter count n r :
    n <> 0 ->
    loop_returns (count + Z.land n 1) (sar32 n 1) r ->
    loop_returns count n r.

(** [!hash]: [null], [undefined] and the empty string. *)
Definition falsy_hash (h : option string) : bool :=
  match h with
  | Some s => String.eqb s ""
  | None => true
  end.

Definition hash_text (h : option string) : string :=
  match h with Some s => s | None => "" end.

(** [parseInt(hash1, 16) ^ parseInt(hash2, 16)]. *)
Definition xor_of (hash1 hash2 : string) : Z :=
  let int1 := parseInt16 hash1 in
  let int2 := parseInt16 hash2 in
  Z.lxor (ToInt32 int1) (ToInt32 int2).

Definition calculateHammingDistance (fuel : nat) (hash1 hash2 : option string)
  : option Z :=
  if falsy_hash hash1 || falsy_hash hash2 then Some 999
  else
    let xor := xor_of (hash_text hash1) (hash_text hash2) in
    count_set_bits fuel 0 xor.

(** [getImagePHash]: [row?.phash]. *)
Definition getImagePHash (db : Db.t) (imageId : string) : option string :=
  match List.find (fun i => String.eqb (Db.id i) imageId) (Db.images db) with
  | Some row => Db.phash row
  | None => None
  end.

(** A row of the query of [findDuplicates]. *)
Record row := {
  row_id : string;
  row_phash : option string;
  row_passport_number : option string
}.

(** The query of [findDuplicates]: images joined with their results of the
    highest version, with the given passport number, other than [imageId].
    The query has no ORDER BY; the database walks the results that hold the
    number and looks the image of each up, so the rows come in the order of
    the results table. *)
Definition same_number_rows (db : Db.t) (passportNumber imageId : string) : list row :=
  flat_map
    (fun r =>
       flat_map
         (fun i =>
            if String.eqb (Db.id i) (Db.r_image_id r)
               && Db.option_string_eqb (Db.passport_number r) passportNumber
               && negb (String.eqb (Db.id i) imageId)
               && Db.option_Z_eqb (Db.max_version db (Db.id i)) (Db.version r)
            then [{| row_id := Db.id i;
                     row_phash := Db.phash i;
                     row_passport_number := Db.passport_number r |}]
            else [])
         (Db.images db))
    (Db.results db).

(** An element of the array [findDuplicates] resolves to. *)
Record found := {
  f_imageId : string;
  f_hammingDistance : Z;
  f_passportNumber : option string
}.

(** The loop of [findDuplicates] over the rows; [None] when a Hamming
    distance does not come back within [fuel]. *)
Fixpoint scan_rows (fuel : nat) (s : settings) (imageId : string) (rows : list row)
  (db : Db.t) (duplicates : list found) : option (Db.t * list found) :=
  match rows with
  | [] => Some (db, duplicates)
  | row :: rest =>
      match calculateHammingDistance fuel (getImagePHash db imageId) (row_phash row) with
      | None => None
      | Some hammingDistance =>
          if (of_Z hammingDistance <=? dupPhashThreshold s)%float then
            scan_rows fuel s imageId rest
              (Db.insert_or_ignore_duplicate imageId (row_id row) hammingDistance 0 db)
              (duplicates
               ++ [{| f_imageId := row_id row;
                      f_hammingDistance := hammingDistance;
                      f_passportNumber := row_passport_number row |}])%list
          else scan_rows fuel s imageId rest db duplicates
      end
  end.

Definition findDuplicates (fuel : nat) (s : settings) (imageId passportNumber : string)
  (db : Db.t) : option (Db.t * list found) :=
  scan_rows fuel s imageId (same_number_rows db passportNumber imageId) db [].

End DuplicateDetector.

(* ===================================================================== *)
(** ** ImageProcessor.calculatePHash (services/imageProcessor.js, unnamed/part_008) *)

Module ImageProcessor.

Import JS.

Definition hex_digit (d : Z) : ascii :=
  nth (Z.to_nat d) (chars "0123456789abcdef") "0"%char.

Fixpoint hex_of (fuel : nat) (n : Z) (acc : string) : string :=
  match fuel with
  | O => acc
  | S fuel' =>
      let acc' := String (hex_digit (n mod 16)) acc in
      if (n / 16 =? 0)%Z then acc' else hex_of fuel' (n / 16) acc'
  end.

(** [n.toString(16)] for an integer [n]. *)
Definition toString16 (n : Z) : string :=
  let digits m := hex_of (S (Z.to_nat (Z.log2 m))) m "" in
  if (n <? 0)%Z then "-" ++ digits (- n) else digits n.

(** [hash |= x] on int32 operands. *)
Definition or32 (a b : Z) : Z := wrap32 (Z.lor a b).

(** The hash of the raw 8-bit greyscale samples [data] (64 of them for the
    8x8 image), before and after printing. *)
Definition phash_bits (data : list Z) : Z :=
  let avg := (JS.sum (map of_Z data) / of_nat (List.length data))%float in
  fold_left
    (fun hash i =>
       if gtb (of_Z (nth i data 0)) avg then or32 hash (shl32 1 (Z.of_nat i)) else hash)
    (seq 0 (List.length data)) 0.

Definition calculatePHash (data : list Z) : string := toString16 (phash_bits data).

End ImageProcessor.

(* ===================================================================== *)
(** ** ProcessingPipeline, queue/worker-pool variant (unnamed/part_010) *)

Module Pipeline.

(** A queued task.  [reprocessImage] queues tasks whose [jobId] is [null].
    The payload the later stages add ([preprocPath], [ocrResults], [result])
    is not read by the functions embedded here. *)
Record task := {
  imageId : string;
  jobId : option string
}.

Record queues := {
  preprocess : list task;
  ocr : list task;
  fusion : list task;
  post : list task
}.

Record t := {
  qs : queues;
  runningJobs : gset string;
  pausedJobs : gset string
}.

(** The constructor's state. *)
Definition initial : t :=
  {| qs := {| preprocess := []; ocr := []; fusion := []; post := [] |};
     runningJobs := ∅;
     pausedJobs := ∅ |}.

(** [SELECT id FROM images WHERE job_id = ?]. *)
Definition job_image_ids (db : Db.t) (jobId : string) : list string :=
  map Db.id (List.filter (fun i => String.eqb (Db.job_id i) jobId) (Db.images db)).

(** [startJob(jobId)], with the query's callback run. *)
Definition startJob (db : Db.t) (jobId : string) (p : t) : t :=
  let rows := job_image_ids db jobId in
  {| qs :=
       {| preprocess :=
            (preprocess (qs p)
             ++ map (fun id => {| imageId := id; jobId := Some jobId |}) rows)%list;
          ocr := ocr (qs p);
          fusion := fusion (qs p);
          post := post (qs p) |};
     runningJobs := {[ jobId ]} ∪ runningJobs p;
     pausedJobs := pausedJobs p ∖ {[ jobId ]} |}.

Definition pauseJob (jobId : string) (p : t) : t :=
  {| qs := qs p;
     runningJobs := runningJobs p;
     pausedJobs := {[ jobId ]} ∪ pausedJobs p |}.

Definition other_job (jobId : string) (task : task) : bool :=
  match Pipeline.jobId task with
  | Some j => negb (String.eqb j jobId)
  | None => true
  end.

Definition stopJob (jobId : string) (p : t) : t :=
  {| qs :=
       {| preprocess := List.filter (other_job jobId) (preprocess (qs p));
          ocr := List.filter (other_job jobId) (ocr (qs p));
          fusion := List.filter (other_job jobId) (fusion (qs p));
          post := List.filter (other_job jobId) (post (qs p)) |};
     runningJobs := runningJobs p ∖ {[ jobId ]};
     pausedJobs := pausedJobs p ∖ {[ jobId ]} |}.

(** [UPDATE results SET status = ? WHERE image_id = ? AND version =
    (SELECT MAX(version) FROM results WHERE image_id = ?)]. *)
Definition update_status (st : status) (imageId : string) (db : Db.t) : Db.t :=
  {| Db.jobs := Db.jobs db;
     Db.images := Db.images db;
     Db.results :=
       map (fun r =>
              if String.eqb (Db.r_image_id r) imageId
                 && Db.option_Z_eqb (Db.max_version db imageId) (Db.version r)
              then {| Db.r_image_id := Db.r_image_id r;
                      Db.r_job_id := Db.r_job_id r;
                      Db.version := Db.version r;
                      Db.passport_number := Db.passport_number r;
                      Db.r_status := st |}
              else r)
           (Db.results db);
     Db.duplicates := Db.duplicates db |}.

(** [postProcess(task)] on the store: the duplicate check of a SUCCESS
    result and the status update; the status it emits comes back too. *)
Definition postProcess (fuel : nat) (s : DuplicateDetector.settings)
  (imageId : string) (result : FusedResult.t) (db : Db.t) : option (Db.t * status) :=
  let status := FusedResult.status result in
  match status with
  | SUCCESS =>
      match DuplicateDetector.findDuplicates fuel s imageId
              (FusedResult.passport_number result) db with
      | Some (db', duplicates) =>
          let status :=
            if (0 <? List.length duplicates)%nat then DUPLICATE_NUMBER else status in
          Some (update_status status imageId db', status)
      | None => None
      end
  | _ => Some (update_status status imageId db, status)
  end.

End Pipeline.

(* ===================================================================== *)
(** ** ProcessingPipeline, direct-loop variant (unnamed/part_009) *)

Module DirectPipeline.

Record t := {
  isProcessing : bool;
  currentJob : option string;
  processedCount : nat;
  totalCount : nat;
  abortController : bool
}.

(** The constructor's state. *)
Definition initial : t :=
  {| isProcessing := false; currentJob := None; processedCount := 0;
     totalCount := 0; abortController := false |}.

(** [SELECT * FROM jobs WHERE id = ?]. *)
Definition getJob (db : Db.t) (jobId : string) : option Db.job :=
  List.find (fun j => String.eqb (Db.j_id j) jobId) (Db.jobs db).

Definition has_result (db : Db.t) (imageId : string) : bool :=
  existsb (fun r => String.eqb (Db.r_image_id r) imageId) (Db.results db).

(** [i] put in front of the first row that is not uploaded before it: with
    [fold_right], rows of equal [upload_ts] stay in table order. *)
Fixpoint insert_by_upload (i : Db.image) (sorted : list Db.image) : list Db.image :=
  match sorted with
  | [] => [i]
  | j :: rest =>
      if (Db.upload_ts i <=? Db.upload_ts j)%Z then i :: sorted
      else j :: insert_by_upload i rest
  end.

(** [SELECT i.* FROM images i LEFT JOIN results r ON i.id = r.image_id
    WHERE i.job_id = ? AND r.image_id IS NULL ORDER BY i.upload_ts ASC]
    (rows with equal [upload_ts] are kept in table order). *)
Definition getPendingImages (db : Db.t) (jobId : string) : list Db.image :=
  fold_right insert_by_upload []
    (List.filter
       (fun i => String.eqb (Db.job_id i) jobId && negb (has_result db (Db.id i)))
       (Db.images db)).

(** How [startJob] gets to its batch loop, or does not. *)
Inductive entry :=
| ReturnsFalse (p : t)
| StartsBatches (images : list Db.image) (p : t).

(** The [finally] block. *)
Definition finally (p : t) : t :=
  {| isProcessing := false; currentJob := None;
     processedCount := processedCount p; totalCount := totalCount p;
     abortController := false |}.

(** [startJob(jobId)] up to the batch loop. *)
Definition startJob_entry (db : Db.t) (jobId : string) (p : t) : entry :=
  if isProcessing p then ReturnsFalse p
  else
    match getJob db jobId with
    | None => ReturnsFalse (finally p)
    | Some job =>
        match getPendingImages db jobId with
        | [] => ReturnsFalse (finally p)
        | images =>
            StartsBatches images
              {| isProcessing := true;
                 currentJob := Some jobId;
                 processedCount := 0;
                 totalCount := List.length images;
                 abortController := true |}
        end
    end.

End DirectPipeline.

(* ===================================================================== *)
(** ** OCRService: the checks on the vision model's answer
       (services/ocrService.js, unnamed/part_006) *)

(** A property of an object out of [JSON.parse] can hold any JSON value: a
    number, a string, a boolean, [null], an array or an object, or be
    missing.  The code reads [char] and [confidence] in conditions, in
    comparisons and in arithmetic only; the two views below keep what those
    uses see of a value. *)
Module Json.

(** A value used as a number: it is falsy ([undefined], [null], [false], 0,
    NaN, the empty string), or it is truthy and [ToNumber] gives [n] for it:
    95 for 95 and for "95", 1 for [true], 0 for "0", NaN for "high" and for
    an object. *)
Inductive number :=
| falsy_number
| truthy_number (n : float).

(** The view of a JSON number. *)
Definition of_number (c : float) : number :=
  if JS.truthy c then truthy_number c else falsy_number.

(** [v || 0], where the result is used as a number. *)
Definition or_zero (v : number) : float :=
  match v with
  | truthy_number n => n
  | falsy_number => 0%float
  end.

(** A value used as a text: it is falsy, or a string that is not empty, or
    another truthy value for which [ToString] gives [s]: "5" for 5, "true"
    for [true], "C" for the array ["C"]. *)
Inductive text :=
| falsy_text
| string_text (s : string)
| other_text (s : string).

(** The view of a JSON string. *)
Definition of_string (s : string) : text :=
  if String.eqb s "" then falsy_text else string_text s.

(** [v || 'X']. *)
Definition or_X (v : text) : text :=
  match v with
  | falsy_text => string_text "X"
  | string_text s => if String.eqb s "" then string_text "X" else v
  | other_text _ => v
  end.

(** [ToString(v)], as a regular expression's [test] and [+=] on a string
    apply it. *)
Definition to_string (v : text) : string :=
  match v with
  | falsy_text => ""
  | string_text s => s
  | other_text s => s
  end.

(** [v === s] for a string [s]: only a string is strictly equal to one. *)
Definition is_string (v : text) (s : string) : bool :=
  match v with
  | string_text t => String.eqb t s
  | _ => false
  end.

End Json.

(** An element of [characterResult.characters].  The array comes out of
    [JSON.parse] or of [generateFallbackCharacterAnalysis]: [position] is
    [None] when the property is missing or is not an integer number (it then
    is strictly equal to no [i + 1]), [char] and [confidence] are the views
    of whatever values the properties hold, and [damaged] holds the
    truthiness of the property. *)
Module CharData.
Record t := {
  position : option Z;
  char : Json.text;
  confidence : Json.number;
  damaged : bool
}.
End CharData.

(** The object [validateAndCorrectHallucinations] returns. *)
Module VisionResult.
Record t := {
  passport_number : string;
  per_char_conf : list float;
  per_char_src : list string;
  damage_flags : list bool;
  confidence : float;
  damage_detected : bool;
  valid_chars : nat;
  pattern_valid : bool;
  detected_length : nat;
  parsing_method : string
}.
End VisionResult.

Module OCRService.

Import JS.

(** What one iteration of the position loop writes at index [i]. *)
Record checked := {
  c_char : string;
  c_conf : float;
  c_src : string;
  c_damage : bool
}.

(** The properties of that object the fusion service reads. *)
Definition as_source (r : VisionResult.t) : OcrResult.t :=
  {| OcrResult.passport_number := Some (VisionResult.passport_number r);
     OcrResult.per_char_conf := Some (VisionResult.per_char_conf r);
     OcrResult.damage_flags := Some (VisionResult.damage_flags r);
     OcrResult.confidence := Some (VisionResult.confidence r);
     OcrResult.damage_detected := VisionResult.damage_detected r |}.

(** The object [generateFallbackCharacterAnalysis] pushes for the character
    [c] at index [i]. *)
Definition fallback_entry (i : nat) (c : ascii) : CharData.t :=
  let char := chr c in
  {| CharData.position := Some (Z.of_nat i + 1);
     CharData.char := Json.of_string char;
     CharData.confidence :=
       Json.of_number (if String.eqb char "X" then 0%float else 60%float);
     CharData.damaged := String.eqb char "X" |}.

Definition generateFallbackCharacterAnalysis (passportNumber : string) : list CharData.t :=
  let maxLength := Nat.min (String.length passportNumber) 9 in
  flat_map
    (fun i =>
       match nth_error (chars passportNumber) i with
       | Some c => [fallback_entry i c]
       | None => []
       end)
    (seq 0 maxLength).

(** [characters.find(c => c.position === i + 1) || { char: 'X',
    confidence: 0, damaged: true }]. *)
Definition find_position (characters : list CharData.t) (i : nat) : CharData.t :=
  match
    List.find (fun c => Db.option_Z_eqb (CharData.position c) (Z.of_nat i + 1)) characters
  with
  | Some c => c
  | None => {| CharData.position := None; CharData.char := Json.of_string "X";
               CharData.confidence := Json.of_number 0; CharData.damaged := true |}
  end.

(** [/^[CDESN]$/], [/^[CDESN0-9]$/] and [/^[0-9]$/] at the positions 0, 1
    and the later ones. *)
Definition well_placed (i : nat) (char : string) : bool :=
  match char with
  | String c EmptyString =>
      match i with
      | O => FusionService.in_class "CDESN" c
      | S O => FusionService.in_class "CDESN0123456789" c
      | _ => is_digit c
      end
  | _ => false
  end.

(** One iteration of the loop over the positions.  The loop writes
    [charData.damaged] of the element it has found; no later iteration reads
    that element again, since it looks for another [position]. *)
Definition check_position (overall : option string) (characters : list CharData.t) (i : nat)
  : checked :=
  let charData := find_position characters i in
  let char := Json.or_X (CharData.char charData) in
  let confidence := Json.or_zero (CharData.confidence charData) in
  let '(char, confidence, damaged) :=
    if well_placed i (Json.to_string char)
    then (char, confidence, CharData.damaged charData)
    else (Json.string_text "X", 0%float, true) in
  let '(confidence, src) :=
    match FusionService.truthy_string overall with
    | Some passport_number =>
        match nth_error (chars passport_number) i with
        | Some overallChar =>
            if negb (Json.is_string char (chr overallChar))
               && negb (Ascii.eqb overallChar "X")
               && negb (Json.is_string char "X")
            then (Math_min confidence 30, "conflict")
            else (confidence, "unknown")
        | None => (confidence, "unknown")
        end
    | None => (confidence, "unknown")
    end in
  let confidence := if gtb confidence 80 && damaged then 40%float else confidence in
  {| c_char := Json.to_string char;
     c_conf := Math_max 0 (Math_min 100 confidence);
     c_src :=
       if String.eqb src "unknown"
       then (if gtb confidence 50 then "vision_model" else "fallback")
       else src;
     c_damage := damaged |}.

(** [s.slice(0, n)]. *)
Definition slice (n : nat) (s : string) : string := String.substring 0 n s.

(** [detectedLength]: the length of the overall answer when there is one,
    of the character list otherwise, at most [maxLength = 9]. *)
Definition detectedLength (overall : option string) (characters : list CharData.t) : nat :=
  let maxLength := 9%nat in
  match FusionService.truthy_string overall with
  | Some passport_number => Nat.min (String.length passport_number) maxLength
  | None => Nat.min (List.length characters) maxLength
  end.

Definition validateAndCorrectHallucinations (self : Settings.t) (overall : option string)
  (characters : list CharData.t) : VisionResult.t :=
  let detectedLength := detectedLength overall characters in
  let cells := map (check_position overall characters) (seq 0 detectedLength) in
  let finalPassportNumber := String.concat "" (map c_char cells) in
  let perCharConf := map c_conf cells in
  let validChars :=
    flat_map
      (fun i =>
         match nth_error (chars finalPassportNumber) i with
         | Some c => if negb (Ascii.eqb c "X") then [nth i perCharConf 0%float] else []
         | None => []
         end)
      (seq 0 detectedLength) in
  let avgConfidence :=
    if (0 <? List.length validChars)%nat
    then (JS.sum validChars / of_nat (List.length validChars))%float
    else 0%float in
  let cleanNumber := slice detectedLength (strip_X finalPassportNumber) in
  let patternValid := Settings.patternRegex self cleanNumber in
  {| VisionResult.passport_number := slice detectedLength finalPassportNumber;
     VisionResult.per_char_conf := firstn detectedLength perCharConf;
     VisionResult.per_char_src := firstn detectedLength (map c_src cells);
     VisionResult.damage_flags := firstn detectedLength (map c_damage cells);
     VisionResult.confidence :=
       Math_round (avgConfidence * (if patternValid then 1.0 else 0.7))%float;
     VisionResult.damage_detected := existsb (fun d => d) (firstn detectedLength (map c_damage cells));
     VisionResult.valid_chars := List.length validChars;
     VisionResult.pattern_valid := patternValid;
     VisionResult.detected_length := detectedLength;
     VisionResult.parsing_method := "vision_character_analysis" |}.

End OCRService.

(* ===================================================================== *)
(** ** SystemLogger (unnamed/part_007, before the fusion service)

    The in-memory store of the logger.  A timestamp is the number of
    milliseconds [new Date()] holds: [toISOString] prints it and [new
    Date(log.timestamp)] reads it back.  The [details] of an entry are only
    printed, so they are left out. *)

Module SystemLogger.

Import JS.

Record logEntry := {
  timestamp : Z;
  level : string;
  component : string;
  message : string
}.

Record t := {
  logs : list logEntry;
  maxLogEntries : nat
}.

(** The constructor's state. *)
Definition initial : t := {| logs := []; maxLogEntries := Z.to_nat 10000 |}.

Definition logLevels : list string := ["debug"; "info"; "warn"; "error"; "success"].

(** [arr.slice(-n)] for [n >= 0]: the last [n] elements; [-0] is [0], so
    [slice(-0)] is the whole array. *)
Definition slice_last {A} (n : nat) (arr : list A) : list A :=
  if (n =? 0)%nat then arr else skipn (List.length arr - n) arr.

(** [log(level, component, message)] at the time [now]. *)
Definition log (now : Z) (level component message : string) (self : t) : t :=
  let logEntry :=
    {| timestamp := now; level := level; component := component; message := message |} in
  let logs := (logs self ++ [logEntry])%list in
  {| logs :=
       if (maxLogEntries self <? List.length logs)%nat
       then slice_last (maxLogEntries self) logs
       else logs;
     maxLogEntries := maxLogEntries self |}.

(** The [filters] of [getLogs].  [since] is [Some None] when the text given
    is not a date ([new Date(filters.since)] is then an invalid date, which
    no timestamp is [>=] to). *)
Record filters := {
  f_level : option string;
  f_component : option string;
  f_search : option string;
  f_since : option (option Z)
}.

Definition no_filters : filters :=
  {| f_level := None; f_component := None; f_search := None; f_since := None |}.

(** The four [if] statements of [getLogs], each narrowing [filteredLogs]. *)
Definition by_level (filters : filters) (filteredLogs : list logEntry) : list logEntry :=
  match FusionService.truthy_string (f_level filters) with
  | Some l =>
      if negb (String.eqb l "all")
      then List.filter (fun log => String.eqb (level log) l) filteredLogs
      else filteredLogs
  | None => filteredLogs
  end.

Definition by_component (filters : filters) (filteredLogs : list logEntry) : list logEntry :=
  match FusionService.truthy_string (f_component filters) with
  | Some c =>
      List.filter (fun log => includes (lower c) (lower (component log))) filteredLogs
  | None => filteredLogs
  end.

Definition by_search (filters : filters) (filteredLogs : list logEntry) : list logEntry :=
  match FusionService.truthy_string (f_search filters) with
  | Some s =>
      let searchLower := lower s in
      List.filter
        (fun log =>
           includes searchLower (lower (message log))
           || includes searchLower (lower (component log)))
        filteredLogs
  | None => filteredLogs
  end.

Definition by_since (filters : filters) (filteredLogs : list logEntry) : list logEntry :=
  match f_since filters with
  | Some sinceDate =>
      List.filter
        (fun log =>
           match sinceDate with
           | Some d => (d <=? timestamp log)%Z
           | None => false
           end)
        filteredLogs
  | None => filteredLogs
  end.

Definition getLogs (filters : filters) (self : t) : list logEntry :=
  let filteredLogs := logs self in
  let filteredLogs := by_level filters filteredLogs in
  let filteredLogs := by_component filters filteredLogs in
  let filteredLogs := by_search filters filteredLogs in
  let filteredLogs := by_since filters filteredLogs in
  slice_last 1000 filteredLogs.

Definition clearLogs (self : t) : t :=
  {| logs := []; maxLogEntries := maxLogEntries self |}.

Record stats := {
  total : nat;
  recent : nat;
  byLevel : list (string * nat)
}.

(** [getStats()] at the time [now]. *)
Definition getStats (now : Z) (self : t) : stats :=
  let oneHourAgo := now - 60 * 60 * 1000 in
  let recentLogs := List.filter (fun log => (oneHourAgo <? timestamp log)%Z) (logs self) in
  {| total := List.length (logs self);
     recent := List.length recentLogs;
     byLevel :=
       map (fun l =>
              (l, List.length (List.filter (fun log => String.eqb (level log) l) (logs self))))
           logLevels |}.

End SystemLogger.

(* ===================================================================== *)
(** ** The settings table (database/init.js, unnamed/part_012;
       server/routes/settings.js)

    [settings (key TEXT PRIMARY KEY, value TEXT)] as a finite map from keys
    to the JSON text of their values. *)

Module SettingsTable.

(** The double quote and the backslash. *)
Definition quote : string := String (ascii_of_nat 34) "".
Definition backslash : string := String (ascii_of_nat 92) "".

Definition escape (c : ascii) : string :=
  if (nat_of_ascii c =? 34)%nat || (nat_of_ascii c =? 92)%nat
  then backslash ++ JS.chr c
  else JS.chr c.

(** [JSON.stringify(s)] for a string without control characters. *)
Definition JSON_stringify (s : string) : string :=
  quote ++ String.concat "" (map escape (JS.chars s)) ++ quote.

(** The prompt of the default settings. *)
Definition visionPrompt : string :=
  "Extract the passport number from this image. The passport number can be in one of these formats: 1) Single letter C, D, E, or S followed by 8 digits (e.g., C12345678), or 2) Two letters from C, D, E, S, N followed by 7 digits (e.g., CD1234567). Return only JSON: {"
  ++ quote ++ "passport_number" ++ quote ++ ": " ++ quote ++ "C12345678" ++ quote
  ++ ", " ++ quote ++ "confidence" ++ quote ++ ": 85}".

(** [Object.entries(defaultSettings)] with [JSON.stringify] applied to the
    values. *)
Definition defaultSettings : list (string * string) :=
  [ ("modelUrl", JSON_stringify "http://10.4.0.15:11434");
    ("modelName", JSON_stringify "benhaotang/Nanonets-OCR-s:latest");
    ("keepAlive", JSON_stringify "5m");
    ("parallelRequests", "2");
    ("requestTimeout", "30000");
    ("visionPrompt", JSON_stringify visionPrompt);
    ("enhancement", JSON_stringify "standard");
    ("targetHeight", "90");
    ("contrastBoost", "1.5");
    ("sharpenAmount", "1");
    ("denoiseStrength", "0.5");
    ("confThreshold", "80");
    ("patternRegex", JSON_stringify "^(?:(?:[CDES][0-9]{8})|(?:[CDESN]{2}[0-9]{7}))$");
    ("forceParseIndex", "false");
    ("parseIndex", "0");
    ("dupPhashThreshold", "10");
    ("textDistanceThreshold", "0.8");
    ("autoConfirmDuplicates", "false");
    ("preprocessWorkers", "2");
    ("ocrWorkers", "2");
    ("ramTargetPct", "60");
    ("maxQueueSize", "1000");
    ("databaseType", JSON_stringify "sqlite");
    ("storageRoot", JSON_stringify "./storage");
    ("enableWalMode", "true");
    ("backupInterval", "24");
    ("enableAuth", "false");
    ("sessionTimeout", "8");
    ("allowedIPs", JSON_stringify "");
    ("logLevel", JSON_stringify "info") ].

(** [INSERT OR IGNORE INTO settings (key, value) VALUES (?, ?)]. *)
Definition insert_or_ignore (table : gmap string string) (kv : string * string)
  : gmap string string :=
  match table !! fst kv with
  | Some _ => table
  | None => <[fst kv := snd kv]> table
  end.

(** The loop of [seedDefaultSettings] over the entries [defaults]. *)
Definition seed (defaults : list (string * string)) (table : gmap string string)
  : gmap string string :=
  fold_left insert_or_ignore defaults table.

Definition seedDefaultSettings (table : gmap string string) : gmap string string :=
  seed defaultSettings table.

(** [DELETE FROM settings WHERE key = ?], the statement of the delete
    route. *)
Definition delete_key (key : string) (table : gmap string string) : gmap string string :=
  delete key table.

End SettingsTable.

(* ===================================================================== *)
(** ** The workers of the queue variant (unnamed/part_010): [processQueue],
       [reprocessImage], [handleTaskError] and the row [fuseResults] stores *)

Module Worker.

Import Pipeline.

Inductive stage := Preprocess | Ocr | Fusion | Post.

(** [this.queues[stage]]. *)
Definition queue_of (stage : stage) (q : queues) : list task :=
  match stage with
  | Preprocess => preprocess q
  | Ocr => ocr q
  | Fusion => fusion q
  | Post => post q
  end.

Definition set_queue (stage : stage) (l : list task) (p : t) : t :=
  let q := qs p in
  {| qs :=
       match stage with
       | Preprocess =>
           {| preprocess := l; ocr := ocr q; fusion := fusion q; post := post q |}
       | Ocr =>
           {| preprocess := preprocess q; ocr := l; fusion := fusion q; post := post q |}
       | Fusion =>
           {| preprocess := preprocess q; ocr := ocr q; fusion := l; post := post q |}
       | Post =>
           {| preprocess := preprocess q; ocr := ocr q; fusion := fusion q; post := l |}
       end;
     runningJobs := runningJobs p;
     pausedJobs := pausedJobs p |}.

(** [set.has(task.jobId)]: the sets hold the job ids [startJob] and
    [pauseJob] were called with, [null] is none of them. *)
Definition has (set : gset string) (jobId : option string) : bool :=
  match jobId with
  | Some j => bool_decide (j ∈ set)
  | None => false
  end.

(** [this.pausedJobs.has(task.jobId) || !this.runningJobs.has(task.jobId)]. *)
Definition held_back (p : t) (task : task) : bool :=
  has (pausedJobs p) (jobId task) || negb (has (runningJobs p) (jobId task)).

(** What a worker does in one turn of the loop of [processQueue], up to its
    first [await]. *)
Inductive turn :=
| Waits (p : t)
| PutsBack (task : task) (p : t)
| Processes (task : task) (p : t).

(** One turn of a worker of [stage]; [memPercent] is the resident set size
    in percent of 1 GiB. *)
Definition processQueue_turn (memPercent ramTargetPct : float) (stage : stage) (p : t)
  : turn :=
  if JS.gtb memPercent ramTargetPct then Waits p
  else
    match queue_of stage (qs p) with
    | [] => Waits p
    | task :: rest =>
        let p' := set_queue stage rest p in
        if held_back p task then PutsBack task p' else Processes task p'
    end.

(** [this.queues[stage].unshift(task)], what a worker that holds a task
    back does after its five seconds. *)
Definition put_back (stage : stage) (task : task) (p : t) : t :=
  set_queue stage (task :: queue_of stage (qs p)) p.


(** [INSERT INTO results (image_id, job_id, ..., status, ...)], the
    statement of [fuseResults] and of [handleTaskError]: neither gives a
    [version], so the row takes the column's default 1.  [job_id] is
    declared NOT NULL: for a task without a job id no row is stored. *)
Definition insert_result (task : task) (passport_number : option string) (st : status)
  (db : Db.t) : Db.t :=
  match jobId task with
  | Some job_id =>
      {| Db.jobs := Db.jobs db;
         Db.images := Db.images db;
         Db.results :=
           (Db.results db
            ++ [{| Db.r_image_id := imageId task;
                   Db.r_job_id := job_id;
                   Db.version := 1;
                   Db.passport_number := passport_number;
                   Db.r_status := st |}])%list;
         Db.duplicates := Db.duplicates db |}
  | None => db
  end.

(** The row [fuseResults] stores for a fused result. *)
Definition fuseResults_store (task : task) (fusedResult : FusedResult.t) (db : Db.t) : Db.t :=
  insert_result task (Some (FusedResult.passport_number fusedResult))
                (FusedResult.status fusedResult) db.

Definition handleTaskError (task : task) (db : Db.t) : Db.t :=
  insert_result task None ERROR db.

End Worker.

(* ===================================================================== *)
(** ** The reject route of the duplicates (unnamed/part_011) *)

Module DuplicateRoutes.

(** [DELETE FROM duplicates WHERE image_id_a = ? OR image_id_b = ?], the
    statement of the reject route. *)
Definition reject (imageId : string) (db : Db.t) : Db.t :=
  {| Db.jobs := Db.jobs db;
     Db.images := Db.images db;
     Db.results := Db.results db;
     Db.duplicates :=
       List.filter
         (fun d => negb (String.eqb (Db.image_id_a d) imageId
                         || String.eqb (Db.image_id_b d) imageId))
         (Db.duplicates db) |}.

End DuplicateRoutes.

(* ===================================================================== *)
(** ** Notions used in the statements below *)

Module Notions.

(** The count the object [counts] of [getMostCommonLength] holds for the
    key [k]: 0 when it has no such key. *)
Fixpoint tally (counts : list (nat * nat)) (k : nat) : nat :=
  match counts with
  | [] => 0%nat
  | kc :: rest => ((if (k =? fst kc)%nat then snd kc else 0) + tally rest k)%nat
  end.

(** The keys come in ascending order, as [Object.entries] lists them. *)
Definition ascending (counts : list (nat * nat)) : Prop :=
  StronglySorted (fun a b => (fst a < fst b)%nat) counts.

(** A position below the most common length for which no source has a
    readable character: the branch [candidates.length === 0] of the
    position loop writes the placeholder there. *)
Definition unreadable (sources : list Source.t) (pos : nat) : bool :=
  match FusionService.candidates_at sources pos with
  | [] =>
      (pos <? FusionService.getMostCommonLength
                (FusionService.candidate_lengths sources))%nat
  | _ :: _ => false
  end.

(** The unreadable positions among those the loop visits. *)
Definition unreadable_positions (sources : list Source.t) : list nat :=
  List.filter (unreadable sources)
    (seq 0 (Nat.max 9 (FusionService.getMostCommonLength
                         (FusionService.candidate_lengths sources)))).

End Notions.

(* ===================================================================== *)
(** ** Inputs used in the statements below *)

Module Scenario.

(** A candidate that reports one overall confidence and nothing per
    character. *)
Definition reading (passport_number : string) (confidence : float) : OcrResult.t :=
  {| OcrResult.passport_number := Some passport_number;
     OcrResult.per_char_conf := None;
     OcrResult.damage_flags := None;
     OcrResult.confidence := Some confidence;
     OcrResult.damage_detected := false |}.

(** A candidate with the same confidence at each of its positions and the
    given damage flags. *)
Definition per_char (passport_number : string) (confidence : float)
  (damage_flags : option (list bool)) : OcrResult.t :=
  {| OcrResult.passport_number := Some passport_number;
     OcrResult.per_char_conf := Some (repeat confidence (String.length passport_number));
     OcrResult.damage_flags := damage_flags;
     OcrResult.confidence := Some confidence;
     OcrResult.damage_detected := false |}.

Definition no_sources : OcrResults.t :=
  {| OcrResults.vision := None; OcrResults.tesseract := None; OcrResults.template := None |}.

Definition only_vision (r : OcrResult.t) : OcrResults.t :=
  {| OcrResults.vision := Some r; OcrResults.tesseract := None; OcrResults.template := None |}.

Definition only_tesseract (r : OcrResult.t) : OcrResults.t :=
  {| OcrResults.vision := None; OcrResults.tesseract := Some r; OcrResults.template := None |}.

(** Scenario A: "C1234567X" at confidence 90 with position 8 flagged as
    damaged, "C12345679" at 60, "C12345678" at 55. *)
Definition scenario_A : OcrResults.t :=
  {| OcrResults.vision :=
       Some (per_char "C1234567X" 90
               (Some [false; false; false; false; false; false; false; false; true]));
     OcrResults.tesseract := Some (per_char "C12345679" 60 None);
     OcrResults.template := Some (per_char "C12345678" 55 None) |}.

(** One candidate of eleven characters, so 11 is the most frequent length. *)
Definition eleven : OcrResults.t := only_vision (reading "C1234567890" 90).

(** A candidate of eleven characters next to two of nine. *)
Definition eleven_among_nines : OcrResults.t :=
  {| OcrResults.vision := Some (reading "C1234567890" 90);
     OcrResults.tesseract := Some (reading "C12345678" 90);
     OcrResults.template := Some (reading "C12345678" 90) |}.

(** Three unreadable characters in the middle of a nine-character
    candidate. *)
Definition gap : OcrResults.t := only_tesseract (reading "C123XXX78" 90).

(** Five unreadable characters in front of a readable tail. *)
Definition five_unreadable : OcrResults.t := only_vision (reading "XXXXX12345" 90).

(** Two weak candidates that disagree on five positions with letters where
    digits belong. *)
Definition five_rejected : OcrResults.t :=
  {| OcrResults.vision := None;
     OcrResults.tesseract := Some (reading "C1ABCDE78" 10);
     OcrResults.template := Some (reading "C1FGHIJ78" 10) |}.

(** What the recognizers report at one position: character and raw
    confidence, placeholders included. *)
Definition report_at (pos : nat) (r : option OcrResult.t) : list (ascii * float) :=
  match r with
  | Some result =>
      match OcrResult.passport_number result, OcrResult.per_char_conf result with
      | Some passport_number, Some per_char_conf =>
          match nth_error (JS.chars passport_number) pos with
          | Some c => [(c, FusionService.num_at per_char_conf pos)]
          | None => []
          end
      | _, _ => []
      end
  | None => []
  end.

Definition reports_at (pos : nat) (o : OcrResults.t) : list (ascii * float) :=
  (report_at pos (OcrResults.vision o)
   ++ report_at pos (OcrResults.tesseract o)
   ++ report_at pos (OcrResults.template o))%list.

(** The key with the greatest number, the first of them when several
    have it. *)
Definition argmax {K} (scored : list (K * float)) : option K :=
  option_map fst
    (fold_left
       (fun best r =>
          match best with
          | Some b => if (snd b <? snd r)%float then Some r else best
          | None => Some r
          end)
       scored None).

(** After the spec's words, "raw confidence alone": the character reported
    with the highest raw confidence. *)
Definition highest_raw (reports : list (ascii * float)) : option ascii := argmax reports.

(** After the spec's words, "the top-scoring character wins that position":
    the character of the group with the highest score, the score being the
    one the source computes for a group. *)
Definition top_scoring (groups : list (string * list Candidate.t)) : option string :=
  argmax (map (fun kg => (fst kg, FusionService.group_score (snd kg))) groups).

(** The 8x8 greyscale image that is black but for one white cell. *)
Definition one_white_cell (k : nat) : list Z :=
  map (fun i => if (i =? k)%nat then 255 else 0) (seq 0 64).

(** Two images "a" and "b" of job "J": "a" has a result, "b" has none. *)
Definition half_done : Db.t :=
  {| Db.jobs := [{| Db.j_id := "J"; Db.j_name := "batch"; Db.j_status := "CREATED" |}];
     Db.images :=
       [{| Db.id := "a"; Db.job_id := "J"; Db.phash := Some "ff"; Db.upload_ts := 1 |};
        {| Db.id := "b"; Db.job_id := "J"; Db.phash := None; Db.upload_ts := 2 |}];
     Db.results :=
       [{| Db.r_image_id := "a"; Db.r_job_id := "J"; Db.version := 1;
           Db.passport_number := Some "C12345678"; Db.r_status := SUCCESS |}];
     Db.duplicates := [] |}.

(** Scenario C: "new" has just been fused to SUCCESS with the value of the
    earlier SUCCESS image "old"; their fingerprints 7 and 0 differ in three
    bits. *)
Definition scenario_C : Db.t :=
  {| Db.jobs := [{| Db.j_id := "J"; Db.j_name := "batch"; Db.j_status := "PROCESSING" |}];
     Db.images :=
       [{| Db.id := "old"; Db.job_id := "J"; Db.phash := Some "0"; Db.upload_ts := 1 |};
        {| Db.id := "new"; Db.job_id := "J"; Db.phash := Some "7"; Db.upload_ts := 2 |}];
     Db.results :=
       [{| Db.r_image_id := "old"; Db.r_job_id := "J"; Db.version := 1;
           Db.passport_number := Some "C12345678"; Db.r_status := SUCCESS |};
        {| Db.r_image_id := "new"; Db.r_job_id := "J"; Db.version := 1;
           Db.passport_number := Some "C12345678"; Db.r_status := SUCCESS |}];
     Db.duplicates := [] |}.

(** Scenario C with one fingerprint for both images: distance 0. *)
Definition same_fingerprint : Db.t :=
  {| Db.jobs := Db.jobs scenario_C;
     Db.images :=
       [{| Db.id := "old"; Db.job_id := "J"; Db.phash := Some "7"; Db.upload_ts := 1 |};
        {| Db.id := "new"; Db.job_id := "J"; Db.phash := Some "7"; Db.upload_ts := 2 |}];
     Db.results := Db.results scenario_C;
     Db.duplicates := [] |}.

(** The detector with auto-confirmation switched on. *)
Definition auto_confirm : DuplicateDetector.settings :=
  {| DuplicateDetector.dupPhashThreshold := 10;
     DuplicateDetector.textDistanceThreshold := 0.8;
     DuplicateDetector.autoConfirmDuplicates := true |}.

(** A SUCCESS result for the value "C12345678", as the fusion stage hands
    it to post-processing. *)
Definition success_result : FusedResult.t :=
  {| FusedResult.passport_number := "C12345678";
     FusedResult.per_char_conf := repeat 90%float 9;
     FusedResult.per_char_src := repeat "vision" 9;
     FusedResult.damage_flags := repeat false 9;
     FusedResult.confidence := 90;
     FusedResult.status := SUCCESS;
     FusedResult.reasons := [];
     FusedResult.fusion_method := "variable_length_consensus";
     FusedResult.sources_used := ["vision"];
     FusedResult.valid_positions := 9;
     FusedResult.detected_length := Some 9%nat;
     FusedResult.quality_gates := None |}.

(** Both images fused before either is post-processed: first "old", then
    "new" goes through [postProcess]. *)
Definition post_both (fuel : nat) : option (list Db.duplicate) :=
  match Pipeline.postProcess fuel DuplicateDetector.default_settings "old"
          success_result scenario_C with
  | Some (db, _) =>
      match Pipeline.postProcess fuel DuplicateDetector.default_settings "new"
              success_result db with
      | Some (db', _) => Some (Db.duplicates db')
      | None => None
      end
  | None => None
  end.

(** The links of the store that record the unordered pair {a, b}. *)
Definition links_between (a b : string) (ds : list Db.duplicate) : list Db.duplicate :=
  List.filter
    (fun d =>
       (String.eqb (Db.image_id_a d) a && String.eqb (Db.image_id_b d) b)
       || (String.eqb (Db.image_id_a d) b && String.eqb (Db.image_id_b d) a))
    ds.

End Scenario.

(* ===================================================================== *)
(** ** Further inputs used in the statements below *)

Module Examples.

(** An answer of the vision model: the overall number, and a character
    analysis that is sure of a damaged position (3), reads a lower-case
    letter (5), has no entry for position 6 and disagrees with the overall
    number at position 8. *)
Definition overall : option string := Some "CD1234567".

Definition character (position : Z) (char : string) (confidence : float) (damaged : bool)
  : CharData.t :=
  {| CharData.position := Some position;
     CharData.char := Json.of_string char;
     CharData.confidence := Json.of_number confidence;
     CharData.damaged := damaged |}.

Definition characters : list CharData.t :=
  [ character 1 "C" 95 false;
    character 2 "D" 90 false;
    character 3 "1" 95 true;
    character 4 "2" 85 false;
    character 5 "b" 88 false;
    character 7 "5" 70 false;
    character 8 "9" 92 false;
    character 9 "7" 75 false ].

Definition vision_answer : VisionResult.t :=
  OCRService.validateAndCorrectHallucinations FusionService.default_settings
    overall characters.

(** The same analysis when the model writes the confidence of position 1
    in words: [{"position": 1, "char": "C", "confidence": "high"}]. The
    string is truthy and [ToNumber] gives NaN for it. *)
Definition characters_in_words : list CharData.t :=
  {| CharData.position := Some 1;
     CharData.char := Json.of_string "C";
     CharData.confidence := Json.truthy_number nan;
     CharData.damaged := false |} :: tl characters.

Definition vision_answer_in_words : VisionResult.t :=
  OCRService.validateAndCorrectHallucinations FusionService.default_settings
    overall characters_in_words.

(** The candidate that answer contributes at position 0, as source
    "vision" of weight 1 and reliability 1. *)
Definition first_candidate : Candidate.t :=
  {| Candidate.char := "C";
     Candidate.confidence := (95 * 1 * 1 * 1)%float;
     Candidate.source := "vision";
     Candidate.damaged := false;
     Candidate.originalConf := 95;
     Candidate.positionValid := true |}.

(** The groups of the candidates at one position in the order the loop of
    [buildCharacterConsensus] visits them, their scores, and the character
    [fuseOCRResults] puts at the position. *)
Definition groups_at (pos : nat) (o : OcrResults.t) : list (string * list Candidate.t) :=
  FusionService.entries
    (fold_left FusionService.add_to_group
       (FusionService.candidates_at
          (FusionService.collect_sources FusionService.default_settings o) pos) []).

Definition scores_at (pos : nat) (o : OcrResults.t) : list (string * float) :=
  map (fun kg => (fst kg, FusionService.group_score (snd kg))) (groups_at pos o).

Definition fused_at (pos : nat) (o : OcrResults.t) : option ascii :=
  nth_error
    (JS.chars
       (FusedResult.passport_number
          (FusionService.fuseOCRResults FusionService.default_settings o
             FusionService.no_overrides)))
    pos.

(** Two weaker recognizers agree on '9' against the vision model's '8'. *)
Definition agreement : OcrResults.t :=
  {| OcrResults.vision := Some (Scenario.reading "C12345678" 40);
     OcrResults.tesseract := Some (Scenario.reading "C12345679" 60);
     OcrResults.template := Some (Scenario.reading "C12345679" 60) |}.

(** The same with a vision model that is surer of its '8'. *)
Definition surer_vision : OcrResults.t :=
  {| OcrResults.vision := Some (Scenario.reading "C12345678" 60);
     OcrResults.tesseract := Some (Scenario.reading "C12345679" 60);
     OcrResults.template := Some (Scenario.reading "C12345679" 60) |}.

(** A letter where a digit belongs, read with confidence 95, against a
    digit read with confidence 20. *)
Definition misplaced_letter : OcrResults.t :=
  {| OcrResults.vision := Some (Scenario.reading "C1234567A" 95);
     OcrResults.tesseract := Some (Scenario.reading "C12345679" 20);
     OcrResults.template := None |}.

(** '9' at 35 x 1.0 against '8' at 50 x 0.7: both groups score 40. *)
Definition level : OcrResults.t :=
  {| OcrResults.vision := Some (Scenario.reading "C12345679" 35);
     OcrResults.tesseract := Some (Scenario.reading "C12345678" 50);
     OcrResults.template := None |}.

(** Scenario C after the duplicate check of "new", and what the check
    reports. *)
Definition checked : option (Db.t * list DuplicateDetector.found) :=
  DuplicateDetector.findDuplicates 33 DuplicateDetector.default_settings
    "new" "C12345678" Scenario.scenario_C.

Definition checked_store : Db.t :=
  match checked with Some (db, _) => db | None => Scenario.scenario_C end.

Definition reported : list DuplicateDetector.found :=
  match checked with Some (_, found) => found | None => [] end.

Definition old_image : DuplicateDetector.found :=
  {| DuplicateDetector.f_imageId := "old";
     DuplicateDetector.f_hammingDistance := 3;
     DuplicateDetector.f_passportNumber := Some "C12345678" |}.

(** Scenario C after the post-processing of "new". *)
Definition posted_store : Db.t :=
  match Pipeline.postProcess 33 DuplicateDetector.default_settings "new"
          Scenario.success_result Scenario.scenario_C with
  | Some (db, _) => db
  | None => Scenario.scenario_C
  end.

(** The task of image "b" of job "J", and the store after a first attempt
    at it has failed. *)
Definition task_b : Pipeline.task :=
  {| Pipeline.imageId := "b"; Pipeline.jobId := Some "J" |}.

Definition task_a : Pipeline.task :=
  {| Pipeline.imageId := "a"; Pipeline.jobId := Some "J" |}.

Definition failed_once : Db.t := Worker.handleTaskError task_b Scenario.half_done.

(** The pipeline after job "J" has been started on that store. *)
Definition running : Pipeline.t :=
  Pipeline.startJob Scenario.half_done "J" Pipeline.initial.

End Examples.

(* ===================================================================== *)
(** ** Tactics *)

(** Case analysis on every condition of the goal. *)
Ltac split_conditions :=
  repeat match goal with
         | |- context [if ?c then _ else _] => destruct c
         end.

(** Case analysis on the comparisons of integers and positives. *)
Ltac compare_cases :=
  repeat match goal with
         | H : context [Z.compare ?a ?b] |- _ =>
             destruct (Z.compare_spec a b); try subst
         | |- context [Z.compare ?a ?b] =>
             destruct (Z.compare_spec a b); try subst
         | H : context [Pos.compare ?a ?b] |- _ =>
             destruct (Pos.compare_spec a b); try subst
         | |- context [Pos.compare ?a ?b] =>
             destruct (Pos.compare_spec a b); try subst
         end.

(* ===================================================================== *)
(** ** The order of numbers *)

(** [<] on binary64 values is transitive and irreflexive, [NaN] included. *)
Lemma SFltb_trans x y z :
  SFltb x y = true -> SFltb y z = true -> SFltb x z = true.
Proof.
  unfold SFltb, SFcompare.
  destruct x as [[|]|[|]| |[|] mx ex], y as [[|]|[|]| |[|] my ey],
           z as [[|]|[|]| |[|] mz ez];
    try discriminate; try reflexivity;
    change (Pos.compare_cont Eq) with Pos.compare;
    intros Hxy Hyz; compare_cases; simpl in *;
    try discriminate; try reflexivity; try lia.
Qed.

Lemma SFltb_irrefl x : SFltb x x = false.
Proof.
  unfold SFltb, SFcompare.
  destruct x as [[|]|[|]| |[|] mx ex]; try reflexivity;
    rewrite Z.compare_refl; change (Pos.compare_cont Eq) with Pos.compare;
    rewrite Pos.compare_refl; reflexivity.
Qed.

Lemma ltb_trans (a b c : float) :
  (a <? b)%float = true -> (b <? c)%float = true -> (a <? c)%float = true.
Proof. rewrite !ltb_spec. apply SFltb_trans. Qed.

Lemma ltb_irrefl (a : float) : (a <? a)%float = false.
Proof. rewrite ltb_spec. apply SFltb_irrefl. Qed.

(* ===================================================================== *)
(** ** 32-bit integers *)

Lemma wrap32_range z : - 2 ^ 31 <= JS.wrap32 z < 2 ^ 31.
Proof.
  unfold JS.wrap32.
  pose proof (Z.mod_pos_bound (z + 2 ^ 31) (2 ^ 32) ltac:(lia)). lia.
Qed.

Lemma sar32_one n : JS.sar32 n 1 = Z.shiftr n 1.
Proof. reflexivity. Qed.

(** The shift count of [<<] wraps at 32: [1 << (i + 32)] is [1 << i]. *)
Lemma shl32_wraps i : JS.shl32 1 (i + 32) = JS.shl32 1 i.
Proof.
  unfold JS.shl32. f_equal. f_equal.
  replace (i + 32) with (i + 1 * 32) by lia. apply Z.mod_add. lia.
Qed.

(* ===================================================================== *)
(** ** calculateHammingDistance *)

Section BitCount.

Import DuplicateDetector.

(** On a negative [n] the loop is still running after any number of
    iterations: [n >>= 1] keeps the sign. *)
Lemma count_set_bits_negative fuel : forall count n,
  n < 0 -> count_set_bits fuel count n = None.
Proof.
  induction fuel as [|fuel IH]; intros count n Hn; simpl; [reflexivity|].
  destruct (Z.eqb_spec n 0) as [->|_]; [lia|].
  apply IH. rewrite sar32_one. apply Z.shiftr_neg. exact Hn.
Qed.

Lemma loop_never_returns count n r :
  loop_returns count n r -> n < 0 -> False.
Proof.
  induction 1 as [count|count n r Hne Hrun IH]; intros Hn; [lia|].
  apply IH. rewrite sar32_one. apply Z.shiftr_neg. exact Hn.
Qed.

(** The fuelled loop and the relation agree. *)
Lemma count_set_bits_sound fuel : forall count n r,
  count_set_bits fuel count n = Some r -> loop_returns count n r.
Proof.
  induction fuel as [|fuel IH]; intros count n r; simpl; [discriminate|].
  destruct (Z.eqb_spec n 0) as [->|Hne].
  - intros [= ->]. constructor.
  - intros H. apply loop_iter; [exact Hne|]. apply IH. exact H.
Qed.

Lemma count_set_bits_complete count n r :
  loop_returns count n r -> exists fuel, count_set_bits fuel count n = Some r.
Proof.
  induction 1 as [count|count n r Hne Hrun [fuel IH]].
  - exists 1%nat. reflexivity.
  - exists (S fuel). simpl. destruct (Z.eqb_spec n 0); [contradiction|exact IH].
Qed.

(** On a non-negative [n] below [2^k] the loop exits within [k] iterations
    and has counted at most [k] bits. *)
Lemma count_set_bits_bounded (k : nat) : forall count n,
  0 <= n < 2 ^ Z.of_nat k ->
  exists r, count_set_bits (S k) count n = Some r /\ count <= r <= count + Z.of_nat k.
Proof.
  induction k as [|k IH]; intros count n Hn.
  - assert (n = 0) by (simpl in Hn; lia). subst. exists count. simpl.
    split; [reflexivity|lia].
  - cbn [count_set_bits]. destruct (Z.eqb_spec n 0) as [->|Hne].
    + exists count. split; [reflexivity|lia].
    + rewrite sar32_one.
      destruct (IH (count + Z.land n 1) (Z.shiftr n 1)) as (r & Hr & Hb).
      * rewrite Z.shiftr_div_pow2 by lia. change (2 ^ 1) with 2.
        rewrite Nat2Z.inj_succ, Z.pow_succ_r in Hn by lia.
        split; [apply Z.div_pos; lia|apply Z.div_lt_upper_bound; lia].
      * exists r. split; [exact Hr|].
        assert (0 <= Z.land n 1 <= 1).
        { replace (Z.land n 1) with (n mod 2)
            by (symmetry; apply (Z.land_ones n 1); lia).
          pose proof (Z.mod_pos_bound n 2). lia. }
        clear - Hb H. lia.
Qed.

(** A missing or empty fingerprint gives the sentinel, whatever the fuel. *)
Lemma hamming_sentinel fuel hash1 hash2 :
  falsy_hash hash1 = true \/ falsy_hash hash2 = true ->
  calculateHammingDistance fuel hash1 hash2 = Some 999.
Proof.
  intros [H|H]; unfold calculateHammingDistance; rewrite H;
    [reflexivity | rewrite orb_true_r; reflexivity].
Qed.

(** When the XOR is not negative, the distance comes back and is not
    negative. *)
Lemma hamming_returns h1 h2 :
  h1 <> "" -> h2 <> "" -> 0 <= xor_of h1 h2 ->
  exists fuel r, calculateHammingDistance fuel (Some h1) (Some h2) = Some r /\ 0 <= r.
Proof.
  intros H1 H2 Hx.
  destruct (count_set_bits_bounded (Z.to_nat (xor_of h1 h2)) 0 (xor_of h1 h2))
    as (r & Hr & Hb).
  { split; [exact Hx|]. rewrite Z2Nat.id by exact Hx. apply Z.pow_gt_lin_r; lia. }
  exists (S (Z.to_nat (xor_of h1 h2))), r. split; [|lia].
  unfold calculateHammingDistance, falsy_hash.
  apply String.eqb_neq in H1, H2. rewrite H1, H2. exact Hr.
Qed.

(** When the XOR is negative, the call never returns. *)
Lemma hamming_diverges h1 h2 fuel :
  h1 <> "" -> h2 <> "" -> xor_of h1 h2 < 0 ->
  calculateHammingDistance fuel (Some h1) (Some h2) = None.
Proof.
  intros H1 H2 Hx. unfold calculateHammingDistance, falsy_hash.
  apply String.eqb_neq in H1, H2. rewrite H1, H2.
  apply count_set_bits_negative. exact Hx.
Qed.

End BitCount.

(** C10: the fingerprints "80000000" and "0" are hexadecimal strings whose
    32-bit XOR has its highest bit set.  On them [calculateHammingDistance]
    does not terminate: whatever number of loop iterations is allowed, the
    loop is still running, and the loop as a relation has no result. *)
Theorem hamming_distance_of_negative_xor_never_returns :
  DuplicateDetector.xor_of "80000000" "0" = - 2 ^ 31
  /\ (forall fuel,
        DuplicateDetector.calculateHammingDistance fuel (Some "80000000") (Some "0") = None)
  /\ (forall r, ~ DuplicateDetector.loop_returns 0 (DuplicateDetector.xor_of "80000000" "0") r).
Proof.
  assert (Hx : DuplicateDetector.xor_of "80000000" "0" = - 2 ^ 31) by (vm_compute; reflexivity).
  split; [exact Hx|]. split.
  - intros fuel. apply hamming_diverges; [discriminate|discriminate|].
    rewrite Hx. lia.
  - intros r Hr. apply (loop_never_returns _ _ _ Hr). rewrite Hx. lia.
Qed.

(* ===================================================================== *)
(** ** calculatePHash *)

(** The cell [i + 32] sets the bit the cell [i] sets. *)
Lemma phash_cell_bit_wraps (i : nat) :
  JS.shl32 1 (Z.of_nat (i + 32)) = JS.shl32 1 (Z.of_nat i).
Proof.
  rewrite Nat2Z.inj_add. apply shl32_wraps.
Qed.

Lemma fold_left_invariant {A B} (P : A -> Prop) (f : A -> B -> A) (l : list B) :
  (forall a b, P a -> P (f a b)) -> forall a, P a -> P (fold_left f l a).
Proof.
  intros Hf. induction l as [|b l IH]; intros a Ha; simpl; [exact Ha|].
  apply IH, Hf, Ha.
Qed.

(** The hash is a signed 32-bit integer, whatever the number of cells. *)
Lemma phash_bits_int32 data :
  - 2 ^ 31 <= ImageProcessor.phash_bits data < 2 ^ 31.
Proof.
  unfold ImageProcessor.phash_bits.
  apply (fold_left_invariant (fun h => - 2 ^ 31 <= h < 2 ^ 31)); [|lia].
  intros h i Hh. destruct (JS.gtb _ _); [apply wrap32_range|exact Hh].
Qed.

(** C8: the image whose only white cell is cell 0 and the image whose only
    white cell is cell 32 get the same fingerprint "1": the two cells share
    bit 0, and no bit of the fingerprint is determined by cell 32 alone. *)
Theorem phash_cells_0_and_32_share_a_bit :
  Scenario.one_white_cell 0 <> Scenario.one_white_cell 32
  /\ ImageProcessor.calculatePHash (Scenario.one_white_cell 0) = "1"
  /\ ImageProcessor.calculatePHash (Scenario.one_white_cell 32) = "1".
Proof.
  split; [|split; vm_compute; reflexivity].
  intros H. apply (f_equal (fun l => nth 0 l 0)) in H. vm_compute in H. discriminate.
Qed.

(** A fingerprint [calculatePHash] prints can be one the detector hangs on:
    the image whose only white cell is cell 31 gets "-80000000", and its
    distance to the fingerprint "1" is never returned. *)
Lemma printed_fingerprint_hangs_the_detector :
  ImageProcessor.calculatePHash (Scenario.one_white_cell 31) = "-80000000"
  /\ forall fuel,
       DuplicateDetector.calculateHammingDistance fuel
         (Some (ImageProcessor.calculatePHash (Scenario.one_white_cell 31)))
         (Some (ImageProcessor.calculatePHash (Scenario.one_white_cell 0)))
       = None.
Proof.
  assert (H31 : ImageProcessor.calculatePHash (Scenario.one_white_cell 31) = "-80000000")
    by (vm_compute; reflexivity).
  assert (H0 : ImageProcessor.calculatePHash (Scenario.one_white_cell 0) = "1")
    by (vm_compute; reflexivity).
  split; [exact H31|]. intros fuel. rewrite H31, H0.
  apply hamming_diverges; [discriminate|discriminate|]. vm_compute. reflexivity.
Qed.

(* ===================================================================== *)
(** ** findDuplicates *)

Section FindDuplicates.

Import DuplicateDetector.

Lemma has_link_iff a b db :
  Db.has_link a b db = true <->
  exists d, In d (Db.duplicates db) /\ Db.image_id_a d = a /\ Db.image_id_b d = b.
Proof.
  unfold Db.has_link. rewrite existsb_exists. split.
  - intros (d & Hin & H). apply andb_true_iff in H as [Ha Hb].
    apply String.eqb_eq in Ha, Hb. eauto.
  - intros (d & Hin & Ha & Hb). exists d. split; [exact Hin|].
    subst. rewrite !String.eqb_refl. reflexivity.
Qed.

Lemma insert_keeps_images a b h td db :
  Db.images (Db.insert_or_ignore_duplicate a b h td db) = Db.images db.
Proof.
  unfold Db.insert_or_ignore_duplicate. destruct (Db.has_link a b db); reflexivity.
Qed.

Lemma getImagePHash_insert a b h td db imageId :
  getImagePHash (Db.insert_or_ignore_duplicate a b h td db) imageId = getImagePHash db imageId.
Proof.
  unfold getImagePHash. rewrite insert_keeps_images. reflexivity.
Qed.

Lemma insert_monotone a b h td db d :
  In d (Db.duplicates db) -> In d (Db.duplicates (Db.insert_or_ignore_duplicate a b h td db)).
Proof.
  unfold Db.insert_or_ignore_duplicate. destruct (Db.has_link a b db); simpl; [auto|].
  intros H. apply in_or_app. left. exact H.
Qed.

Lemma insert_new_row a b h td db d :
  In d (Db.duplicates (Db.insert_or_ignore_duplicate a b h td db)) ->
  In d (Db.duplicates db)
  \/ (Db.has_link a b db = false
      /\ d = {| Db.image_id_a := a; Db.image_id_b := b; Db.hamming := h;
                Db.text_distance := td; Db.confirmed := false |}).
Proof.
  unfold Db.insert_or_ignore_duplicate. destruct (Db.has_link a b db) eqn:E; simpl; [auto|].
  intros H. apply in_app_or in H as [H|[H|[]]]; [left; exact H|right; auto].
Qed.

Lemma insert_links a b h td db :
  Db.has_link a b (Db.insert_or_ignore_duplicate a b h td db) = true.
Proof.
  unfold Db.insert_or_ignore_duplicate. destruct (Db.has_link a b db) eqn:E; [exact E|].
  unfold Db.has_link. simpl. rewrite existsb_app. simpl.
  rewrite !String.eqb_refl. rewrite orb_true_r. reflexivity.
Qed.

Lemma has_link_monotone a b a' b' h td db :
  Db.has_link a b db = true ->
  Db.has_link a b (Db.insert_or_ignore_duplicate a' b' h td db) = true.
Proof.
  rewrite !has_link_iff. intros (d & Hin & H). exists d. split; [|exact H].
  apply insert_monotone. exact Hin.
Qed.

(** What the loop of [findDuplicates] does to the store, when every
    distance comes back. *)
Lemma scan_rows_spec fuel s imageId hp : forall rows db acc,
  getImagePHash db imageId = hp ->
  (forall row, In row rows ->
     exists h, calculateHammingDistance fuel hp (row_phash row) = Some h) ->
  exists db' found,
    scan_rows fuel s imageId rows db acc = Some (db', found)
    /\ (forall d, In d (Db.duplicates db) -> In d (Db.duplicates db'))
    /\ (forall d, In d (Db.duplicates db') ->
          In d (Db.duplicates db) \/ Db.confirmed d = false)
    /\ (forall f, In f acc -> In f found)
    /\ (forall row h, In row rows ->
          calculateHammingDistance fuel hp (row_phash row) = Some h ->
          (JS.of_Z h <=? dupPhashThreshold s)%float = true ->
          Db.has_link imageId (row_id row) db' = true
          /\ In {| f_imageId := row_id row; f_hammingDistance := h;
                   f_passportNumber := row_passport_number row |} found).
Proof.
  induction rows as [|row rows IH]; intros db acc Hp Hall.
  - exists db, acc. simpl. split; [reflexivity|]. split; [auto|]. split; [auto|].
    split; [auto|]. intros ? ? [].
  - destruct (Hall row (or_introl eq_refl)) as [h Hh].
    cbn [scan_rows]. rewrite Hp, Hh.
    destruct (JS.of_Z h <=? dupPhashThreshold s)%float eqn:Hle.
    + set (db1 := Db.insert_or_ignore_duplicate imageId (row_id row) h 0 db).
      destruct (IH db1
                  (acc ++ [{| f_imageId := row_id row; f_hammingDistance := h;
                              f_passportNumber := row_passport_number row |}])%list)
        as (db' & found & Hscan & Hmono & Hnew & Hacc & Hrows).
      { unfold db1. rewrite getImagePHash_insert. exact Hp. }
      { intros r Hr. apply Hall. right. exact Hr. }
      exists db', found. split; [exact Hscan|]. split; [|split; [|split]].
      * intros d Hd. apply Hmono. apply insert_monotone. exact Hd.
      * intros d Hd. destruct (Hnew d Hd) as [Hd1|Hc]; [|right; exact Hc].
        destruct (insert_new_row _ _ _ _ _ _ Hd1) as [Hold|[_ ->]]; [left; exact Hold|].
        right. reflexivity.
      * intros f Hf. apply Hacc. apply in_or_app. left. exact Hf.
      * intros r h' [<-|Hr] Hh' Hle'.
        -- rewrite Hh in Hh'. injection Hh' as <-. split.
           ++ apply has_link_iff.
              pose proof (insert_links imageId (row_id row) h 0 db) as Hl.
              apply has_link_iff in Hl as (d & Hd & Ha & Hb).
              exists d. split; [apply Hmono; exact Hd|auto].
           ++ apply Hacc. apply in_or_app. right. left. reflexivity.
        -- apply Hrows; assumption.
    + destruct (IH db acc Hp) as (db' & found & Hscan & Hmono & Hnew & Hacc & Hrows).
      { intros r Hr. apply Hall. right. exact Hr. }
      exists db', found. split; [exact Hscan|]. split; [exact Hmono|].
      split; [exact Hnew|]. split; [exact Hacc|].
      intros r h' [<-|Hr] Hh' Hle'.
      * rewrite Hh in Hh'. injection Hh' as <-. rewrite Hle in Hle'. discriminate.
      * apply Hrows; assumption.
Qed.

(** [INSERT OR IGNORE] keeps the ordered pairs of the store distinct. *)
Lemma insert_keeps_ordered_pairs_distinct a b h td db :
  List.NoDup (Db.ordered_pairs db) ->
  List.NoDup (Db.ordered_pairs (Db.insert_or_ignore_duplicate a b h td db)).
Proof.
  intros Hnd. unfold Db.insert_or_ignore_duplicate.
  destruct (Db.has_link a b db) eqn:E; [exact Hnd|].
  unfold Db.ordered_pairs in *. cbn [Db.duplicates]. rewrite map_app. cbn [map].
  apply List.NoDup_app; [exact Hnd|repeat constructor; intros []|].
  intros [a' b'] Hin Hin'.
  destruct Hin' as [[= <- <-]|[]].
  apply in_map_iff in Hin as (d & [= Ha Hb] & Hd).
  assert (Db.has_link a b db = true) as Habs by (apply has_link_iff; eauto).
  rewrite E in Habs. discriminate.
Qed.

Lemma scan_rows_keeps_ordered_pairs_distinct fuel s imageId : forall rows db acc db' found,
  List.NoDup (Db.ordered_pairs db) ->
  scan_rows fuel s imageId rows db acc = Some (db', found) ->
  List.NoDup (Db.ordered_pairs db').
Proof.
  induction rows as [|row rows IH]; intros db acc db' found Hnd; cbn [scan_rows].
  - intros [= <- _]. exact Hnd.
  - destruct (calculateHammingDistance _ _ _) as [h|]; [|discriminate].
    destruct (_ <=? _)%float.
    + apply IH. apply insert_keeps_ordered_pairs_distinct. exact Hnd.
    + apply IH. exact Hnd.
Qed.

(** [findDuplicates] never stores one ordered pair twice. *)
Lemma findDuplicates_keeps_ordered_pairs_distinct fuel s imageId passportNumber db db' found :
  List.NoDup (Db.ordered_pairs db) ->
  findDuplicates fuel s imageId passportNumber db = Some (db', found) ->
  List.NoDup (Db.ordered_pairs db').
Proof.
  intros Hnd. apply scan_rows_keeps_ordered_pairs_distinct. exact Hnd.
Qed.
End FindDuplicates.

(** When the distance comes back for every prior image whose latest result
    has the same fused value, the fingerprint of the freshly fused image is
    at Hamming distance 3 from that of one of them, and 3 is within
    [dupPhashThreshold], [findDuplicates] reports that image and stores a
    link for the pair; the link it creates has its confirmed flag unset, and
    so has every link the call adds, whatever [autoConfirmDuplicates]
    says. *)
Lemma duplicate_link_is_created_unconfirmed
  fuel s db imageId passportNumber (prior : DuplicateDetector.row) :
  In prior (DuplicateDetector.same_number_rows db passportNumber imageId) ->
  (forall row, In row (DuplicateDetector.same_number_rows db passportNumber imageId) ->
     exists h,
       DuplicateDetector.calculateHammingDistance fuel
         (DuplicateDetector.getImagePHash db imageId) (DuplicateDetector.row_phash row)
       = Some h) ->
  DuplicateDetector.calculateHammingDistance fuel
    (DuplicateDetector.getImagePHash db imageId) (DuplicateDetector.row_phash prior)
  = Some 3 ->
  (JS.of_Z 3 <=? DuplicateDetector.dupPhashThreshold s)%float = true ->
  Db.has_link imageId (DuplicateDetector.row_id prior) db = false ->
  exists db' found,
    DuplicateDetector.findDuplicates fuel s imageId passportNumber db = Some (db', found)
    /\ In {| DuplicateDetector.f_imageId := DuplicateDetector.row_id prior;
             DuplicateDetector.f_hammingDistance := 3;
             DuplicateDetector.f_passportNumber :=
               DuplicateDetector.row_passport_number prior |} found
    /\ (exists d, In d (Db.duplicates db')
                  /\ Db.image_id_a d = imageId
                  /\ Db.image_id_b d = DuplicateDetector.row_id prior
                  /\ Db.confirmed d = false)
    /\ (forall d, In d (Db.duplicates db') ->
          In d (Db.duplicates db) \/ Db.confirmed d = false).
Proof.
  intros Hprior Hall Hdist Hle Hfresh.
  destruct (scan_rows_spec fuel s imageId (DuplicateDetector.getImagePHash db imageId)
              (DuplicateDetector.same_number_rows db passportNumber imageId) db []
              eq_refl Hall)
    as (db' & found & Hscan & Hmono & Hnew & _ & Hrows).
  destruct (Hrows prior 3 Hprior Hdist Hle) as [Hlink Hfound].
  exists db', found. split; [exact Hscan|]. split; [exact Hfound|]. split; [|exact Hnew].
  apply has_link_iff in Hlink as (d & Hd & Ha & Hb).
  exists d. split; [exact Hd|]. split; [exact Ha|]. split; [exact Hb|].
  destruct (Hnew d Hd) as [Hold|Hc]; [|exact Hc].
  assert (Db.has_link imageId (DuplicateDetector.row_id prior) db = true) as Habs
    by (apply has_link_iff; eauto).
  rewrite Hfresh in Habs. discriminate.
Qed.

(** On Scenario C with auto-confirmation switched on the hypotheses
    hold. *)
Lemma duplicate_link_is_created_unconfirmed_scenario_C :
  exists db' found,
    DuplicateDetector.findDuplicates 33 Scenario.auto_confirm "new" "C12345678"
      Scenario.scenario_C = Some (db', found)
    /\ In {| DuplicateDetector.f_imageId := "old";
             DuplicateDetector.f_hammingDistance := 3;
             DuplicateDetector.f_passportNumber := Some "C12345678" |} found
    /\ (exists d, In d (Db.duplicates db')
                  /\ Db.image_id_a d = "new"
                  /\ Db.image_id_b d = "old"
                  /\ Db.confirmed d = false)
    /\ (forall d, In d (Db.duplicates db') ->
          In d (Db.duplicates Scenario.scenario_C) \/ Db.confirmed d = false).
Proof.
  apply (duplicate_link_is_created_unconfirmed 33 Scenario.auto_confirm
           Scenario.scenario_C "new" "C12345678"
           {| DuplicateDetector.row_id := "old";
              DuplicateDetector.row_phash := Some "0";
              DuplicateDetector.row_passport_number := Some "C12345678" |}).
  - vm_compute. left. reflexivity.
  - intros row Hrow. vm_compute in Hrow. destruct Hrow as [<-|[]].
    exists 3. vm_compute. reflexivity.
  - vm_compute. reflexivity.
  - vm_compute. reflexivity.
  - vm_compute. reflexivity.
Defined.

(** [findDuplicates] does not read [autoConfirmDuplicates] (nor
    [textDistanceThreshold]): two detectors with the same
    [dupPhashThreshold] do the same. *)
Lemma findDuplicates_reads_the_threshold_only fuel s s' imageId passportNumber db :
  DuplicateDetector.dupPhashThreshold s = DuplicateDetector.dupPhashThreshold s' ->
  DuplicateDetector.findDuplicates fuel s imageId passportNumber db
  = DuplicateDetector.findDuplicates fuel s' imageId passportNumber db.
Proof.
  intros H. unfold DuplicateDetector.findDuplicates.
  generalize (DuplicateDetector.same_number_rows db passportNumber imageId).
  generalize (@nil DuplicateDetector.found).
  intros found rows. revert db found.
  induction rows as [|row rows IH]; intros db found; [reflexivity|].
  cbn [DuplicateDetector.scan_rows]. rewrite H.
  destruct (DuplicateDetector.calculateHammingDistance _ _ _); [|reflexivity].
  destruct (_ <=? _)%float; apply IH.
Qed.

(** C4: Scenario C with auto-confirmation switched on.  The fingerprints
    are at distance 3, within the threshold 10 and below any auto-confirm
    threshold of 5; the link [findDuplicates] stores is not confirmed, and
    the call does what it does with auto-confirmation switched off.  Nor is
    the link confirmed when the two fingerprints are the same, at
    distance 0. *)
Theorem auto_confirm_does_not_confirm :
  DuplicateDetector.calculateHammingDistance 33 (Some "7") (Some "0") = Some 3
  /\ DuplicateDetector.autoConfirmDuplicates Scenario.auto_confirm = true
  /\ option_map (fun out => Db.duplicates (fst out))
       (DuplicateDetector.findDuplicates 33 Scenario.auto_confirm "new" "C12345678"
          Scenario.scenario_C)
     = Some [{| Db.image_id_a := "new"; Db.image_id_b := "old"; Db.hamming := 3;
                Db.text_distance := 0; Db.confirmed := false |}]
  /\ DuplicateDetector.findDuplicates 33 Scenario.auto_confirm "new" "C12345678"
       Scenario.scenario_C
     = DuplicateDetector.findDuplicates 33 DuplicateDetector.default_settings
         "new" "C12345678" Scenario.scenario_C
  /\ option_map (fun out => Db.duplicates (fst out))
       (DuplicateDetector.findDuplicates 33 Scenario.auto_confirm "new" "C12345678"
          Scenario.same_fingerprint)
     = Some [{| Db.image_id_a := "new"; Db.image_id_b := "old"; Db.hamming := 0;
                Db.text_distance := 0; Db.confirmed := false |}].
Proof.
  repeat split; vm_compute; reflexivity.
Qed.

(** C5: two images with the same fused value and fingerprints three bits
    apart, both fused before either is post-processed.  Post-processing
    "old" stores the link (old, new); post-processing "new" then stores the
    mirrored link (new, old): the store holds two links for one unordered
    pair. *)
Theorem mirrored_link_is_stored :
  option_map (Scenario.links_between "old" "new") (Scenario.post_both 33)
  = Some [{| Db.image_id_a := "old"; Db.image_id_b := "new"; Db.hamming := 3;
             Db.text_distance := 0; Db.confirmed := false |};
          {| Db.image_id_a := "new"; Db.image_id_b := "old"; Db.hamming := 3;
             Db.text_distance := 0; Db.confirmed := false |}].
Proof.
  vm_compute. reflexivity.
Qed.

(* ===================================================================== *)
(** ** startJob *)

Section StartJob.

(** Queue variant: every image of the job is queued, with or without a
    result, behind what the queue already holds. *)
Lemma startJob_queues_every_image db jobId p (i : Db.image) :
  In i (Db.images db) -> Db.job_id i = jobId ->
  In {| Pipeline.imageId := Db.id i; Pipeline.jobId := Some jobId |}
     (Pipeline.preprocess (Pipeline.qs (Pipeline.startJob db jobId p))).
Proof.
  intros Hin Hjob. simpl. apply in_or_app. right.
  apply (in_map (fun id => {| Pipeline.imageId := id; Pipeline.jobId := Some jobId |})).
  unfold Pipeline.job_image_ids. apply in_map. apply filter_In. split; [exact Hin|].
  rewrite Hjob. apply String.eqb_refl.
Qed.

(** Queue variant: the queue grows by the number of images of the job,
    whether or not the job is already running. *)
Lemma startJob_queue_length db jobId p :
  List.length (Pipeline.preprocess (Pipeline.qs (Pipeline.startJob db jobId p)))
  = (List.length (Pipeline.preprocess (Pipeline.qs p))
     + List.length (Pipeline.job_image_ids db jobId))%nat.
Proof.
  simpl. rewrite length_app, length_map. reflexivity.
Qed.

(** Queue variant: a pause leaves the queues as they are. *)
Lemma pauseJob_keeps_queues jobId p :
  Pipeline.qs (Pipeline.pauseJob jobId p) = Pipeline.qs p.
Proof. reflexivity. Qed.

(** Queue variant: after a stop no queued preprocess task of the job is
    left, and the tasks of other jobs stay in their order. *)
Lemma stopJob_purges_preprocess jobId p :
  Pipeline.preprocess (Pipeline.qs (Pipeline.stopJob jobId p))
  = List.filter (Pipeline.other_job jobId) (Pipeline.preprocess (Pipeline.qs p))
  /\ forall task,
       In task (Pipeline.preprocess (Pipeline.qs (Pipeline.stopJob jobId p))) ->
       Pipeline.jobId task <> Some jobId.
Proof.
  split; [reflexivity|].
  intros task H. cbn in H. apply filter_In in H as [_ H].
  unfold Pipeline.other_job in H. intros E. rewrite E in H.
  rewrite String.eqb_refl in H. discriminate.
Qed.

Lemma insert_by_upload_In i x sorted :
  In x (DirectPipeline.insert_by_upload i sorted) <-> x = i \/ In x sorted.
Proof.
  induction sorted as [|j rest IH]; simpl.
  - intuition.
  - destruct (Db.upload_ts i <=? Db.upload_ts j)%Z; simpl; [intuition|].
    rewrite IH. intuition.
Qed.

(** Direct-loop variant: the pending images are the images of the job that
    have no result. *)
Lemma getPendingImages_In db jobId (i : Db.image) :
  In i (DirectPipeline.getPendingImages db jobId)
  <-> In i (Db.images db) /\ Db.job_id i = jobId
      /\ DirectPipeline.has_result db (Db.id i) = false.
Proof.
  unfold DirectPipeline.getPendingImages.
  set (keep := fun i : Db.image =>
                 String.eqb (Db.job_id i) jobId
                 && negb (DirectPipeline.has_result db (Db.id i))).
  assert (Hsort : forall l, In i (fold_right DirectPipeline.insert_by_upload [] l) <-> In i l).
  { induction l as [|x l IH]; simpl; [reflexivity|].
    rewrite insert_by_upload_In, IH. intuition. }
  rewrite Hsort, filter_In. unfold keep.
  rewrite andb_true_iff, negb_true_iff, String.eqb_eq. intuition.
Qed.

(** Direct-loop variant: a start while the pipeline is processing returns
    [false] and leaves the state as it is. *)
Lemma direct_start_while_processing db jobId p :
  DirectPipeline.isProcessing p = true ->
  DirectPipeline.startJob_entry db jobId p = DirectPipeline.ReturnsFalse p.
Proof.
  intros H. unfold DirectPipeline.startJob_entry. rewrite H. reflexivity.
Qed.

(** Direct-loop variant: a start that reaches the batch loop works on the
    images of the job that have no result, and on no other. *)
Lemma direct_start_takes_pending db jobId p images p' :
  DirectPipeline.startJob_entry db jobId p = DirectPipeline.StartsBatches images p' ->
  forall i : Db.image,
    In i images
    <-> In i (Db.images db) /\ Db.job_id i = jobId
        /\ DirectPipeline.has_result db (Db.id i) = false.
Proof.
  unfold DirectPipeline.startJob_entry.
  destruct (DirectPipeline.isProcessing p); [discriminate|].
  destruct (DirectPipeline.getJob db jobId); [|discriminate].
  destruct (DirectPipeline.getPendingImages db jobId) as [|x l] eqn:E; [discriminate|].
  intros [= <- _] i. rewrite <- E. apply getPendingImages_In.
Qed.

(** Direct-loop variant on the same store: the first start takes the image
    "b" alone, and a start while it is processing returns [false] and leaves
    the state as it is. *)
Lemma direct_start_on_half_done :
  exists p1,
    DirectPipeline.startJob_entry Scenario.half_done "J" DirectPipeline.initial
    = DirectPipeline.StartsBatches
        [{| Db.id := "b"; Db.job_id := "J"; Db.phash := None; Db.upload_ts := 2 |}] p1
    /\ DirectPipeline.isProcessing p1 = true
    /\ DirectPipeline.startJob_entry Scenario.half_done "J" p1
       = DirectPipeline.ReturnsFalse p1.
Proof.
  eexists. split; [reflexivity|]. split; reflexivity.
Qed.

End StartJob.

(** C3: job "J" has the image "a", which has a result, and the image "b",
    which has none.  The queue variant of [startJob] queues both for
    preprocessing, and a second [startJob] while the job is running queues
    both again. *)
Theorem startJob_queues_all_images_each_time :
  let p1 := Pipeline.startJob Scenario.half_done "J" Pipeline.initial in
  let p2 := Pipeline.startJob Scenario.half_done "J" p1 in
  DirectPipeline.has_result Scenario.half_done "a" = true
  /\ DirectPipeline.has_result Scenario.half_done "b" = false
  /\ map Pipeline.imageId (Pipeline.preprocess (Pipeline.qs p1)) = ["a"; "b"]
  /\ "J" ∈ Pipeline.runningJobs p1
  /\ map Pipeline.imageId (Pipeline.preprocess (Pipeline.qs p2)) = ["a"; "b"; "a"; "b"].
Proof.
  cbv zeta. split; [reflexivity|]. split; [reflexivity|]. split; [reflexivity|].
  split; [|reflexivity].
  unfold Pipeline.startJob. cbn [Pipeline.runningJobs]. set_solver.
Qed.

(* ===================================================================== *)
(** ** The quality gate *)

(** More than three damaged positions end in REVIEW_REQUIRED, whatever the
    earlier gates said. *)
Lemma extensive_damage_is_review_required (result : Fusion.t) (settings : Settings.t) :
  (3 < FusionService.count_true (Fusion.damage_flags result))%nat ->
  FusedResult.status (FusionService.applyQualityGates result settings) = REVIEW_REQUIRED.
Proof.
  intros H. apply Nat.ltb_lt in H.
  unfold FusionService.applyQualityGates. rewrite H.
  split_conditions; reflexivity.
Qed.

(** For a fused result with at least five placeholders the quality gate
    gives BAD_IMAGE when the length of the sequence is within [7, 9] and at
    most three positions are flagged as damaged; otherwise the later gates
    overwrite it with REVIEW_REQUIRED. *)
Lemma five_placeholders_status (result : Fusion.t) (settings : Settings.t) :
  (5 <= JS.count_X (Fusion.passport_number result))%nat ->
  FusedResult.status (FusionService.applyQualityGates result settings)
  = if ((String.length (Fusion.passport_number result) <? 7)%nat
        || (9 <? String.length (Fusion.passport_number result))%nat
        || (3 <? FusionService.count_true (Fusion.damage_flags result))%nat)
    then REVIEW_REQUIRED else BAD_IMAGE.
Proof.
  intros H.
  assert (H0 : (0 <? JS.count_X (Fusion.passport_number result))%nat = true)
    by (apply Nat.ltb_lt; lia).
  assert (H5 : (5 <=? JS.count_X (Fusion.passport_number result))%nat = true)
    by (apply Nat.leb_le; lia).
  unfold FusionService.applyQualityGates. rewrite H0, H5.
  destruct (_ <? 7)%nat, (9 <? _)%nat, (3 <? _)%nat; cbn [orb];
  split_conditions; reflexivity.
Qed.

(** Two weak candidates that disagree on five positions: the fusion leaves
    five placeholders without a damage flag (the consensus of rejected
    candidates), and the gate says BAD_IMAGE. *)
Lemma five_placeholders_status_five_rejected :
  let fusion :=
    FusionService.performVariableLengthFusion
      (FusionService.collect_sources FusionService.default_settings Scenario.five_rejected)
      FusionService.default_settings in
  (5 <= JS.count_X (Fusion.passport_number fusion))%nat
  /\ FusedResult.status
       (FusionService.applyQualityGates fusion FusionService.default_settings)
     = BAD_IMAGE.
Proof.
  cbv zeta. split.
  - vm_compute. lia.
  - refine (eq_trans (five_placeholders_status _ FusionService.default_settings _) _).
    + vm_compute. lia.
    + vm_compute. reflexivity.
Defined.

(** The cells that are to carry a character and a damage flag lie before
    the detected length, so the cut of the arrays keeps their flags. *)
Lemma flagged_cells_within_actual_length {A} (f : A -> FusionService.cell)
  (P : A -> bool) (ps : list A) :
  (forall p, In p ps -> P p = true ->
     FusionService.cell_char (f p) <> "" /\ FusionService.cell_damage (f p) = true) ->
  (List.length (List.filter P ps)
   <= FusionService.count_true
        (firstn (FusionService.determineActualLength
                   (map FusionService.cell_char (map f ps)))
                (map FusionService.cell_damage (map f ps))))%nat.
Proof.
  unfold FusionService.count_true.
  induction ps as [|p ps IH]; intros H; [simpl; lia|].
  cbn [map FusionService.determineActualLength List.filter].
  assert (IH' := IH (fun q Hq => H q (or_intror Hq))). clear IH.
  destruct (FusionService.determineActualLength
              (map FusionService.cell_char (map f ps))) as [|n].
  - rewrite firstn_O in IH'. cbn [List.filter List.length] in IH'.
    destruct (P p) eqn:Ep.
    + destruct (H p (or_introl eq_refl) Ep) as [Hc Hd].
      destruct (String.eqb_spec (FusionService.cell_char (f p)) "") as [He|_];
        [contradiction|].
      cbn [firstn List.filter]. rewrite Hd. cbn [List.length]. lia.
    + lia.
  - cbn [firstn List.filter]. destruct (P p) eqn:Ep.
    + destruct (H p (or_introl eq_refl) Ep) as [_ Hd]. rewrite Hd.
      cbn [List.length]. lia.
    + destruct (FusionService.cell_damage (f p)); cbn [List.length]; lia.
Qed.

(** Every unreadable position carries a damage flag in the fused result. *)
Lemma unreadable_positions_are_flagged sources settings :
  (List.length (Notions.unreadable_positions sources)
   <= FusionService.count_true
        (Fusion.damage_flags (FusionService.performVariableLengthFusion sources settings)))%nat.
Proof.
  unfold FusionService.performVariableLengthFusion. cbn [Fusion.damage_flags].
  unfold FusionService.fusion_cells, Notions.unreadable_positions.
  apply flagged_cells_within_actual_length.
  intros p _ Hp. unfold Notions.unreadable in Hp. unfold FusionService.fuse_position.
  destruct (FusionService.candidates_at sources p); [|discriminate].
  cbn [FusionService.cell_char FusionService.cell_damage]. rewrite Hp.
  split; [discriminate|reflexivity].
Qed.

(** So four unreadable positions or more end in REVIEW_REQUIRED: the
    BAD_IMAGE that five of them set is overwritten by the damage gate.  Only
    placeholders that come from a consensus of rejected candidates, which
    carry no damage flag, can end in BAD_IMAGE. *)
Lemma unreadable_positions_end_in_review sources settings :
  (3 < List.length (Notions.unreadable_positions sources))%nat ->
  FusedResult.status
    (FusionService.applyQualityGates
       (FusionService.performVariableLengthFusion sources settings) settings)
  = REVIEW_REQUIRED.
Proof.
  intros H. apply extensive_damage_is_review_required.
  pose proof (unreadable_positions_are_flagged sources settings). lia.
Qed.

(** C1: a candidate with five unreadable characters in front gives the
    sequence "XXXXX1234" with five placeholders.  The quality gate sets
    BAD_IMAGE and writes "Too many unreadable characters (5/9)" into the
    reasons; the five placeholders are flagged as damaged, so the damage
    gate that follows writes "Extensive damage detected" and overwrites the
    status: the result is REVIEW_REQUIRED, not BAD_IMAGE. *)
Theorem five_unreadable_is_review_required :
  let fusion :=
    FusionService.performVariableLengthFusion
      (FusionService.collect_sources FusionService.default_settings Scenario.five_unreadable)
      FusionService.default_settings in
  let fused :=
    FusionService.fuseOCRResults FusionService.default_settings
      Scenario.five_unreadable FusionService.no_overrides in
  Fusion.passport_number fusion = "XXXXX1234"
  /\ JS.count_X (Fusion.passport_number fusion) = 5%nat
  /\ Fusion.damage_flags fusion
     = [true; true; true; true; true; false; false; false; false]
  /\ FusedResult.status
       (FusionService.applyQualityGates fusion FusionService.default_settings)
     = REVIEW_REQUIRED
  /\ FusedResult.status fused = REVIEW_REQUIRED
  /\ FusedResult.passport_number fused = "XXXXX1234"
  /\ Notions.unreadable_positions
       (FusionService.collect_sources FusionService.default_settings Scenario.five_unreadable)
     = [0; 1; 2; 3; 4]%nat
  /\ In (JS.Lit "Too many unreadable characters (") (FusedResult.reasons fused)
  /\ In (JS.Lit "Extensive damage detected") (FusedResult.reasons fused).
Proof.
  cbv zeta. do 7 (split; [vm_compute; reflexivity|]). split.
  - vm_compute. do 33 right. left. reflexivity.
  - vm_compute. do 39 right. left. reflexivity.
Qed.

(* ===================================================================== *)
(** ** fuseOCRResults *)

(** The status of a fused result is SUCCESS, REVIEW_REQUIRED, BAD_IMAGE or
    ERROR. *)
Lemma fused_status_is_terminal self ocrResults settings :
  let r := FusionService.fuseOCRResults self ocrResults settings in
  FusedResult.status r = SUCCESS \/ FusedResult.status r = REVIEW_REQUIRED
  \/ FusedResult.status r = BAD_IMAGE \/ FusedResult.status r = ERROR.
Proof.
  cbv zeta. unfold FusionService.fuseOCRResults.
  destruct (FusionService.collect_sources self ocrResults); [auto|].
  unfold FusionService.applyQualityGates.
  split_conditions; cbn; auto.
Qed.

(** The three arrays of a fused result have one length. *)
Lemma fused_arrays_same_length self ocrResults settings :
  let r := FusionService.fuseOCRResults self ocrResults settings in
  List.length (FusedResult.per_char_src r) = List.length (FusedResult.per_char_conf r)
  /\ List.length (FusedResult.damage_flags r) = List.length (FusedResult.per_char_conf r).
Proof.
  cbv zeta. unfold FusionService.fuseOCRResults.
  destruct (FusionService.collect_sources self ocrResults); [split; reflexivity|].
  unfold FusionService.applyQualityGates.
  split_conditions; cbn;
  rewrite !length_firstn, !length_map; split; reflexivity.
Qed.

Section SequenceLength.

Import FusionService.

(** Every candidate holds one character. *)
Lemma candidate_of_char source pos c :
  In c (candidate_of source pos) -> JS.short (Candidate.char c).
Proof.
  unfold candidate_of.
  destruct (truthy_string _) as [pn|]; [|intros []].
  destruct (nth_error _ _) as [ch|]; [|intros []].
  destruct (negb _); [|intros []].
  intros [<-|[]]. unfold JS.short. simpl. lia.
Qed.

Lemma candidates_at_char sources pos c :
  In c (candidates_at sources pos) -> JS.short (Candidate.char c).
Proof.
  unfold candidates_at. rewrite in_flat_map. intros (s & _ & H).
  eapply candidate_of_char, H.
Qed.

Lemma add_to_group_keys groups c k g :
  In (k, g) (add_to_group groups c) ->
  k = Candidate.char c \/ exists g', In (k, g') groups.
Proof.
  induction groups as [|[k0 g0] rest IH]; simpl.
  - intros [[= <- _]|[]]. left. reflexivity.
  - destruct (String.eqb k0 (Candidate.char c)) eqn:E.
    + intros [[= <- _]|H]; right; eauto.
    + intros [[= <- <-]|H]; [right; eauto|].
      destruct (IH H) as [->|[g' Hg']]; [left; reflexivity|right; eauto].
Qed.

Lemma group_keys candidates : forall groups k g,
  In (k, g) (fold_left add_to_group candidates groups) ->
  (exists c, In c candidates /\ k = Candidate.char c) \/ exists g', In (k, g') groups.
Proof.
  induction candidates as [|c rest IH]; intros groups k g; simpl.
  - intros H. right. eauto.
  - intros H. destruct (IH _ _ _ H) as [(c' & Hc' & ->)|[g' Hg']].
    + left. eauto.
    + destruct (add_to_group_keys _ _ _ _ Hg') as [->|Hold]; [left; eauto|right; exact Hold].
Qed.

Lemma entries_incl groups kg : In kg (entries groups) -> In kg groups.
Proof.
  unfold entries. rewrite in_app_iff, in_flat_map. intros [(d & _ & H)|H];
    apply filter_In in H; tauto.
Qed.

(** The consensus character is the placeholder or the character of a
    candidate. *)
Lemma consensus_char candidates position :
  (forall c, In c candidates -> JS.short (Candidate.char c)) ->
  JS.short (Consensus.char (buildCharacterConsensus candidates position)).
Proof.
  intros Hshort.
  assert (Hmulti :
    forall l,
      (forall kg, In kg l -> JS.short (fst kg)) ->
      forall best, JS.short (fst (fst best)) ->
      JS.short (fst (fst (fold_left best_step l best)))).
  { induction l as [|[k g] l IH]; intros Hl [[bc bs] bg] Hb; simpl; [exact Hb|].
    apply IH; [intros kg Hkg; apply Hl; right; exact Hkg|].
    destruct (JS.gtb _ _); simpl; [apply (Hl (k, g)); left; reflexivity|exact Hb]. }
  assert (Hkeys : forall kg,
            In kg (entries (fold_left add_to_group candidates [])) -> JS.short (fst kg)).
  { intros [k g] H. apply entries_incl in H.
    destruct (group_keys _ _ _ _ H) as [(c & Hc & ->)|[g' []]]. apply Hshort, Hc. }
  unfold buildCharacterConsensus.
  destruct candidates as [|c1 [|c2 rest]].
  - specialize (Hmulti _ Hkeys ("X", zero, [])).
    destruct (fold_left _ _ _) as [[bc bs] bg]. simpl in *. apply Hmulti. unfold JS.short; simpl; lia.
  - simpl. apply Hshort. left. reflexivity.
  - specialize (Hmulti _ Hkeys ("X", zero, [])).
    destruct (fold_left _ (entries _) _) as [[bc bs] bg]. simpl in *.
    apply Hmulti. unfold JS.short; simpl; lia.
Qed.

Lemma cell_char_short sources mostCommonLength pos :
  JS.short (cell_char (fuse_position sources mostCommonLength pos)).
Proof.
  unfold fuse_position.
  pose proof (consensus_char (candidates_at sources pos) pos
                (fun c => candidates_at_char sources pos c)) as H.
  destruct (candidates_at sources pos); [|exact H].
  simpl. destruct (_ <? _)%nat; unfold JS.short; simpl; lia.
Qed.

Lemma length_append s t : String.length (s ++ t) = (String.length s + String.length t)%nat.
Proof. induction s as [|a s IH]; simpl; [reflexivity|]. rewrite IH. reflexivity. Qed.

Lemma in_firstn {A} (x : A) n l : In x (firstn n l) -> In x l.
Proof. intros H. rewrite <- (firstn_skipn n l). apply in_or_app. left. exact H. Qed.

Lemma join_short l :
  (forall c, In c l -> JS.short c) -> (String.length (JS.join "" l) <= List.length l)%nat.
Proof.
  induction l as [|x [|y r] IH]; intros H.
  - simpl. lia.
  - specialize (H x (or_introl eq_refl)). unfold JS.short in H. simpl. lia.
  - change (JS.join "" (x :: y :: r)) with (x ++ "" ++ JS.join "" (y :: r)).
    rewrite !length_append.
    pose proof (H x (or_introl eq_refl)) as Hx. unfold JS.short in Hx.
    assert (String.length (JS.join "" (y :: r)) <= List.length (y :: r))%nat as Hr
      by (apply IH; intros c Hc; apply H; right; exact Hc).
    change (List.length (x :: y :: r)) with (S (List.length (y :: r))).
    change (String.length "") with 0%nat. lia.
Qed.

(** The fused sequence is never longer than the arrays. *)
Lemma fused_sequence_not_longer self ocrResults settings :
  let r := fuseOCRResults self ocrResults settings in
  (String.length (FusedResult.passport_number r)
   <= List.length (FusedResult.per_char_conf r))%nat.
Proof.
  cbv zeta. unfold fuseOCRResults.
  destruct (collect_sources self ocrResults) as [|s0 sources] eqn:E; [simpl; lia|].
  rewrite <- E. clear E.
  unfold applyQualityGates.
  split_conditions; cbn [FusedResult.passport_number FusedResult.per_char_conf];
  unfold performVariableLengthFusion; cbn [Fusion.passport_number Fusion.per_char_conf];
  (etransitivity; [apply join_short|rewrite !length_firstn, !length_map; reflexivity]);
  intros c Hc; apply in_firstn in Hc; apply in_map_iff in Hc as (cl & <- & Hcl);
  unfold fusion_cells in Hcl; apply in_map_iff in Hcl as (pos & <- & _);
  apply cell_char_short.
Qed.

Lemma join_counts_non_empty l :
  (forall c, In c l -> JS.short c) ->
  String.length (JS.join "" l)
  = List.length (List.filter (fun c => negb (String.eqb c "")) l).
Proof.
  assert (Hone : forall c, JS.short c ->
            String.length c = List.length (if negb (String.eqb c "") then [c] else [])).
  { intros [|a [|b c]]; unfold JS.short; simpl; intros; lia. }
  induction l as [|x [|y r] IH]; intros H.
  - reflexivity.
  - simpl. rewrite (Hone x (H x (or_introl eq_refl))).
    destruct (negb (String.eqb x "")); reflexivity.
  - change (JS.join "" (x :: y :: r)) with (x ++ "" ++ JS.join "" (y :: r)).
    rewrite !length_append, IH by (intros c Hc; apply H; right; exact Hc).
    rewrite (Hone x (H x (or_introl eq_refl))).
    cbn [List.filter]. destruct (negb (String.eqb x "")); reflexivity.
Qed.

(** The fused sequence has one character for each non-empty cell written
    before the detected length; the arrays have one entry for each cell
    written before the detected length, empty or not. *)
Lemma fusion_sequence_length sources settings :
  let fusion := performVariableLengthFusion sources settings in
  let written :=
    firstn (Fusion.detected_length fusion) (map cell_char (fusion_cells sources)) in
  String.length (Fusion.passport_number fusion)
  = List.length (List.filter (fun c => negb (String.eqb c "")) written)
  /\ List.length (Fusion.per_char_conf fusion) = List.length written.
Proof.
  cbv zeta. unfold performVariableLengthFusion.
  cbn [Fusion.passport_number Fusion.per_char_conf Fusion.detected_length].
  split.
  - apply join_counts_non_empty.
    intros c Hc. apply in_firstn in Hc. apply in_map_iff in Hc as (cl & <- & Hcl).
    unfold fusion_cells in Hcl. apply in_map_iff in Hcl as (pos & <- & _).
    apply cell_char_short.
  - rewrite !length_firstn, !length_map. reflexivity.
Qed.
End SequenceLength.

(** C2: one candidate of eleven characters, so that the most frequent length
    is 11.  Its reliability is 1 x 0.5 x 0.7 (the length penalty and the
    pattern penalty), but the fused sequence keeps all eleven characters. *)
Theorem eleven_characters_are_not_trimmed :
  let sources :=
    FusionService.collect_sources FusionService.default_settings Scenario.eleven in
  let fused :=
    FusionService.fuseOCRResults FusionService.default_settings Scenario.eleven
      FusionService.no_overrides in
  FusionService.getMostCommonLength (FusionService.candidate_lengths sources) = 11%nat
  /\ map Source.reliability sources = [(1 * 0.5 * 0.7)%float]
  /\ FusedResult.passport_number fused = "C1234567890"
  /\ String.length (FusedResult.passport_number fused) = 11%nat.
Proof.
  cbv zeta. repeat split; vm_compute; reflexivity.
Qed.

(** A candidate of eleven characters next to two of nine: the most frequent
    length is 9, the long candidate carries the length penalty, and its
    characters beyond the ninth are not read. *)
Lemma eleven_among_nines_is_trimmed :
  let sources :=
    FusionService.collect_sources FusionService.default_settings
      Scenario.eleven_among_nines in
  let fused :=
    FusionService.fuseOCRResults FusionService.default_settings
      Scenario.eleven_among_nines FusionService.no_overrides in
  FusionService.getMostCommonLength (FusionService.candidate_lengths sources) = 9%nat
  /\ map Source.reliability sources = [(1 * 0.5 * 0.7)%float; 1%float; 1%float]
  /\ FusedResult.passport_number fused = "C12345678".
Proof.
  cbv zeta. repeat split; vm_compute; reflexivity.
Qed.

(** C6: the candidate "C123XXX78" has six readable characters, so the
    positions 4 and 5 become placeholders and the position 6 becomes the
    empty string; the fused sequence "C123XX78" has eight characters and the
    three arrays have nine entries each. *)
Theorem gap_makes_the_sequence_shorter_than_the_arrays :
  let fused :=
    FusionService.fuseOCRResults FusionService.default_settings Scenario.gap
      FusionService.no_overrides in
  FusedResult.passport_number fused = "C123XX78"
  /\ String.length (FusedResult.passport_number fused) = 8%nat
  /\ List.length (FusedResult.per_char_conf fused) = 9%nat
  /\ List.length (FusedResult.per_char_src fused) = 9%nat
  /\ List.length (FusedResult.damage_flags fused) = 9%nat.
Proof.
  cbv zeta. repeat split; vm_compute; reflexivity.
Qed.

(** C9, as the code has it: with no source at all, [fuseOCRResults] returns
    the empty result, whose status is ERROR and whose reasons text is
    "No OCR sources available". *)
Theorem no_sources_give_error (self : Settings.t) (settings : FusionService.overrides) :
  let fused := FusionService.fuseOCRResults self Scenario.no_sources settings in
  fused = FusionService.createEmptyResult "No OCR sources available"
  /\ FusedResult.status fused = ERROR
  /\ FusedResult.reasons fused = [JS.Lit "No OCR sources available"].
Proof.
  cbv zeta. repeat split.
Qed.

(** C9, as the claim states it, fails: the reasons text of the result for no
    sources does not contain "no candidates available", in any letter
    case. *)
Lemma no_sources_reason_is_another_text :
  FusedResult.reasons
    (FusionService.fuseOCRResults FusionService.default_settings Scenario.no_sources
       FusionService.no_overrides)
  = [JS.Lit "No OCR sources available"]
  /\ JS.includes "no candidates available" (JS.lower "No OCR sources available") = false
  /\ JS.includes "candidates" (JS.lower "No OCR sources available") = false.
Proof.
  repeat split.
Qed.

(* ===================================================================== *)
(** ** More on the order of numbers *)

Lemma SFcompare_total x y :
  SFeqb x x = true -> SFeqb y y = true -> SFltb y x = false -> SFleb x y = true.
Proof.
  unfold SFeqb, SFltb, SFleb, SFcompare.
  destruct x as [[|]|[|]| |[|] mx ex], y as [[|]|[|]| |[|] my ey];
    try discriminate; try reflexivity;
    change (Pos.compare_cont Eq) with Pos.compare;
    intros _ _ H; compare_cases; simpl in *;
    try discriminate; try reflexivity; try lia.
Qed.

Lemma SFleb_ltb_trans x y z :
  SFleb x y = true -> SFltb y z = true -> SFltb x z = true.
Proof.
  unfold SFltb, SFleb, SFcompare.
  destruct x as [[|]|[|]| |[|] mx ex], y as [[|]|[|]| |[|] my ey],
           z as [[|]|[|]| |[|] mz ez];
    try discriminate; try reflexivity;
    change (Pos.compare_cont Eq) with Pos.compare;
    intros Hxy Hyz; compare_cases; simpl in *;
    try discriminate; try reflexivity; try lia.
Qed.

Lemma SFltb_leb x y : SFltb x y = true -> SFleb x y = true.
Proof.
  unfold SFltb, SFleb. destruct (SFcompare x y) as [[| |]|]; try discriminate; reflexivity.
Qed.

Lemma leb_total (a b : float) :
  is_nan a = false -> is_nan b = false -> (b <? a)%float = false -> (a <=? b)%float = true.
Proof.
  unfold is_nan. rewrite !negb_false_iff, !FloatAxioms.eqb_spec, FloatAxioms.ltb_spec, FloatAxioms.leb_spec.
  apply SFcompare_total.
Qed.

Lemma leb_ltb_trans (a b c : float) :
  (a <=? b)%float = true -> (b <? c)%float = true -> (a <? c)%float = true.
Proof. rewrite !FloatAxioms.ltb_spec, FloatAxioms.leb_spec. apply SFleb_ltb_trans. Qed.

Lemma ltb_leb (a b : float) : (a <? b)%float = true -> (a <=? b)%float = true.
Proof. rewrite FloatAxioms.ltb_spec, FloatAxioms.leb_spec. apply SFltb_leb. Qed.

Lemma leb_refl (a : float) : is_nan a = false -> (a <=? a)%float = true.
Proof.
  intros H. apply leb_total; [exact H|exact H|apply ltb_irrefl].
Qed.

Lemma ltb_not_nan (a b : float) :
  (a <? b)%float = true -> is_nan a = false /\ is_nan b = false.
Proof.
  unfold is_nan. rewrite !negb_false_iff, !FloatAxioms.eqb_spec, FloatAxioms.ltb_spec.
  unfold SFltb, SFeqb, SFcompare.
  destruct (Prim2SF a) as [[|]|[|]| |[|] mx ex], (Prim2SF b) as [[|]|[|]| |[|] my ey];
    try discriminate; intros _; split; try reflexivity;
    rewrite ?Z.compare_refl; change (Pos.compare_cont Eq) with Pos.compare;
    rewrite ?Pos.compare_refl; reflexivity.
Qed.

(** [Math.max(lo, Math.min(hi, c))] for a number [c] lies within [lo, hi]. *)
Lemma clamp_bounds (lo hi c : float) :
  is_nan c = false -> (lo <=? hi)%float = true ->
  (lo <=? JS.Math_max lo (JS.Math_min hi c))%float = true
  /\ (JS.Math_max lo (JS.Math_min hi c) <=? hi)%float = true.
Proof.
  intros Hc Hle.
  assert (Hlo : is_nan lo = false /\ is_nan hi = false).
  { revert Hle. unfold is_nan. rewrite !negb_false_iff, !FloatAxioms.eqb_spec, FloatAxioms.leb_spec.
    unfold SFleb, SFeqb, SFcompare.
    destruct (Prim2SF lo) as [[|]|[|]| |[|] mx ex], (Prim2SF hi) as [[|]|[|]| |[|] my ey];
    try discriminate; intros _; split; try reflexivity;
    rewrite ?Z.compare_refl; change (Pos.compare_cont Eq) with Pos.compare;
    rewrite ?Pos.compare_refl; reflexivity. }
  destruct Hlo as [Hlo Hhi].
  assert (Hm : is_nan (JS.Math_min hi c) = false
               /\ (JS.Math_min hi c <=? hi)%float = true).
  { unfold JS.Math_min. rewrite Hhi, Hc. cbn [orb].
    destruct (hi <? c)%float eqn:E1; [split; [exact Hhi|apply leb_refl; exact Hhi]|].
    destruct (c <? hi)%float eqn:E2; [split; [exact Hc|apply ltb_leb; exact E2]|].
    destruct (get_sign hi); [split; [exact Hhi|apply leb_refl; exact Hhi]|].
    split; [exact Hc|apply leb_total; assumption]. }
  destruct Hm as [Hmn Hmle]. set (m := JS.Math_min hi c) in *.
  unfold JS.Math_max. rewrite Hlo, Hmn. cbn [orb].
  destruct (lo <? m)%float eqn:E1; [split; [apply ltb_leb; exact E1|exact Hmle]|].
  destruct (m <? lo)%float eqn:E2; [split; [apply leb_refl; exact Hlo|exact Hle]|].
  destruct (get_sign lo); [|split; [apply leb_refl; exact Hlo|exact Hle]].
  split; [apply leb_total; assumption|exact Hmle].
Qed.

(* ===================================================================== *)
(** ** buildCharacterConsensus *)

Section Consensus.

Import FusionService.

Lemma best_step_is_first_best seen best kg :
  is_first_best seen best -> is_first_best (seen ++ [kg]) (best_step best kg).
Proof.
  destruct best as [[bc bs] bg], kg as [k g]. unfold is_first_best, best_step, JS.gtb.
  intros [(-> & -> & -> & Hseen)|(before & after & -> & -> & Hpos & Hbefore & Hafter)].
  - destruct (zero <? group_score g)%float eqn:E; cbv beta iota.
    + right. exists seen, []. split; [reflexivity|]. split; [reflexivity|].
      split; [exact E|]. split; [|intros kg []].
      intros kg Hkg. specialize (Hseen kg Hkg).
      destruct (is_nan (group_score (snd kg))) eqn:En; [right; reflexivity|left].
      apply (leb_ltb_trans _ zero); [|exact E].
      apply leb_total; [exact En|reflexivity|exact Hseen].
    + left. repeat split; try reflexivity.
      intros kg Hkg. apply in_app_or in Hkg as [Hkg|[<-|[]]]; [apply Hseen, Hkg|exact E].
  - destruct (group_score bg <? group_score g)%float eqn:E; cbv beta iota; right.
    + exists (before ++ (bc, bg) :: after)%list, []. split; [reflexivity|].
      split; [reflexivity|]. split; [eapply ltb_trans; eassumption|].
      split; [|intros kg []].
      intros kg Hkg. apply in_app_or in Hkg as [Hkg|[<-|Hkg]].
      * destruct (Hbefore kg Hkg) as [H|H]; [left|right; exact H].
        eapply ltb_trans; eassumption.
      * left. exact E.
      * specialize (Hafter kg Hkg).
        destruct (is_nan (group_score (snd kg))) eqn:En; [right; reflexivity|left].
        apply (leb_ltb_trans _ (group_score bg)); [|exact E].
        apply leb_total; [exact En|apply (ltb_not_nan _ _ Hpos)|exact Hafter].
    + exists before, (after ++ [(k, g)])%list.
      split; [rewrite <- app_assoc; reflexivity|]. split; [reflexivity|].
      split; [exact Hpos|]. split; [exact Hbefore|].
      intros kg Hkg. apply in_app_or in Hkg as [Hkg|[<-|[]]]; [apply Hafter, Hkg|exact E].
Qed.

Lemma best_fold_is_first_best l : forall seen best,
  is_first_best seen best -> is_first_best (seen ++ l) (fold_left best_step l best).
Proof.
  induction l as [|kg l IH]; intros seen best H; simpl.
  - rewrite app_nil_r. exact H.
  - replace (seen ++ kg :: l)%list with ((seen ++ [kg]) ++ l)%list
      by (rewrite <- app_assoc; reflexivity).
    apply IH, best_step_is_first_best, H.
Qed.

(** A group that scores below another, or scores NaN, does not outscore
    it. *)
Lemma below_does_not_outscore (a b : float) :
  (a <? b)%float = true \/ is_nan a = true -> (b <? a)%float = false.
Proof.
  intros [H|H].
  - destruct (b <? a)%float eqn:E; [|reflexivity].
    rewrite <- (ltb_irrefl a). symmetry. eapply ltb_trans; eassumption.
  - destruct (b <? a)%float eqn:E; [|reflexivity].
    destruct (ltb_not_nan _ _ E) as [_ Hn]. congruence.
Qed.

(** With two candidates or more, the consensus character is the character
    of the first group, in the order of [Object.entries], among those with
    the highest score, if that score is above 0, and the placeholder when
    no group scores above 0. *)
Lemma first_top_group_wins (c1 c2 : Candidate.t) rest position :
  let candidates := c1 :: c2 :: rest in
  let groups := entries (fold_left add_to_group candidates []) in
  let consensus := buildCharacterConsensus candidates position in
  (Consensus.char consensus = "X"
   /\ forall k g, In (k, g) groups -> (0 <? group_score g)%float = false)
  \/ exists g before after,
       groups = (before ++ (Consensus.char consensus, g) :: after)%list
       /\ (0 <? group_score g)%float = true
       /\ (forall k' g', In (k', g') groups ->
            (group_score g <? group_score g')%float = false)
       /\ (forall k' g', In (k', g') before ->
            (group_score g' <? group_score g)%float = true
            \/ is_nan (group_score g') = true).
Proof.
  cbv zeta.
  set (groups := entries (fold_left add_to_group (c1 :: c2 :: rest) [])).
  assert (H : is_first_best groups (fold_left best_step groups ("X", zero, []))).
  { apply (best_fold_is_first_best groups [] ("X", zero, [])).
    left. repeat split; try reflexivity. intros kg []. }
  assert (Hchar :
    Consensus.char (buildCharacterConsensus (c1 :: c2 :: rest) position)
    = fst (fst (fold_left best_step groups ("X", zero, [])))).
  { unfold buildCharacterConsensus. fold groups.
    destruct (fold_left best_step groups ("X", zero, [])) as [[bc bs] bg]. reflexivity. }
  rewrite Hchar.
  destruct (fold_left best_step groups ("X", zero, [])) as [[bc bs] bg].
  cbn [fst].
  destruct H as [(-> & _ & _ & Hseen)|(before & after & Hgroups & -> & Hpos & Hbefore & Hafter)].
  - left. split; [reflexivity|]. intros k g Hkg. apply (Hseen (k, g) Hkg).
  - right. exists bg, before, after. split; [exact Hgroups|]. split; [exact Hpos|].
    split.
    + intros k' g' Hkg. rewrite Hgroups in Hkg.
      apply in_app_or in Hkg as [Hkg|[Hkg|Hkg]].
      * apply below_does_not_outscore, (Hbefore (k', g') Hkg).
      * injection Hkg as _ <-. apply ltb_irrefl.
      * apply (Hafter (k', g') Hkg).
    + intros k' g' Hkg. apply (Hbefore (k', g') Hkg).
Qed.

End Consensus.

(** C7: at every position with two candidates or more the consensus
    character is the character of a group that no group outscores, the
    first such group in the order the loop visits them, or the placeholder
    when no group scores above 0; with one candidate it is that candidate's
    character.  In Scenario A the candidates at position 8 are '9' with
    the weighted confidence 60 x 0.7 and '8' with 55 x 0.5 (the placeholder
    of the first recognizer is no candidate); their groups score 27.5 + 5
    and 42 + 5, the fused character is '9', the character of the group with
    the highest score, and it is not the character reported with the highest
    raw confidence, 'X' at 90.  The parts of the score decide: when two
    recognizers agree on '9' with the weighted confidences 42 and 30, their
    group scores the mean 36 plus 10 plus 5 and wins over '8' at 40 + 5,
    though '8' is the first candidate and has the higher confidence than the
    mean; against '8' at 60 + 5 it loses, as a mean and not a sum is
    scored; a letter where a digit belongs, read at 95 x 0.7 x 0.3, scores
    19.95 - 10 and loses to '9' at 14 + 5; and of two groups that both score
    40 the one the loop visits first, '8', wins. *)
Theorem consensus_goes_to_a_top_group :
  (forall (c1 c2 : Candidate.t) rest position,
     let candidates := c1 :: c2 :: rest in
     let groups :=
       FusionService.entries (fold_left FusionService.add_to_group candidates []) in
     let consensus := FusionService.buildCharacterConsensus candidates position in
     (Consensus.char consensus = "X"
      /\ forall k g, In (k, g) groups -> (0 <? FusionService.group_score g)%float = false)
     \/ exists g before after,
          groups = (before ++ (Consensus.char consensus, g) :: after)%list
          /\ (0 <? FusionService.group_score g)%float = true
          /\ (forall k' g', In (k', g') groups ->
               (FusionService.group_score g <? FusionService.group_score g')%float = false)
          /\ (forall k' g', In (k', g') before ->
               (FusionService.group_score g' <? FusionService.group_score g)%float = true
               \/ is_nan (FusionService.group_score g') = true))
  /\ (forall (c : Candidate.t) position,
        Consensus.char (FusionService.buildCharacterConsensus [c] position)
        = Candidate.char c)
  /\ (option_map JS.chr (Examples.fused_at 8 Scenario.scenario_A)
      = Scenario.top_scoring (Examples.groups_at 8 Scenario.scenario_A)
      /\ Examples.fused_at 8 Scenario.scenario_A
         <> Scenario.highest_raw (Scenario.reports_at 8 Scenario.scenario_A)
      /\ Examples.fused_at 8 Scenario.scenario_A = Some "9"%char
      /\ Scenario.highest_raw (Scenario.reports_at 8 Scenario.scenario_A) = Some "X"%char
      /\ Scenario.reports_at 8 Scenario.scenario_A
         = [("X"%char, 90%float); ("9"%char, 60%float); ("8"%char, 55%float)]
      /\ map (fun c => (Candidate.char c, Candidate.source c, Candidate.confidence c))
           (FusionService.candidates_at
              (FusionService.collect_sources FusionService.default_settings
                 Scenario.scenario_A) 8)
         = [("9", "tesseract", 42%float); ("8", "template", 27.5%float)]
      /\ Examples.scores_at 8 Scenario.scenario_A
         = [("8", 32.5%float); ("9", 47%float)])
  /\ (Examples.scores_at 8 Examples.agreement = [("8", 45%float); ("9", 51%float)]
      /\ Examples.fused_at 8 Examples.agreement = Some "9"%char)
  /\ (Examples.scores_at 8 Examples.surer_vision = [("8", 65%float); ("9", 51%float)]
      /\ Examples.fused_at 8 Examples.surer_vision = Some "8"%char)
  /\ (Examples.scores_at 8 Examples.misplaced_letter
      = [("9", 19%float); ("A", (95 * 0.7 * 0.3 - 10)%float)]
      /\ Examples.fused_at 8 Examples.misplaced_letter = Some "9"%char)
  /\ (Examples.scores_at 8 Examples.level = [("8", 40%float); ("9", 40%float)]
      /\ map fst (fold_left FusionService.add_to_group
                    (FusionService.candidates_at
                       (FusionService.collect_sources FusionService.default_settings
                          Examples.level) 8) [])
         = ["9"; "8"]
      /\ Examples.fused_at 8 Examples.level = Some "8"%char).
Proof.
  split; [exact first_top_group_wins|].
  split; [reflexivity|].
  split.
  { split; [vm_compute; reflexivity|]. split; [vm_compute; discriminate|].
    repeat split; vm_compute; reflexivity. }
  repeat split; vm_compute; reflexivity.
Qed.

(* ===================================================================== *)
(** ** The checks on the vision model's answer *)

Section Vision.

Import OCRService.

Lemma truthy_not_nan c : JS.truthy c = true -> is_nan c = false.
Proof.
  unfold JS.truthy. rewrite negb_true_iff. intros H.
  apply orb_false_iff in H as [_ H]. exact H.
Qed.

Lemma Math_min_not_nan a b :
  is_nan a = false -> is_nan b = false -> is_nan (JS.Math_min a b) = false.
Proof.
  intros Ha Hb. unfold JS.Math_min. rewrite Ha, Hb. cbn [orb].
  split_conditions; assumption.
Qed.

(** The clamp to [0, 100] does not lift a number above 80. *)
Lemma clamp_keeps_below c :
  is_nan c = false -> JS.gtb c 80 = false ->
  JS.gtb (JS.Math_max 0 (JS.Math_min 100 c)) 80 = false.
Proof.
  unfold JS.gtb. intros Hc H.
  assert (Hm : JS.Math_min 100 c = c).
  { unfold JS.Math_min. rewrite Hc. cbn [orb is_nan].
    change (is_nan 100) with false. cbn [orb].
    destruct (100 <? c)%float eqn:E1.
    - assert ((80 <? c)%float = true) as Habs
        by (apply (ltb_trans 80 100 c); [reflexivity|exact E1]).
      rewrite H in Habs. discriminate.
    - destruct (c <? 100)%float; [reflexivity|].
      change (get_sign 100) with false. reflexivity. }
  rewrite Hm. unfold JS.Math_max. rewrite Hc.
  change (is_nan 0) with false. cbn [orb].
  destruct (0 <? c)%float; [exact H|].
  destruct (c <? 0)%float; [reflexivity|].
  change (get_sign 0) with false. reflexivity.
Qed.

Lemma well_placed_single i s :
  well_placed i s = true -> exists a, s = JS.chr a.
Proof.
  destruct s as [|a [|b s]]; simpl; try discriminate.
  intros _. exists a. reflexivity.
Qed.

(** The clamp leaves NaN as it is. *)
Lemma clamp_nan c :
  is_nan c = true -> JS.Math_max 0 (JS.Math_min 100 c) = nan.
Proof.
  intros Hc. unfold JS.Math_min. rewrite Hc, orb_true_r. reflexivity.
Qed.

(** What [characters.find(...) || {...}] gives is an element of the list or
    the default object. *)
Lemma find_position_confidence characters i :
  (forall d n, In d characters -> CharData.confidence d = Json.truthy_number n ->
               is_nan n = false) ->
  is_nan (Json.or_zero (CharData.confidence (find_position characters i))) = false.
Proof.
  intros Hall. unfold find_position.
  destruct (List.find _ characters) as [d|] eqn:E; [|reflexivity].
  apply find_some in E as [Hin _].
  destruct (CharData.confidence d) as [|n] eqn:En; [reflexivity|].
  apply (Hall d n Hin En).
Qed.

Lemma check_position_spec overall characters i :
  let c := check_position overall characters i in
  let given := Json.or_zero (CharData.confidence (find_position characters i)) in
  (exists a, c_char c = JS.chr a /\ (a = "X"%char \/ well_placed i (JS.chr a) = true))
  /\ (is_nan (c_conf c) = true
      \/ ((0 <=? c_conf c)%float = true /\ (c_conf c <=? 100)%float = true))
  /\ (is_nan given = false ->
      (0 <=? c_conf c)%float = true /\ (c_conf c <=? 100)%float = true)
  /\ (c_damage c = true -> JS.gtb (c_conf c) 80 = false).
Proof.
  unfold check_position.
  set (charData := find_position characters i).
  set (char0 := Json.or_X (CharData.char charData)).
  set (conf0 := Json.or_zero (CharData.confidence charData)).
  assert (Hch : exists char1 a conf1 d,
             (if well_placed i (Json.to_string char0)
              then (char0, conf0, CharData.damaged charData)
              else (Json.string_text "X", 0%float, true)) = (char1, conf1, d)
             /\ Json.to_string char1 = JS.chr a
             /\ (a = "X"%char \/ well_placed i (JS.chr a) = true)
             /\ (is_nan conf0 = false -> is_nan conf1 = false)).
  { destruct (well_placed i (Json.to_string char0)) eqn:E.
    - destruct (well_placed_single _ _ E) as [a Ha].
      exists char0, a, conf0, (CharData.damaged charData).
      split; [reflexivity|]. split; [exact Ha|]. rewrite <- Ha. auto.
    - exists (Json.string_text "X"), "X"%char, 0%float, true.
      split; [reflexivity|]. split; [reflexivity|]. split; [left; reflexivity|].
      intros _. reflexivity. }
  destruct Hch as (char1 & a & conf1 & d & -> & Hchar & Ha & Hn1).
  set (pr := match FusionService.truthy_string overall with
             | Some passport_number => _ | None => _ end).
  assert (Hpr : exists conf2 src,
             pr = (conf2, src) /\ (is_nan conf1 = false -> is_nan conf2 = false)).
  { unfold pr. destruct (FusionService.truthy_string overall) as [pn|]; [|eauto].
    destruct (nth_error (JS.chars pn) i) as [oc|]; [|eauto].
    destruct (_ && _); [|eauto].
    eexists _, _. split; [reflexivity|]. intros H.
    apply Math_min_not_nan; [exact H|reflexivity]. }
  destruct Hpr as (conf2 & src & -> & Hn2).
  cbv beta iota zeta. cbn [c_char c_conf c_damage].
  set (conf3 := if JS.gtb conf2 80 && d then 40%float else conf2).
  assert (Hn3 : is_nan conf2 = false -> is_nan conf3 = false).
  { intros H. unfold conf3. destruct (_ && _); [reflexivity|exact H]. }
  split; [exists a; auto|].
  destruct (is_nan conf3) eqn:E3.
  - rewrite (clamp_nan conf3 E3).
    split; [left; reflexivity|]. split; [|intros _; reflexivity].
    intros H. pose proof (Hn3 (Hn2 (Hn1 H))) as E4. congruence.
  - destruct (clamp_bounds 0 100 conf3 E3 eq_refl) as [H0 H100].
    split; [right; split; assumption|]. split; [intros _; split; assumption|].
    intros ->. apply clamp_keeps_below; [exact E3|].
    unfold conf3. rewrite andb_true_r.
    destruct (JS.gtb conf2 80) eqn:E; [reflexivity|exact E].
Qed.

Lemma concat_chr l : String.concat "" (map JS.chr l) = string_of_list_ascii l.
Proof.
  induction l as [|a [|b l] IH]; [reflexivity|reflexivity|].
  change (String.concat "" (map JS.chr (a :: b :: l)))
    with (JS.chr a ++ "" ++ String.concat "" (map JS.chr (b :: l))).
  rewrite IH. reflexivity.
Qed.

Lemma substring_all s n : (String.length s <= n)%nat -> String.substring 0 n s = s.
Proof.
  revert n. induction s as [|c s IH]; intros [|n] H; simpl in *; try reflexivity; try lia.
  rewrite IH by lia. reflexivity.
Qed.

Lemma length_string_of_list l : String.length (string_of_list_ascii l) = List.length l.
Proof. induction l as [|a l IH]; simpl; [reflexivity|rewrite IH; reflexivity]. Qed.

(** The characters the loop appends, one per position. *)
Lemma checked_chars overall characters : forall n start,
  exists l,
    map c_char (map (check_position overall characters) (seq start n)) = map JS.chr l
    /\ List.length l = n
    /\ forall i a, nth_error l i = Some a ->
         a = "X"%char \/ well_placed (start + i) (JS.chr a) = true.
Proof.
  induction n as [|n IH]; intros start.
  - exists []. split; [reflexivity|]. split; [reflexivity|]. intros [|i] a; discriminate.
  - destruct (IH (S start)) as (l & Hl & Hlen & Hok).
    destruct (check_position_spec overall characters start) as ((a & Ha & Hw) & _).
    exists (a :: l). cbn [seq map]. rewrite Ha, Hl. split; [reflexivity|].
    split; [simpl; rewrite Hlen; reflexivity|].
    intros [|i] b; cbn [nth_error].
    + intros [= <-]. rewrite Nat.add_0_r. exact Hw.
    + intros Hb. replace (start + S i)%nat with (S start + i)%nat by lia. apply Hok, Hb.
Qed.

(** The shape of the object [validateAndCorrectHallucinations] returns. *)
Lemma validated_shape self overall characters :
  let r := validateAndCorrectHallucinations self overall characters in
  let n := detectedLength overall characters in
  let cells := map (check_position overall characters) (seq 0 n) in
  VisionResult.detected_length r = n
  /\ VisionResult.per_char_conf r = map c_conf cells
  /\ VisionResult.per_char_src r = map c_src cells
  /\ VisionResult.damage_flags r = map c_damage cells
  /\ exists l,
       VisionResult.passport_number r = string_of_list_ascii l
       /\ List.length l = n
       /\ forall i a, nth_error l i = Some a ->
            a = "X"%char \/ well_placed i (JS.chr a) = true.
Proof.
  cbv zeta. unfold validateAndCorrectHallucinations.
  set (n := detectedLength overall characters).
  set (cells := map (check_position overall characters) (seq 0 n)).
  cbn [VisionResult.detected_length VisionResult.per_char_conf VisionResult.per_char_src
       VisionResult.damage_flags VisionResult.passport_number].
  assert (Hlen : List.length cells = n) by (unfold cells; rewrite length_map, length_seq; reflexivity).
  split; [reflexivity|].
  split; [apply firstn_all2; rewrite length_map; lia|].
  split; [apply firstn_all2; rewrite length_map; lia|].
  split; [apply firstn_all2; rewrite length_map; lia|].
  destruct (checked_chars overall characters n 0) as (l & Hl & Hn & Hok).
  exists l. fold cells in Hl. rewrite Hl, concat_chr. unfold slice.
  split; [apply substring_all; rewrite length_string_of_list; lia|].
  split; [exact Hn|exact Hok].
Qed.
Lemma detectedLength_le overall characters : (detectedLength overall characters <= 9)%nat.
Proof.
  unfold detectedLength. destruct (FusionService.truthy_string overall); lia.
Qed.


(** The confidence and the damage flag of position [i] come from one pass
    of the loop. *)
Lemma checked_cell self overall characters (i : nat) (c : float) :
  let r := validateAndCorrectHallucinations self overall characters in
  nth_error (VisionResult.per_char_conf r) i = Some c ->
  exists j,
    c = c_conf (check_position overall characters j)
    /\ nth_error (VisionResult.damage_flags r) i
       = Some (c_damage (check_position overall characters j)).
Proof.
  destruct (validated_shape self overall characters)
    as (Hn & Hconf & Hsrc & Hflags & _).
  cbv zeta. rewrite Hconf, Hflags, !map_map, !nth_error_map.
  destruct (nth_error (seq 0 _) i) as [j|]; [|discriminate].
  cbn [option_map]. intros [= <-]. exists j. split; reflexivity.
Qed.

Lemma damaged_cell_below self overall characters (i : nat) (c : float) :
  let r := validateAndCorrectHallucinations self overall characters in
  nth_error (VisionResult.per_char_conf r) i = Some c ->
  nth_error (VisionResult.damage_flags r) i = Some true ->
  JS.gtb c 80 = false.
Proof.
  cbv zeta. intros Hc Hd.
  destruct (checked_cell self overall characters i c Hc) as (j & -> & Hj).
  rewrite Hj in Hd. injection Hd as Hd.
  destruct (check_position_spec overall characters j) as (_ & _ & _ & H).
  apply H, Hd.
Qed.

(** X2: Every per-character confidence of a checked vision answer is NaN or
    lies within [0, 100]; it lies within [0, 100] when no entry of the
    character analysis has a truthy confidence that is not a number (a
    word, an object); and it is not above 80 where the damage flag is
    set. *)
Theorem vision_answer_confidences self overall characters (i : nat) (c : float) :
  let r := validateAndCorrectHallucinations self overall characters in
  nth_error (VisionResult.per_char_conf r) i = Some c ->
  (is_nan c = true \/ ((0 <=? c)%float = true /\ (c <=? 100)%float = true))
  /\ ((forall d n, In d characters -> CharData.confidence d = Json.truthy_number n ->
                   is_nan n = false) ->
      (0 <=? c)%float = true /\ (c <=? 100)%float = true)
  /\ (nth_error (VisionResult.damage_flags r) i = Some true -> JS.gtb c 80 = false).
Proof.
  cbv zeta. intros Hc.
  destruct (checked_cell self overall characters i c Hc) as (j & -> & Hj).
  destruct (check_position_spec overall characters j) as (_ & Hor & Hin & Hd).
  split; [exact Hor|]. split.
  - intros Hall. apply Hin, find_position_confidence, Hall.
  - rewrite Hj. intros [= H]. apply Hd, H.
Qed.

(** At position 2 of the example answer, the damaged position the model
    was sure of, the confidence is 40. *)
Lemma vision_answer_confidences_at_the_damaged_position :
  (is_nan 40 = true \/ ((0 <=? 40)%float = true /\ (40 <=? 100)%float = true))
  /\ ((forall d n, In d Examples.characters ->
                   CharData.confidence d = Json.truthy_number n -> is_nan n = false) ->
      (0 <=? 40)%float = true /\ (40 <=? 100)%float = true)
  /\ (nth_error (VisionResult.damage_flags Examples.vision_answer) 2 = Some true ->
      JS.gtb 40 80 = false).
Proof.
  apply (vision_answer_confidences FusionService.default_settings
           Examples.overall Examples.characters 2 40).
  vm_compute. reflexivity.
Defined.

(** A confidence in words comes out as NaN: it passes [|| 0], no comparison
    holds of it, and the clamp [Math.max(0, Math.min(100, c))] returns NaN.
    The overall confidence, a mean over the positions, is NaN with it. *)
Lemma confidence_in_words_gives_nan :
  nth_error (VisionResult.per_char_conf Examples.vision_answer_in_words) 0 = Some nan
  /\ is_nan (VisionResult.confidence Examples.vision_answer_in_words) = true.
Proof. vm_compute. split; reflexivity. Qed.

Lemma in_class_spec set c :
  FusionService.in_class set c = true <-> In c (JS.chars set).
Proof.
  unfold FusionService.in_class. rewrite existsb_exists. split.
  - intros (x & Hin & H). apply Ascii.eqb_eq in H. subst. exact Hin.
  - intros H. exists c. split; [exact H|apply Ascii.eqb_refl].
Qed.

Lemma well_placed_valid i a s :
  well_placed i (JS.chr a) = true -> FusionService.validateCharacterAtPosition a i s = true.
Proof.
  unfold well_placed, FusionService.validateCharacterAtPosition. cbn [JS.chr].
  destruct i as [|[|i]]; intros H; [exact H| |exact H].
  destruct (JS.chars s); [exact H|]. destruct (FusionService.in_class "CDES" a0); exact H.
Qed.

Lemma well_placed_upper_or_digit i a :
  well_placed i (JS.chr a) = true -> JS.is_upper a || JS.is_digit a = true.
Proof.
  unfold well_placed. cbn [JS.chr].
  assert (Hc : forall set, forallb (fun c => JS.is_upper c || JS.is_digit c) (JS.chars set) = true ->
                 FusionService.in_class set a = true -> JS.is_upper a || JS.is_digit a = true).
  { intros set Hall Hin. apply in_class_spec in Hin.
    rewrite forallb_forall in Hall. apply Hall, Hin. }
  destruct i as [|[|i]]; intros H.
  - apply (Hc "CDESN"); [reflexivity|exact H].
  - apply (Hc "CDESN0123456789"); [reflexivity|exact H].
  - rewrite H. apply orb_true_r.
Qed.

(** X3: In the fusion, every candidate a checked vision answer contributes is
    valid for its position: the position multiplier 0.3 and the note
    "Invalid character for position" never apply to it. *)
Theorem vision_candidates_are_position_valid self overall characters name weight reliability
  (pos : nat) (c : Candidate.t) :
  In c (FusionService.candidate_of
          {| Source.name := name;
             Source.result :=
               as_source (validateAndCorrectHallucinations self overall characters);
             Source.weight := weight;
             Source.reliability := reliability |} pos) ->
  Candidate.positionValid c = true.
Proof.
  destruct (validated_shape self overall characters)
    as (_ & _ & _ & _ & l & Hpn & _ & Hok).
  unfold FusionService.candidate_of. cbn [Source.result as_source OcrResult.passport_number].
  rewrite Hpn.
  destruct (FusionService.truthy_string _) as [pn|] eqn:Et; [|intros []].
  assert (pn = string_of_list_ascii l) as ->.
  { unfold FusionService.truthy_string in Et. destruct (String.eqb _ _); congruence. }
  unfold JS.chars at 1. rewrite list_ascii_of_string_of_list_ascii.
  destruct (nth_error l pos) as [a|] eqn:Ea; [|intros []].
  destruct (Ascii.eqb_spec a "X") as [->|Hne]; cbn [negb]; [intros []|].
  intros [<-|[]]. cbn [Candidate.positionValid].
  destruct (Hok pos a Ea) as [->|Hw]; [contradiction|].
  apply well_placed_valid, Hw.
Qed.

(** The candidate of the example answer at position 0. *)
Lemma vision_candidates_are_position_valid_first_candidate :
  Candidate.positionValid Examples.first_candidate = true.
Proof.
  apply (vision_candidates_are_position_valid FusionService.default_settings
           Examples.overall Examples.characters "vision" 1 1 0 Examples.first_candidate).
  vm_compute. left. reflexivity.
Defined.
Lemma existsb_false {A} (f : A -> bool) l :
  (forall x, In x l -> f x = false) -> existsb f l = false.
Proof.
  intros H. induction l as [|a l IH]; [reflexivity|]. simpl.
  rewrite (H a) by (left; reflexivity). apply IH. intros x Hx. apply H. right. exact Hx.
Qed.

(** X4: Of the penalties of [assessSourceReliability], only the pattern penalty
    can apply to a checked vision answer; with the damage bonus, its
    reliability is one of 1, 0.7 and 0.7 * 1.1. *)
Theorem vision_answer_reliability fusion self overall characters :
  let r := validateAndCorrectHallucinations self overall characters in
  let cleanNumber := JS.strip_X (VisionResult.passport_number r) in
  FusionService.assessSourceReliability fusion (as_source r)
  = if negb (Settings.patternRegex fusion cleanNumber)
       && (0 <? String.length cleanNumber)%nat
    then (if VisionResult.damage_detected r then (0.7 * 1.1)%float else 0.7%float)
    else 1%float.
Proof.
  pose proof (damaged_cell_below self overall characters) as Hconfs.
  destruct (validated_shape self overall characters)
    as (Hn & Hconf & _ & Hflags & l & Hpn & Hlen & Hok).
  cbv zeta in *.
  set (r := validateAndCorrectHallucinations self overall characters) in *.
  assert (Hl1 : String.length (VisionResult.passport_number r)
                = VisionResult.detected_length r)
    by (rewrite Hpn, Hn, length_string_of_list; exact Hlen).
  assert (Hl2 : List.length (VisionResult.per_char_conf r)
                = VisionResult.detected_length r)
    by (rewrite Hconf, Hn, !length_map, length_seq; reflexivity).
  assert (Hl4 : List.length (VisionResult.damage_flags r)
                = VisionResult.detected_length r)
    by (rewrite Hflags, Hn, !length_map, length_seq; reflexivity).
  assert (Hl9 : (VisionResult.detected_length r <= 9)%nat)
    by (rewrite Hn; apply detectedLength_le).
  unfold FusionService.assessSourceReliability.
  cbn [as_source OcrResult.passport_number OcrResult.damage_detected
       OcrResult.damage_flags OcrResult.per_char_conf].
  assert (Hsusp :
    existsb (fun idx => FusionService.flag_at (VisionResult.damage_flags r) idx
                        && JS.gtb (FusionService.num_at (VisionResult.per_char_conf r) idx) 80)
            (seq 0 (List.length (VisionResult.damage_flags r))) = false).
  { apply existsb_false. intros idx Hidx. apply in_seq in Hidx.
    unfold FusionService.flag_at, FusionService.num_at.
    destruct (nth_error (VisionResult.per_char_conf r) idx) as [c|] eqn:Ec.
    2:{ apply nth_error_None in Ec. lia. }
    destruct (nth_error (VisionResult.damage_flags r) idx) as [d|] eqn:Ed.
    2:{ apply nth_error_None in Ed. lia. }
    rewrite (nth_error_nth _ _ _ Ec), (nth_error_nth _ _ _ Ed).
    destruct d; [|reflexivity]. cbn [andb].
    apply (Hconfs idx c Ec). exact Ed. }
  rewrite Hsusp.
  unfold FusionService.truthy_string.
  destruct (String.eqb_spec (VisionResult.passport_number r) "") as [He|Hne].
  - rewrite He. cbn [JS.strip_X JS.chars list_ascii_of_string List.filter
                      string_of_list_ascii String.length Nat.ltb Nat.leb].
    rewrite andb_false_r.
    assert (VisionResult.damage_detected r = false) as ->.
    { unfold r, validateAndCorrectHallucinations. cbn [VisionResult.damage_detected].
      fold r. assert (detectedLength overall characters = 0%nat) as ->.
      { rewrite He in Hl1. rewrite <- Hn, <- Hl1. reflexivity. }
      reflexivity. }
    reflexivity.
  - assert (Hchars :
      existsb (fun c => negb (JS.is_upper c || JS.is_digit c))
              (JS.chars (VisionResult.passport_number r)) = false).
    { apply existsb_false. intros a Ha. rewrite Hpn in Ha.
      unfold JS.chars in Ha. rewrite list_ascii_of_string_of_list_ascii in Ha.
      apply In_nth_error in Ha as [i Hi].
      destruct (Hok i a Hi) as [->|Hw]; [reflexivity|].
      rewrite (well_placed_upper_or_digit i a Hw). reflexivity. }
    rewrite Hchars.
    assert ((9 <? String.length (VisionResult.passport_number r))%nat = false) as ->
      by (apply Nat.ltb_ge; lia).
    destruct (negb _ && _); destruct (VisionResult.damage_detected r);
      vm_compute; reflexivity.
Qed.

Lemma length_chars s : List.length (JS.chars s) = String.length s.
Proof. induction s as [|c s IH]; simpl; [reflexivity|rewrite IH; reflexivity]. Qed.

Lemma fallback_find_from pn i c : forall n start,
  nth_error (JS.chars pn) i = Some c ->
  (start <= i < start + n)%nat -> (start + n <= String.length pn)%nat ->
  List.find (fun d => Db.option_Z_eqb (CharData.position d) (Z.of_nat i + 1))
    (flat_map
       (fun i =>
          match nth_error (JS.chars pn) i with
          | Some c => [fallback_entry i c]
          | None => []
          end)
       (seq start n))
  = Some (fallback_entry i c).
Proof.
  induction n as [|n IH]; intros start Hc Hi Hlen; [lia|].
  cbn [seq flat_map].
  destruct (nth_error (JS.chars pn) start) as [c0|] eqn:E0.
  2:{ apply nth_error_None in E0. rewrite length_chars in E0. lia. }
  cbn [app List.find fallback_entry CharData.position Db.option_Z_eqb].
  destruct (Z.eqb_spec (Z.of_nat start + 1) (Z.of_nat i + 1)) as [He|Hne].
  - assert (start = i) by lia. subst. rewrite Hc in E0. injection E0 as <-. reflexivity.
  - apply IH; [exact Hc|lia|lia].
Qed.

Lemma fallback_find pn i c :
  nth_error (JS.chars pn) i = Some c -> (i < 9)%nat ->
  find_position (generateFallbackCharacterAnalysis pn) i = fallback_entry i c.
Proof.
  intros Hc Hi. unfold find_position, generateFallbackCharacterAnalysis.
  assert (i < String.length pn)%nat.
  { rewrite <- length_chars. apply nth_error_Some. rewrite Hc. discriminate. }
  rewrite (fallback_find_from pn i c); [reflexivity|exact Hc|lia|lia].
Qed.

Lemma well_placed_X i : well_placed i "X" = false.
Proof. destruct i as [|[|i]]; reflexivity. Qed.

Lemma check_position_fallback pn i c :
  nth_error (JS.chars pn) i = Some c -> (i < 9)%nat ->
  check_position (Some pn) (generateFallbackCharacterAnalysis pn) i
  = if well_placed i (JS.chr c)
    then {| c_char := JS.chr c; c_conf := 60; c_src := "vision_model"; c_damage := false |}
    else {| c_char := "X"; c_conf := 0; c_src := "fallback"; c_damage := true |}.
Proof.
  intros Hc Hi. unfold check_position. rewrite (fallback_find pn i c Hc Hi).
  cbn [fallback_entry CharData.char CharData.confidence CharData.damaged].
  change (Json.or_X (Json.of_string (JS.chr c))) with (Json.string_text (JS.chr c)).
  cbn [Json.to_string].
  assert (FusionService.truthy_string (Some pn) = Some pn) as ->.
  { destruct pn; [destruct i; discriminate|reflexivity]. }
  rewrite Hc.
  destruct (well_placed i (JS.chr c)) eqn:Ew.
  - assert (String.eqb (JS.chr c) "X" = false) as ->.
    { destruct (String.eqb_spec (JS.chr c) "X") as [He|]; [|reflexivity].
      rewrite He, well_placed_X in Ew. discriminate. }
    change (Json.or_zero (Json.of_number 60)) with 60%float.
    cbn [Json.is_string]. rewrite String.eqb_refl. cbn [negb andb]. cbv beta iota.
    reflexivity.
  - cbn [Json.is_string]. rewrite String.eqb_refl. cbn [negb]. rewrite !andb_false_r.
    cbv beta iota. reflexivity.
Qed.

(** X5: When the character analysis is the one generated from the overall
    answer, each of the first nine characters is kept, with confidence 60
    and no damage flag, where it fits the grammar of its position, and
    becomes the placeholder, with confidence 0 and the damage flag set,
    where it does not. *)
Theorem fallback_analysis_keeps_the_well_placed_characters self pn (i : nat) (c : ascii) :
  nth_error (JS.chars pn) i = Some c -> (i < 9)%nat ->
  let r := validateAndCorrectHallucinations self (Some pn)
             (generateFallbackCharacterAnalysis pn) in
  let kept := well_placed i (JS.chr c) in
  nth_error (JS.chars (VisionResult.passport_number r)) i
    = Some (if kept then c else "X"%char)
  /\ nth_error (VisionResult.per_char_conf r) i = Some (if kept then 60%float else 0%float)
  /\ nth_error (VisionResult.per_char_src r) i
     = Some (if kept then "vision_model" else "fallback")
  /\ nth_error (VisionResult.damage_flags r) i = Some (negb kept).
Proof.
  intros Hc Hi.
  destruct (validated_shape self (Some pn) (generateFallbackCharacterAnalysis pn))
    as (_ & Hconf & Hsrc & Hflags & l & Hpn & Hlen & _).
  destruct (checked_chars (Some pn) (generateFallbackCharacterAnalysis pn)
              (detectedLength (Some pn) (generateFallbackCharacterAnalysis pn)) 0)
    as (l' & Hl' & _).
  cbv zeta. rewrite Hconf, Hsrc, Hflags.
  assert (Hseq : nth_error (seq 0 (detectedLength (Some pn)
                                     (generateFallbackCharacterAnalysis pn))) i = Some i).
  { assert (i < String.length pn)%nat.
    { rewrite <- length_chars. apply nth_error_Some. rewrite Hc. discriminate. }
    unfold detectedLength.
    assert (FusionService.truthy_string (Some pn) = Some pn) as ->.
    { destruct pn; [destruct i; discriminate|reflexivity]. }
    rewrite nth_error_seq. destruct (Nat.ltb_spec i (Nat.min (String.length pn) 9)); [reflexivity|lia]. }
  rewrite !map_map, !nth_error_map, Hseq. cbn [option_map].
  rewrite (check_position_fallback pn i c Hc Hi).
  split; [|destruct (well_placed i (JS.chr c)); auto].
  unfold validateAndCorrectHallucinations. cbn [VisionResult.passport_number].
  rewrite Hl', concat_chr. unfold slice.
  assert (Hll : List.length l' = detectedLength (Some pn) (generateFallbackCharacterAnalysis pn)).
  { apply (f_equal (@List.length _)) in Hl'. rewrite !length_map, length_seq in Hl'. auto. }
  rewrite substring_all by (rewrite length_string_of_list; lia).
  unfold JS.chars at 1. rewrite list_ascii_of_string_of_list_ascii.
  apply (f_equal (fun x => nth_error x i)) in Hl'.
  rewrite !map_map, !nth_error_map, Hseq in Hl'. cbn [option_map] in Hl'.
  rewrite (check_position_fallback pn i c Hc Hi) in Hl'.
  destruct (nth_error l' i) as [a|]; [|discriminate].
  cbn [option_map] in Hl'. destruct (well_placed i (JS.chr c)); cbn [c_char] in Hl';
    injection Hl' as <-; reflexivity.
Qed.

(** In "C1D3X5678" the letter at position 2 stands where a digit belongs. *)
Lemma fallback_analysis_on_a_misplaced_letter :
  let r := OCRService.validateAndCorrectHallucinations FusionService.default_settings
             (Some "C1D3X5678")
             (OCRService.generateFallbackCharacterAnalysis "C1D3X5678") in
  nth_error (JS.chars (VisionResult.passport_number r)) 2 = Some "X"%char
  /\ nth_error (VisionResult.per_char_conf r) 2 = Some 0%float
  /\ nth_error (VisionResult.per_char_src r) 2 = Some "fallback"
  /\ nth_error (VisionResult.damage_flags r) 2 = Some true.
Proof.
  apply (fallback_analysis_keeps_the_well_placed_characters FusionService.default_settings
           "C1D3X5678" 2 "D"%char).
  - reflexivity.
  - lia.
Defined.

End Vision.

(* ===================================================================== *)
(** ** The quality gates and the reliability of a source *)

Section QualityGate.

Import FusionService.

Lemma strip_X_without_X s : JS.count_X s = 0%nat -> JS.strip_X s = s.
Proof.
  unfold JS.count_X, JS.strip_X, JS.chars.
  induction s as [|c s IH]; [reflexivity|]. cbn [list_ascii_of_string List.filter].
  destruct (Ascii.eqb c "X"); cbn [negb List.length]; [discriminate|].
  intros H. cbn [string_of_list_ascii]. rewrite IH by exact H. reflexivity.
Qed.

(** The gates of [applyQualityGates] overwrite one another; taken together
    they decide the status in this order of priority. *)
Lemma quality_gate_decision (result : Fusion.t) (settings : Settings.t) :
  let passport_number := Fusion.passport_number result in
  let len := String.length passport_number in
  let cleanNumber := JS.strip_X passport_number in
  FusedResult.status (applyQualityGates result settings)
  = if (3 <? count_true (Fusion.damage_flags result))%nat
       || (len <? 7)%nat || (9 <? len)%nat
    then REVIEW_REQUIRED
    else if (5 <=? JS.count_X passport_number)%nat then BAD_IMAGE
    else if (0 <? JS.count_X passport_number)%nat
            || (Fusion.confidence result <? Settings.confThreshold settings)%float
            || (negb (Settings.patternRegex settings cleanNumber)
                && (0 <? String.length cleanNumber)%nat)
    then REVIEW_REQUIRED
    else SUCCESS.
Proof.
  cbv zeta. unfold applyQualityGates.
  destruct (Nat.ltb_spec 0 (JS.count_X (Fusion.passport_number result)));
  destruct (Nat.leb_spec 5 (JS.count_X (Fusion.passport_number result)));
    try lia;
  destruct (negb _ && _);
  destruct (_ <? _)%float;
  destruct (3 <? _)%nat;
  destruct (_ <? 7)%nat;
  destruct (9 <? _)%nat; reflexivity.
Qed.

(** X6: A fused result passes the quality gates with SUCCESS exactly when its
    sequence has no placeholder, matches the pattern, has 7 to 9
    characters, has a confidence that is not below the threshold, and has
    at most three damage flags set. *)
Theorem quality_gate_success (result : Fusion.t) (settings : Settings.t) :
  FusedResult.status (applyQualityGates result settings) = SUCCESS
  <-> JS.count_X (Fusion.passport_number result) = 0%nat
      /\ Settings.patternRegex settings (Fusion.passport_number result) = true
      /\ (7 <= String.length (Fusion.passport_number result) <= 9)%nat
      /\ (Fusion.confidence result <? Settings.confThreshold settings)%float = false
      /\ (count_true (Fusion.damage_flags result) <= 3)%nat.
Proof.
  rewrite quality_gate_decision. cbv zeta.
  destruct (Nat.ltb_spec 3 (count_true (Fusion.damage_flags result)));
    cbn [orb]; [split; [discriminate|lia]|].
  destruct (Nat.ltb_spec (String.length (Fusion.passport_number result)) 7);
    cbn [orb]; [split; [discriminate|lia]|].
  destruct (Nat.ltb_spec 9 (String.length (Fusion.passport_number result)));
    cbn [orb]; [split; [discriminate|lia]|].
  destruct (Nat.leb_spec 5 (JS.count_X (Fusion.passport_number result)));
    [split; [discriminate|lia]|].
  destruct (Nat.ltb_spec 0 (JS.count_X (Fusion.passport_number result)));
    cbn [orb]; [split; [discriminate|lia]|].
  assert (Hx : JS.count_X (Fusion.passport_number result) = 0%nat) by lia.
  rewrite (strip_X_without_X _ Hx).
  destruct (_ <? _)%float; cbn [orb]; [split; [discriminate|intros (_ & _ & _ & ? & _); discriminate]|].
  assert ((0 <? String.length (Fusion.passport_number result))%nat = true) as ->
    by (apply Nat.ltb_lt; lia).
  rewrite andb_true_r.
  destruct (Settings.patternRegex settings (Fusion.passport_number result)); cbn [negb].
  - split; [intros _|reflexivity]. repeat (split; try lia); reflexivity.
  - split; [discriminate|intros (_ & ? & _); discriminate].
Qed.

(** X7: [fuseOCRResults] ends in ERROR exactly when no recognizer has answered. *)
Theorem fusion_error_iff_no_source self ocrResults settings :
  FusedResult.status (fuseOCRResults self ocrResults settings) = ERROR
  <-> OcrResults.vision ocrResults = None
      /\ OcrResults.tesseract ocrResults = None
      /\ OcrResults.template ocrResults = None.
Proof.
  unfold fuseOCRResults, collect_sources, source_of.
  destruct (OcrResults.vision ocrResults), (OcrResults.tesseract ocrResults),
           (OcrResults.template ocrResults); cbn [app];
    try (split; [|intros (? & ? & ?); discriminate];
         rewrite quality_gate_decision; cbv zeta; split_conditions; discriminate).
  split; [auto|reflexivity].
Qed.

(** X8: The reliability of a source lies within [0.1, 1], whatever the
    recognizer has returned. *)
Theorem source_reliability_bounds self (result : OcrResult.t) :
  (0.1 <=? assessSourceReliability self result)%float = true
  /\ (assessSourceReliability self result <=? 1)%float = true.
Proof.
  unfold assessSourceReliability.
  destruct (truthy_string _) as [pn|];
  destruct (OcrResult.damage_detected result);
  destruct (OcrResult.damage_flags result) as [flags|];
  destruct (OcrResult.per_char_conf result) as [confs|];
  split_conditions; vm_compute; split; reflexivity.
Qed.

End QualityGate.

(* ===================================================================== *)
(** ** getMostCommonLength *)

Section MostCommonLength.

Import FusionService Notions.

Lemma tally_bump len counts k :
  tally (bump len counts) k = (tally counts k + if (k =? len)%nat then 1 else 0)%nat.
Proof.
  induction counts as [|[k0 c0] counts IH]; cbn [bump tally fst snd].
  - destruct (k =? len)%nat; lia.
  - destruct (Nat.eqb_spec len k0) as [->|Hne].
    + cbn [tally fst snd]. destruct (k =? k0)%nat; lia.
    + destruct (Nat.ltb_spec len k0); cbn [tally fst snd].
      * destruct (k =? len)%nat; lia.
      * rewrite IH. lia.
Qed.

Lemma bump_keys len counts kc :
  In kc (bump len counts) -> fst kc = len \/ exists c, In (fst kc, c) counts.
Proof.
  induction counts as [|[k0 c0] counts IH]; cbn [bump].
  - intros [<-|[]]. left. reflexivity.
  - destruct (Nat.eqb_spec len k0) as [->|Hne].
    + intros [<-|H]; [left; reflexivity|]. right. exists (snd kc). right.
      destruct kc; exact H.
    + destruct (Nat.ltb_spec len k0).
      * intros [<-|[<-|H']]; [left; reflexivity| |].
        -- right. exists c0. left. reflexivity.
        -- right. exists (snd kc). right. destruct kc; exact H'.
      * intros [<-|H']; [right; exists c0; left; reflexivity|].
        destruct (IH H') as [?|[c Hc]]; [left; assumption|].
        right. exists c. right. exact Hc.
Qed.

Lemma bump_ascending len counts :
  ascending counts -> ascending (bump len counts).
Proof.
  unfold ascending.
  induction counts as [|[k0 c0] counts IH]; intros Hs; cbn [bump].
  - repeat constructor.
  - apply StronglySorted_inv in Hs as [Hs Hhd].
    destruct (Nat.eqb_spec len k0) as [->|Hne].
    + constructor; [exact Hs|exact Hhd].
    + destruct (Nat.ltb_spec len k0).
      * constructor; [constructor; assumption|].
        constructor; [exact H|]. rewrite List.Forall_forall in *. intros x Hx.
        specialize (Hhd x Hx). cbn [fst] in *. lia.
      * constructor; [apply IH; exact Hs|].
        rewrite List.Forall_forall in *. intros x Hx.
        destruct (bump_keys _ _ _ Hx) as [->|[c Hc]]; cbn [fst]; [lia|].
        apply (Hhd _ Hc).
Qed.

Lemma bump_positive len counts :
  Forall (fun kc => 0 < snd kc)%nat counts ->
  Forall (fun kc => 0 < snd kc)%nat (bump len counts).
Proof.
  induction counts as [|[k0 c0] counts IH]; intros Hp; cbn [bump].
  - repeat constructor.
  - apply Forall_cons_iff in Hp as [H0 Hp].
    destruct (len =? k0)%nat; [constructor; [cbn; lia|exact Hp]|].
    destruct (len <? k0)%nat; [constructor; [cbn; lia|constructor; assumption]|].
    constructor; [exact H0|apply IH; exact Hp].
Qed.

Lemma tally_lengths lengths : forall counts seen,
  (forall k, tally counts k = count_occ Nat.eq_dec seen k) ->
  forall k,
    tally (fold_left (fun counts len => bump len counts) lengths counts) k
    = count_occ Nat.eq_dec (seen ++ lengths) k.
Proof.
  induction lengths as [|len lengths IH]; intros counts seen H k; cbn [fold_left].
  - rewrite app_nil_r. apply H.
  - replace (seen ++ len :: lengths)%list with ((seen ++ [len]) ++ lengths)%list
      by (rewrite <- app_assoc; reflexivity).
    apply IH. intros k'. rewrite tally_bump, H, count_occ_app. cbn [count_occ].
    destruct (Nat.eq_dec len k') as [->|Hne]; [rewrite Nat.eqb_refl; reflexivity|].
    destruct (Nat.eqb_spec k' len); [congruence|reflexivity].
Qed.

Lemma tally_of_entry counts k c :
  ascending counts -> In (k, c) counts -> tally counts k = c.
Proof.
  unfold ascending.
  induction counts as [|[k0 c0] counts IH]; intros Hs; [intros []|].
  apply StronglySorted_inv in Hs as [Hs Hhd]. cbn [tally fst snd].
  assert (Hlater : forall k' c', In (k', c') counts -> tally counts k0 = 0%nat -> True) by auto.
  assert (Hzero : forall l, Forall (fun y => (k0 < fst y)%nat) l -> tally l k0 = 0%nat).
  { induction l as [|[k1 c1] l IHl]; intros Hl; [reflexivity|].
    apply Forall_cons_iff in Hl as [H1 Hl]. cbn [tally fst snd] in *.
    destruct (Nat.eqb_spec k0 k1); [lia|]. apply IHl, Hl. }
  intros [[= -> ->]|Hin].
  - rewrite Nat.eqb_refl, (Hzero _ Hhd). lia.
  - rewrite List.Forall_forall in Hhd. specialize (Hhd _ Hin). cbn [fst] in Hhd.
    destruct (Nat.eqb_spec k k0); [lia|]. rewrite (IH Hs Hin). reflexivity.
Qed.

Lemma entry_of_tally counts k :
  (0 < tally counts k)%nat -> exists c, In (k, c) counts.
Proof.
  induction counts as [|[k0 c0] counts IH]; cbn [tally fst snd]; [lia|].
  destruct (Nat.eqb_spec k k0) as [->|Hne].
  - intros _. exists c0. left. reflexivity.
  - intros H. destruct (IH H) as [c Hc]. exists c. right. exact Hc.
Qed.

(** The loop over [Object.entries(counts)]. *)
Lemma pick_spec counts : forall maxCount mostCommon,
  ascending counts ->
  let '(maxCount', mostCommon') :=
    fold_left
      (fun '(maxCount, mostCommon) '(len, count) =>
         if (maxCount <? count)%nat then (count, len) else (maxCount, mostCommon))
      counts (maxCount, mostCommon) in
  (maxCount' = maxCount /\ mostCommon' = mostCommon
   /\ forall k c, In (k, c) counts -> (c <= maxCount)%nat)
  \/ (In (mostCommon', maxCount') counts /\ (maxCount < maxCount')%nat
      /\ forall k c, In (k, c) counts ->
           (c <= maxCount')%nat /\ (c = maxCount' -> (mostCommon' <= k)%nat)).
Proof.
  unfold ascending.
  induction counts as [|[k0 c0] counts IH]; intros maxCount mostCommon Hs.
  - left. split; [reflexivity|]. split; [reflexivity|]. intros k c [].
  - apply StronglySorted_inv in Hs as [Hs Hhd]. rewrite List.Forall_forall in Hhd.
    cbn [fold_left].
    destruct (Nat.ltb_spec maxCount c0) as [Hlt|Hge].
    + specialize (IH c0 k0 Hs).
      destruct (fold_left _ counts (c0, k0)) as [m' mc'].
      destruct IH as [(-> & -> & Hall)|(Hin & Hm & Hall)].
      * right. split; [left; reflexivity|]. split; [exact Hlt|].
        intros k c [[= <- <-]|Hkc]; [split; [lia|intros _; lia]|].
        split; [apply (Hall k c Hkc)|]. intros _.
        specialize (Hhd _ Hkc). cbn [fst] in Hhd. lia.
      * right. split; [right; exact Hin|]. split; [lia|].
        intros k c [[= <- <-]|Hkc]; [split; [lia|intros; lia]|].
        apply (Hall k c Hkc).
    + specialize (IH maxCount mostCommon Hs).
      destruct (fold_left _ counts (maxCount, mostCommon)) as [m' mc'].
      destruct IH as [(-> & -> & Hall)|(Hin & Hm & Hall)].
      * left. split; [reflexivity|]. split; [reflexivity|].
        intros k c [[= <- <-]|Hkc]; [lia|apply (Hall k c Hkc)].
      * right. split; [right; exact Hin|]. split; [exact Hm|].
        intros k c [[= <- <-]|Hkc]; [split; [lia|intros; lia]|].
        apply (Hall k c Hkc).
Qed.

(** X9: [getMostCommonLength] returns 9 for no lengths; otherwise it returns a
    length that occurs among them at least as often as any other, and the
    smallest of those that occur as often. *)
Theorem most_common_length lengths :
  let r := getMostCommonLength lengths in
  (lengths = [] /\ r = 9%nat)
  \/ (In r lengths
      /\ forall l,
           (count_occ Nat.eq_dec lengths l <= count_occ Nat.eq_dec lengths r)%nat
           /\ (count_occ Nat.eq_dec lengths l = count_occ Nat.eq_dec lengths r ->
               (r <= l)%nat)).
Proof.
  cbv zeta. destruct lengths as [|l0 lengths]; [left; split; reflexivity|right].
  unfold getMostCommonLength.
  set (ls := l0 :: lengths).
  set (counts := fold_left (fun counts len => bump len counts) ls []).
  assert (Htally : forall k, tally counts k = count_occ Nat.eq_dec ls k).
  { intros k. apply (tally_lengths ls [] []). intros k'. reflexivity. }
  assert (Hasc : ascending counts).
  { unfold counts. apply (fold_left_invariant ascending); [|constructor].
    intros a b Ha. apply bump_ascending, Ha. }
  pose proof (pick_spec counts 0%nat 9%nat Hasc) as Hpick.
  destruct (fold_left _ counts (0%nat, 9%nat)) as [m r]. cbn [snd].
  assert (Hl0 : (0 < count_occ Nat.eq_dec ls l0)%nat).
  { apply count_occ_In. left. reflexivity. }
  destruct Hpick as [(_ & _ & Hall)|(Hin & Hm & Hall)].
  - exfalso. rewrite <- Htally in Hl0. destruct (entry_of_tally _ _ Hl0) as [c Hc].
    pose proof (tally_of_entry _ _ _ Hasc Hc). specialize (Hall _ _ Hc). lia.
  - pose proof (tally_of_entry _ _ _ Hasc Hin) as Hr. rewrite Htally in Hr.
    split; [apply (count_occ_In Nat.eq_dec); lia|].
    intros l. rewrite Hr.
    destruct (Nat.eq_dec (count_occ Nat.eq_dec ls l) 0%nat) as [Hz|Hnz]; [lia|].
    assert (Hl : (0 < tally counts l)%nat) by (rewrite Htally; lia).
    destruct (entry_of_tally _ _ Hl) as [c Hc].
    pose proof (tally_of_entry _ _ _ Hasc Hc) as Hcl. rewrite Htally in Hcl.
    rewrite Hcl. apply (Hall l c Hc).
Qed.

End MostCommonLength.

(* ===================================================================== *)
(** ** determineActualLength *)

Section ActualLength.

Import FusionService.

(** X10: [determineActualLength] returns the index after the last non-empty
    entry: it is within the array, every entry from it on is empty, and the
    entry before it, if there is one, is not empty. *)
Theorem actual_length_is_after_the_last_character (chars : list string) :
  let n := determineActualLength chars in
  (n <= List.length chars)%nat
  /\ (forall i, (n <= i)%nat -> nth i chars "" = "")
  /\ ((0 < n)%nat -> nth (n - 1) chars "" <> "").
Proof.
  cbv zeta. induction chars as [|c rest (Hle & Hempty & Hlast)]; cbn [determineActualLength].
  - split; [simpl; lia|]. split; [intros [|i] _; reflexivity|lia].
  - destruct (determineActualLength rest) as [|n] eqn:E.
    + destruct (String.eqb_spec c "") as [->|Hne].
      * split; [simpl; lia|]. split; [|lia].
        intros [|i] _; [reflexivity|]. cbn [nth]. apply Hempty. lia.
      * split; [simpl; lia|]. split.
        -- intros [|i] Hi; [lia|]. cbn [nth]. apply Hempty. lia.
        -- intros _. exact Hne.
    + split; [simpl; lia|]. split.
      * intros [|i] Hi; [lia|]. cbn [nth]. apply Hempty. lia.
      * intros _. replace (S (S n) - 1)%nat with (S n) by lia. cbn [nth].
        replace n with (S n - 1)%nat by lia. apply Hlast. lia.
Qed.

Lemma join_cons c l : JS.join "" (c :: l) = c ++ JS.join "" l.
Proof.
  destruct l as [|d l]; [|reflexivity]. simpl.
  induction c as [|a c IH]; [reflexivity|].
  change (String a c = String a (c ++ "")). f_equal. exact IH.
Qed.

Lemma actual_length_le chars : (determineActualLength chars <= List.length chars)%nat.
Proof.
  induction chars as [|c rest IH]; cbn [determineActualLength]; [simpl; lia|].
  destruct (determineActualLength rest); [destruct (String.eqb c ""); simpl; lia|simpl; lia].
Qed.

Lemma join_up_to_actual_length chars :
  JS.join "" (firstn (determineActualLength chars) chars) = JS.join "" chars.
Proof.
  induction chars as [|c rest IH]; [reflexivity|]. cbn [determineActualLength].
  destruct (determineActualLength rest) as [|n] eqn:E.
  - cbn [firstn] in IH. destruct (String.eqb_spec c "") as [->|Hne].
    + cbn [firstn]. rewrite join_cons, <- IH. reflexivity.
    + cbn [firstn]. rewrite !join_cons, <- IH. reflexivity.
  - cbn [firstn] in *. rewrite !join_cons. cbn [firstn] in IH. rewrite IH. reflexivity.
Qed.

(** X11: The cut at the detected length removes no character: the fused sequence
    is the concatenation of the characters of all cells, while the arrays
    keep the cells before the detected length only. *)
Theorem fused_sequence_is_all_cells sources settings :
  let fusion := performVariableLengthFusion sources settings in
  let cells := fusion_cells sources in
  Fusion.passport_number fusion = JS.join "" (map cell_char cells)
  /\ Fusion.per_char_conf fusion
     = firstn (determineActualLength (map cell_char cells)) (map cell_conf cells)
  /\ (Fusion.detected_length fusion <= Nat.max 9 (getMostCommonLength (candidate_lengths sources)))%nat.
Proof.
  cbv zeta. unfold performVariableLengthFusion.
  cbn [Fusion.passport_number Fusion.per_char_conf Fusion.detected_length].
  split; [apply join_up_to_actual_length|]. split; [reflexivity|].
  etransitivity; [apply actual_length_le|].
  unfold fusion_cells. rewrite !length_map, length_seq. reflexivity.
Qed.

End ActualLength.

(* ===================================================================== *)
(** ** More on calculateHammingDistance *)

Section Hamming.

Import DuplicateDetector.

Lemma loop_returns_deterministic count n r :
  loop_returns count n r -> forall r', loop_returns count n r' -> r = r'.
Proof.
  induction 1 as [count|count n r Hne Hrun IH]; intros r' H'.
  - inversion H' as [|? ? ? Hne' ?]; subst; [reflexivity|contradiction].
  - inversion H' as [|? ? ? Hne' Hrun']; subst; [contradiction|]. apply IH, Hrun'.
Qed.

(** The XOR of two signed 32-bit integers, when it is not negative, is
    below 2^31. *)
Lemma lxor_int32 a b :
  - 2 ^ 31 <= a < 2 ^ 31 -> - 2 ^ 31 <= b < 2 ^ 31 -> 0 <= Z.lxor a b ->
  Z.lxor a b < 2 ^ 31.
Proof.
  intros Ha Hb Hx.
  assert (Hpos : forall x y, 0 <= x < 2 ^ 31 -> 0 <= y < 2 ^ 31 -> Z.lxor x y < 2 ^ 31).
  { intros x y Hx' Hy'.
    destruct (Z.eq_dec (Z.lxor x y) 0) as [->|Hnz]; [lia|].
    assert (0 <= Z.lxor x y) by (apply Z.lxor_nonneg; lia).
    apply Z.log2_lt_pow2; [lia|].
    eapply Z.le_lt_trans; [apply Z.log2_lxor; lia|].
    apply Z.max_lub_lt.
    - destruct (Z.eq_dec x 0) as [->|]; [simpl; lia|]. apply Z.log2_lt_pow2; lia.
    - destruct (Z.eq_dec y 0) as [->|]; [simpl; lia|]. apply Z.log2_lt_pow2; lia. }
  apply Z.lxor_nonneg in Hx.
  destruct (Z.le_gt_cases 0 a) as [Ha0|Ha0].
  - apply Hpos; lia.
  - rewrite <- Z.lxor_lnot_lnot. unfold Z.lnot. apply Hpos.
    + lia.
    + lia.
Qed.

Lemma ToInt32_range x : - 2 ^ 31 <= JS.ToInt32 x < 2 ^ 31.
Proof. apply wrap32_range. Qed.

(** X12: For two fingerprints that are not empty, the distance comes back
    exactly when the XOR of the two 32-bit values is not negative, and what
    comes back is a count between 0 and 31. *)
Theorem hamming_distance_comes_back_iff h1 h2 :
  h1 <> "" -> h2 <> "" ->
  ((exists fuel r, calculateHammingDistance fuel (Some h1) (Some h2) = Some r)
   <-> 0 <= xor_of h1 h2)
  /\ forall fuel r,
       calculateHammingDistance fuel (Some h1) (Some h2) = Some r -> 0 <= r <= 31.
Proof.
  intros H1 H2.
  assert (Hcalc : forall fuel,
            calculateHammingDistance fuel (Some h1) (Some h2)
            = count_set_bits fuel 0 (xor_of h1 h2)).
  { intros fuel. unfold calculateHammingDistance, falsy_hash.
    apply String.eqb_neq in H1, H2. rewrite H1, H2. reflexivity. }
  assert (Hneg : forall fuel r, count_set_bits fuel 0 (xor_of h1 h2) = Some r ->
                                0 <= xor_of h1 h2).
  { intros fuel r Hr. destruct (Z.le_gt_cases 0 (xor_of h1 h2)) as [|Hlt]; [assumption|].
    rewrite (count_set_bits_negative fuel 0 _ Hlt) in Hr. discriminate. }
  split; [split|].
  - intros (fuel & r & Hr). rewrite Hcalc in Hr. apply (Hneg fuel r Hr).
  - intros Hx.
    destruct (count_set_bits_bounded 31 0 (xor_of h1 h2)) as (r & Hr & _).
    { split; [exact Hx|]. apply lxor_int32; [apply ToInt32_range|apply ToInt32_range|exact Hx]. }
    exists 32%nat, r. rewrite Hcalc. exact Hr.
  - intros fuel r Hr. rewrite Hcalc in Hr. pose proof (Hneg fuel r Hr) as Hx.
    destruct (count_set_bits_bounded 31 0 (xor_of h1 h2)) as (r' & Hr' & Hb).
    { split; [exact Hx|]. apply lxor_int32; [apply ToInt32_range|apply ToInt32_range|exact Hx]. }
    apply count_set_bits_sound in Hr, Hr'.
    rewrite (loop_returns_deterministic _ _ _ Hr _ Hr'). lia.
Qed.

(** The fingerprints "ff" and "f0". *)
Lemma hamming_distance_comes_back_iff_ff_f0 :
  ((exists fuel r,
      DuplicateDetector.calculateHammingDistance fuel (Some "ff") (Some "f0") = Some r)
   <-> 0 <= DuplicateDetector.xor_of "ff" "f0")
  /\ forall fuel r,
       DuplicateDetector.calculateHammingDistance fuel (Some "ff") (Some "f0") = Some r ->
       0 <= r <= 31.
Proof.
  apply (hamming_distance_comes_back_iff "ff" "f0"); discriminate.
Defined.

(** The distance does not depend on the order of the two fingerprints. *)
Lemma hamming_distance_is_symmetric fuel hash1 hash2 :
  calculateHammingDistance fuel hash1 hash2 = calculateHammingDistance fuel hash2 hash1.
Proof.
  unfold calculateHammingDistance, xor_of.
  rewrite (orb_comm (falsy_hash hash1)), Z.lxor_comm. reflexivity.
Qed.

(** X13: A fingerprint that is not empty is at distance 0 from itself, whatever
    its text is. *)
Theorem hamming_distance_to_itself fuel h :
  h <> "" -> calculateHammingDistance (S fuel) (Some h) (Some h) = Some 0.
Proof.
  intros H. unfold calculateHammingDistance, falsy_hash, xor_of.
  apply String.eqb_neq in H. rewrite H. cbn [orb hash_text].
  rewrite Z.lxor_nilpotent. reflexivity.
Qed.

(** The fingerprint "ff". *)
Lemma hamming_distance_to_itself_ff :
  DuplicateDetector.calculateHammingDistance 1 (Some "ff") (Some "ff") = Some 0.
Proof.
  apply (hamming_distance_to_itself 0 "ff"). discriminate.
Defined.

End Hamming.

(* ===================================================================== *)
(** ** Printing and reading a fingerprint *)

Section Hexadecimal.

Import DuplicateDetector ImageProcessor.

Lemma hex_value_digit d :
  0 <= d < 16 -> hex_value (hex_digit d) = Some d.
Proof.
  intros H.
  assert (Hd : d = 0 \/ d = 1 \/ d = 2 \/ d = 3 \/ d = 4 \/ d = 5 \/ d = 6 \/ d = 7
               \/ d = 8 \/ d = 9 \/ d = 10 \/ d = 11 \/ d = 12 \/ d = 13 \/ d = 14
               \/ d = 15) by lia.
  repeat (destruct Hd as [->|Hd]; [reflexivity|]). subst. reflexivity.
Qed.

Lemma hex_digit_plain d :
  0 <= d < 16 ->
  is_space (hex_digit d) = false
  /\ hex_digit d <> "-"%char /\ hex_digit d <> "+"%char
  /\ (d <> 0 -> hex_digit d <> "0"%char).
Proof.
  intros H.
  assert (Hd : d = 0 \/ d = 1 \/ d = 2 \/ d = 3 \/ d = 4 \/ d = 5 \/ d = 6 \/ d = 7
               \/ d = 8 \/ d = 9 \/ d = 10 \/ d = 11 \/ d = 12 \/ d = 13 \/ d = 14
               \/ d = 15) by lia.
  repeat (destruct Hd as [->|Hd];
          [split; [reflexivity|]; split; [discriminate|]; split; [discriminate|];
           intros ?; try lia; discriminate|]).
  subst. split; [reflexivity|]. split; [discriminate|]. split; [discriminate|]. discriminate.
Qed.

(** The digits [hex_of] puts in front of [acc]: they are read back as the
    number, and the first of them is 0 only for the number 0. *)
Lemma hex_of_digits fuel : forall n acc,
  0 <= n < 16 ^ Z.of_nat (S fuel) ->
  exists d ds,
    JS.chars (hex_of (S fuel) n acc) = (hex_digit d :: ds ++ JS.chars acc)%list
    /\ 0 <= d < 16 /\ (n <> 0 -> d <> 0)
    /\ forall rest v,
         hex_prefix (hex_digit d :: ds ++ rest) v
         = hex_prefix rest
             (Some (16 ^ Z.of_nat (S (List.length ds))
                    * match v with Some a => a | None => 0 end + n)).
Proof.
  induction fuel as [|fuel IH]; intros n acc Hn;
    cbn [hex_of]; rewrite Nat2Z.inj_succ, Z.pow_succ_r in Hn by lia;
    pose proof (Z.mod_pos_bound n 16 ltac:(lia)) as Hmod;
    pose proof (Z.div_mod n 16 ltac:(lia)) as Hdm;
    destruct (Z.eqb_spec (n / 16) 0) as [Hz|Hnz].
  1,3: exists (n mod 16), []; cbn [app List.length JS.chars list_ascii_of_string];
    assert (Hn' : n = n mod 16)
      by (rewrite Hz, Z.mul_0_r, Z.add_0_l in Hdm; exact Hdm);
    (split; [reflexivity|]); (split; [exact Hmod|]);
    (split; [intros ?; rewrite <- Hn'; assumption|]);
    intros rest v; cbn [hex_prefix]; rewrite (hex_value_digit _ Hmod);
    f_equal; f_equal; change (16 ^ Z.of_nat 1) with 16; rewrite <- Hn'; reflexivity.
  - exfalso. apply Hnz. apply Z.div_small. simpl in Hn. lia.
  - assert (Hq : 0 <= n / 16 < 16 ^ Z.of_nat (S fuel)).
    { split; [apply Z.div_pos; lia|apply Z.div_lt_upper_bound; lia]. }
    destruct (IH (n / 16) (String (hex_digit (n mod 16)) acc) Hq)
      as (d & ds & Hchars & Hd & Hd0 & Hread).
    exists d, (ds ++ [hex_digit (n mod 16)])%list.
    split; [cbn [hex_of] in Hchars; rewrite Hchars; cbn [JS.chars list_ascii_of_string];
            rewrite <- app_assoc; reflexivity|].
    split; [exact Hd|]. split; [intros _; apply Hd0, Hnz|].
    intros rest v. rewrite <- app_assoc. cbn [app]. rewrite Hread.
    cbn [hex_prefix]. rewrite (hex_value_digit _ Hmod). f_equal. f_equal.
    rewrite length_app. cbn [List.length]. rewrite Nat.add_1_r.
    rewrite (Nat2Z.inj_succ (S _)), Z.pow_succ_r by lia. lia.
Qed.

Lemma enough_digits m : 0 <= m -> m < 16 ^ Z.of_nat (S (Z.to_nat (Z.log2 m))).
Proof.
  intros Hm. rewrite Nat2Z.inj_succ, Z2Nat.id by apply Z.log2_nonneg.
  destruct (Z.eq_dec m 0) as [->|Hnz]; [reflexivity|].
  eapply Z.lt_le_trans; [apply Z.log2_spec; lia|].
  pose proof (Z.log2_nonneg m).
  change 16 with (2 ^ 4). rewrite <- Z.pow_mul_r by lia.
  apply Z.pow_le_mono_r; lia.
Qed.

(** X14: What [toString(16)] prints, [parseInt(_, 16)] reads back as the same
    integer: the fingerprint [calculatePHash] stores is the number the
    detector computes with. *)
Theorem printed_hash_is_read_back (n : Z) :
  parseInt16 (toString16 n)
  = if (n =? 0)%Z then zero
    else if (n <? 0)%Z then (- JS.of_Z (- n))%float else JS.of_Z n.
Proof.
  destruct (Z.eqb_spec n 0) as [->|Hnz]; [reflexivity|].
  unfold toString16, parseInt16.
  assert (Hplain : forall m acc, 0 <= m ->
    exists d ds,
      JS.chars (hex_of (S (Z.to_nat (Z.log2 m))) m acc) = (hex_digit d :: ds ++ JS.chars acc)%list
      /\ 0 <= d < 16 /\ (m <> 0 -> d <> 0)
      /\ forall rest v,
           hex_prefix (hex_digit d :: ds ++ rest) v
           = hex_prefix rest
               (Some (16 ^ Z.of_nat (S (List.length ds))
                      * match v with Some a => a | None => 0 end + m))).
  { intros m acc Hm. apply hex_of_digits. split; [exact Hm|apply enough_digits, Hm]. }
  destruct (Z.ltb_spec n 0) as [Hneg|Hpos].
  - destruct (Hplain (- n) "" ltac:(lia)) as (d & ds & Hchars & Hd & Hd0 & Hread).
    destruct (hex_digit_plain d Hd) as (Hsp & Hminus & Hplus & Hzero).
    change (JS.chars ("-" ++ ?s)) with ("-"%char :: JS.chars s).
    cbn [trim_start]. change (is_space "-") with false. cbv beta iota.
    rewrite Hchars. cbn [JS.chars list_ascii_of_string].
    assert (Hnot0 : hex_digit d <> "0"%char) by (apply Hzero, Hd0; lia).
    assert (Hcs : match (hex_digit d :: ds ++ [])%list with
                  | "0"%char :: "x"%char :: rest => rest
                  | "0"%char :: "X"%char :: rest => rest
                  | _ => (hex_digit d :: ds ++ [])%list
                  end = (hex_digit d :: ds ++ [])%list).
    { destruct (hex_digit d) as [[|] [|] [|] [|] [|] [|] [|] [|]];
        try reflexivity; congruence. }
    rewrite Hcs, Hread. cbn [hex_prefix].
    replace (16 ^ Z.of_nat (S (List.length ds)) * 0 + - n) with (- n) by lia.
    destruct (Z.eqb_spec (- n) 0); [lia|reflexivity].
  - destruct (Hplain n "" Hpos) as (d & ds & Hchars & Hd & Hd0 & Hread).
    destruct (hex_digit_plain d Hd) as (Hsp & Hminus & Hplus & Hzero).
    rewrite Hchars. cbn [JS.chars list_ascii_of_string trim_start]. rewrite Hsp.
    assert (Hsign : match (hex_digit d :: ds ++ [])%list with
                    | "-"%char :: rest => (true, rest)
                    | "+"%char :: rest => (false, rest)
                    | _ => (false, (hex_digit d :: ds ++ [])%list)
                    end = (false, (hex_digit d :: ds ++ [])%list)).
    { destruct (hex_digit d) as [[|] [|] [|] [|] [|] [|] [|] [|]];
        try reflexivity; congruence. }
    rewrite Hsign.
    assert (Hnot0 : hex_digit d <> "0"%char) by (apply Hzero, Hd0, Hnz).
    assert (Hcs : match (hex_digit d :: ds ++ [])%list with
                  | "0"%char :: "x"%char :: rest => rest
                  | "0"%char :: "X"%char :: rest => rest
                  | _ => (hex_digit d :: ds ++ [])%list
                  end = (hex_digit d :: ds ++ [])%list).
    { destruct (hex_digit d) as [[|] [|] [|] [|] [|] [|] [|] [|]];
        try reflexivity; congruence. }
    rewrite Hcs, Hread. cbn [hex_prefix].
    replace (16 ^ Z.of_nat (S (List.length ds)) * 0 + n) with n by lia.
    destruct (Z.eqb_spec n 0); [lia|reflexivity].
Qed.

End Hexadecimal.

(* ===================================================================== *)
(** ** More on findDuplicates, and the reject route *)

Section Detection.

Import DuplicateDetector.

Lemma insert_keeps_results a b h td db :
  Db.results (Db.insert_or_ignore_duplicate a b h td db) = Db.results db.
Proof.
  unfold Db.insert_or_ignore_duplicate. destruct (Db.has_link a b db); reflexivity.
Qed.

Lemma insert_keeps_jobs a b h td db :
  Db.jobs (Db.insert_or_ignore_duplicate a b h td db) = Db.jobs db.
Proof.
  unfold Db.insert_or_ignore_duplicate. destruct (Db.has_link a b db); reflexivity.
Qed.

(** The rows of the query are rows of other images whose latest result
    holds the given number. *)
Lemma same_number_rows_spec db passportNumber imageId row :
  In row (same_number_rows db passportNumber imageId) ->
  row_id row <> imageId
  /\ row_passport_number row = Some passportNumber
  /\ exists i r,
       In i (Db.images db) /\ In r (Db.results db)
       /\ Db.id i = row_id row /\ Db.r_image_id r = row_id row
       /\ Db.passport_number r = Some passportNumber
       /\ Db.max_version db (row_id row) = Some (Db.version r).
Proof.
  unfold same_number_rows. intros H.
  apply in_flat_map in H as (r & Hr & H). apply in_flat_map in H as (i & Hi & H).
  destruct (String.eqb_spec (Db.id i) (Db.r_image_id r)) as [He|]; [|destruct H].
  cbn [andb] in H.
  destruct (Db.passport_number r) as [pn|] eqn:Epn; [|destruct H]. cbn [Db.option_string_eqb] in H.
  destruct (String.eqb_spec pn passportNumber) as [->|]; [|destruct H]. cbn [andb] in H.
  destruct (String.eqb_spec (Db.id i) imageId) as [|Hne]; [destruct H|]. cbn [andb negb] in H.
  destruct (Db.max_version db (Db.id i)) as [m|] eqn:Em; [|destruct H].
  cbn [Db.option_Z_eqb] in H.
  destruct (Z.eqb_spec m (Db.version r)) as [->|]; [|destruct H].
  destruct H as [<-|[]]. cbn [row_id row_passport_number].
  split; [exact Hne|]. split; [reflexivity|].
  exists i, r. rewrite <- He. auto 10.
Qed.

(** What the loop of [findDuplicates] leaves in the store and reports. *)
Lemma scan_rows_new fuel s imageId : forall rows db acc db' found,
  scan_rows fuel s imageId rows db acc = Some (db', found) ->
  Db.jobs db' = Db.jobs db /\ Db.images db' = Db.images db
  /\ Db.results db' = Db.results db
  /\ (forall d, In d (Db.duplicates db) -> In d (Db.duplicates db'))
  /\ (forall d, In d (Db.duplicates db') ->
        In d (Db.duplicates db)
        \/ (Db.image_id_a d = imageId /\ Db.confirmed d = false
            /\ (JS.of_Z (Db.hamming d) <=? dupPhashThreshold s)%float = true
            /\ exists row, In row rows /\ Db.image_id_b d = row_id row))
  /\ (forall f, In f found ->
        In f acc
        \/ ((JS.of_Z (f_hammingDistance f) <=? dupPhashThreshold s)%float = true
            /\ exists row, In row rows /\ f_imageId f = row_id row
                           /\ f_passportNumber f = row_passport_number row
                           /\ Db.has_link imageId (row_id row) db' = true)).
Proof.
  induction rows as [|row rows IH]; intros db acc db' found; cbn [scan_rows].
  - intros [= <- <-]. repeat (split; [reflexivity|]). split; [auto|]. split; auto.
  - destruct (calculateHammingDistance _ _ _) as [h|]; [|discriminate].
    destruct (JS.of_Z h <=? dupPhashThreshold s)%float eqn:Hle.
    + intros H. destruct (IH _ _ _ _ H) as (Hj & Hi & Hr & Hmono & Hnew & Hfound).
      rewrite insert_keeps_jobs in Hj. rewrite insert_keeps_images in Hi.
      rewrite insert_keeps_results in Hr.
      split; [exact Hj|]. split; [exact Hi|]. split; [exact Hr|]. split; [|split].
      * intros d Hd. apply Hmono, insert_monotone, Hd.
      * intros d Hd. destruct (Hnew d Hd) as [Hold|(Ha & Hc & Hh & r & Hrin & Hb)].
        -- destruct (insert_new_row _ _ _ _ _ _ Hold) as [Hold'|[_ ->]]; [left; exact Hold'|].
           right. cbn. split; [reflexivity|]. split; [reflexivity|]. split; [exact Hle|].
           exists row. split; [left; reflexivity|reflexivity].
        -- right. split; [exact Ha|]. split; [exact Hc|]. split; [exact Hh|].
           exists r. split; [right; exact Hrin|exact Hb].
      * intros f Hf. destruct (Hfound f Hf) as [Hacc|(Hh & r & Hrin & Hrest)].
        -- apply in_app_or in Hacc as [Hacc|[<-|[]]]; [left; exact Hacc|].
           right. cbn. split; [exact Hle|]. exists row. split; [left; reflexivity|].
           split; [reflexivity|]. split; [reflexivity|].
           apply has_link_iff.
           pose proof (insert_links imageId (row_id row) h 0 db) as Hl.
           apply has_link_iff in Hl as (d & Hd & Hab). exists d.
           split; [apply Hmono, Hd|exact Hab].
        -- right. split; [exact Hh|]. exists r. split; [right; exact Hrin|exact Hrest].
    + intros H. destruct (IH _ _ _ _ H) as (Hj & Hi & Hr & Hmono & Hnew & Hfound).
      split; [exact Hj|]. split; [exact Hi|]. split; [exact Hr|]. split; [exact Hmono|].
      split.
      * intros d Hd. destruct (Hnew d Hd) as [Hold|(Ha & Hc & Hh & r & Hrin & Hb)];
          [left; exact Hold|].
        right. split; [exact Ha|]. split; [exact Hc|]. split; [exact Hh|].
        exists r. split; [right; exact Hrin|exact Hb].
      * intros f Hf. destruct (Hfound f Hf) as [Hacc|(Hh & r & Hrin & Hrest)];
          [left; exact Hacc|].
        right. split; [exact Hh|]. exists r. split; [right; exact Hrin|exact Hrest].
Qed.

(** X15: [findDuplicates] changes nothing but the duplicates table, and there it
    only adds: every link it adds goes from the image to another image, is
    not confirmed and has a distance within the threshold; every image it
    reports is another image whose latest result holds the same number, at a
    distance within the threshold, and is linked when the call returns. *)
Theorem findDuplicates_only_adds_links fuel s imageId passportNumber db db' found :
  findDuplicates fuel s imageId passportNumber db = Some (db', found) ->
  Db.jobs db' = Db.jobs db /\ Db.images db' = Db.images db
  /\ Db.results db' = Db.results db
  /\ (forall d, In d (Db.duplicates db) -> In d (Db.duplicates db'))
  /\ (forall d, In d (Db.duplicates db') ->
        In d (Db.duplicates db)
        \/ (Db.image_id_a d = imageId /\ Db.image_id_b d <> imageId
            /\ Db.confirmed d = false
            /\ (JS.of_Z (Db.hamming d) <=? dupPhashThreshold s)%float = true))
  /\ (forall f, In f found ->
        f_imageId f <> imageId
        /\ f_passportNumber f = Some passportNumber
        /\ (JS.of_Z (f_hammingDistance f) <=? dupPhashThreshold s)%float = true
        /\ Db.has_link imageId (f_imageId f) db' = true).
Proof.
  unfold findDuplicates. intros H.
  destruct (scan_rows_new _ _ _ _ _ _ _ _ H) as (Hj & Hi & Hr & Hmono & Hnew & Hfound).
  split; [exact Hj|]. split; [exact Hi|]. split; [exact Hr|]. split; [exact Hmono|].
  split.
  - intros d Hd. destruct (Hnew d Hd) as [Hold|(Ha & Hc & Hh & r & Hrin & Hb)];
      [left; exact Hold|].
    right. destruct (same_number_rows_spec _ _ _ _ Hrin) as (Hne & _).
    rewrite Hb. auto.
  - intros f Hf. destruct (Hfound f Hf) as [[]|(Hh & r & Hrin & Hid & Hpn & Hl)].
    destruct (same_number_rows_spec _ _ _ _ Hrin) as (Hne & Hp & _).
    rewrite Hid, Hpn. auto.
Qed.

(** Scenario C: the check of "new" adds the link to "old". *)
Lemma findDuplicates_only_adds_links_scenario_C :
  Db.jobs Examples.checked_store = Db.jobs Scenario.scenario_C
  /\ Db.images Examples.checked_store = Db.images Scenario.scenario_C
  /\ Db.results Examples.checked_store = Db.results Scenario.scenario_C
  /\ (forall d, In d (Db.duplicates Scenario.scenario_C) ->
        In d (Db.duplicates Examples.checked_store))
  /\ (forall d, In d (Db.duplicates Examples.checked_store) ->
        In d (Db.duplicates Scenario.scenario_C)
        \/ (Db.image_id_a d = "new" /\ Db.image_id_b d <> "new"
            /\ Db.confirmed d = false
            /\ (JS.of_Z (Db.hamming d)
                <=? DuplicateDetector.dupPhashThreshold
                      DuplicateDetector.default_settings)%float = true))
  /\ (forall f, In f Examples.reported ->
        DuplicateDetector.f_imageId f <> "new"
        /\ DuplicateDetector.f_passportNumber f = Some "C12345678"
        /\ (JS.of_Z (DuplicateDetector.f_hammingDistance f)
            <=? DuplicateDetector.dupPhashThreshold
                  DuplicateDetector.default_settings)%float = true
        /\ Db.has_link "new" (DuplicateDetector.f_imageId f) Examples.checked_store = true).
Proof.
  apply (findDuplicates_only_adds_links 33 DuplicateDetector.default_settings
           "new" "C12345678" Scenario.scenario_C).
  vm_compute. reflexivity.
Defined.

End Detection.

Section Reject.

Import DuplicateDetector DuplicateRoutes.

Lemma reject_links imageId db d :
  In d (Db.duplicates (reject imageId db))
  <-> In d (Db.duplicates db)
      /\ Db.image_id_a d <> imageId /\ Db.image_id_b d <> imageId.
Proof.
  unfold reject. cbn [Db.duplicates]. rewrite filter_In.
  destruct (String.eqb_spec (Db.image_id_a d) imageId);
  destruct (String.eqb_spec (Db.image_id_b d) imageId); cbn [orb negb];
    intuition congruence.
Qed.

Lemma same_number_rows_ext db1 db2 passportNumber imageId :
  Db.images db1 = Db.images db2 -> Db.results db1 = Db.results db2 ->
  same_number_rows db1 passportNumber imageId = same_number_rows db2 passportNumber imageId.
Proof.
  intros Hi Hr. unfold same_number_rows, Db.max_version. rewrite Hi, Hr. reflexivity.
Qed.

Lemma scan_rows_found_ext fuel s imageId : forall rows dbA dbB acc dbA' found,
  Db.images dbA = Db.images dbB ->
  scan_rows fuel s imageId rows dbA acc = Some (dbA', found) ->
  exists dbB', scan_rows fuel s imageId rows dbB acc = Some (dbB', found).
Proof.
  induction rows as [|row rows IH]; intros dbA dbB acc dbA' found Hi; cbn [scan_rows].
  - intros [= _ <-]. eauto.
  - assert (getImagePHash dbA imageId = getImagePHash dbB imageId) as ->
      by (unfold getImagePHash; rewrite Hi; reflexivity).
    destruct (calculateHammingDistance _ _ _) as [h|]; [|discriminate].
    destruct (_ <=? _)%float.
    + apply IH. rewrite !insert_keeps_images. exact Hi.
    + apply IH. exact Hi.
Qed.

(** X17: A rejection is not remembered: when the image is checked again, every
    image that was reported before is reported again and linked again, by a
    link that is not confirmed. *)
Theorem rejected_duplicate_comes_back fuel s imageId passportNumber db db1 found f :
  findDuplicates fuel s imageId passportNumber db = Some (db1, found) ->
  In f found ->
  exists db2,
    findDuplicates fuel s imageId passportNumber (reject imageId db1) = Some (db2, found)
    /\ exists d, In d (Db.duplicates db2)
                 /\ Db.image_id_a d = imageId /\ Db.image_id_b d = f_imageId f
                 /\ Db.confirmed d = false.
Proof.
  intros H Hf. pose proof H as H0. unfold findDuplicates in H.
  destruct (scan_rows_new _ _ _ _ _ _ _ _ H) as (_ & Hi & Hr & _).
  unfold findDuplicates.
  rewrite (same_number_rows_ext (reject imageId db1) db passportNumber imageId)
    by (cbn [reject Db.images Db.results]; assumption).
  destruct (scan_rows_found_ext _ _ _ _ db (reject imageId db1) _ _ _ ltac:(symmetry; exact Hi) H)
    as [db2 H2].
  exists db2. split; [exact H2|].
  destruct (scan_rows_new _ _ _ _ _ _ _ _ H2) as (_ & _ & _ & _ & Hnew & Hfound).
  destruct (Hfound f Hf) as [[]|(_ & row & _ & Hid & _ & Hl)].
  apply has_link_iff in Hl as (d & Hd & Ha & Hb).
  exists d. split; [exact Hd|]. split; [exact Ha|]. split; [rewrite Hid; exact Hb|].
  destruct (Hnew d Hd) as [Hold|(_ & Hc & _)]; [|exact Hc].
  apply (reject_links imageId db1) in Hold. destruct Hold as (_ & Hne & _). contradiction.
Qed.

(** Scenario C: the link of "new" to "old" is rejected and comes back. *)
Lemma rejected_duplicate_comes_back_scenario_C :
  exists db2,
    DuplicateDetector.findDuplicates 33 DuplicateDetector.default_settings
      "new" "C12345678" (DuplicateRoutes.reject "new" Examples.checked_store)
    = Some (db2, Examples.reported)
    /\ exists d, In d (Db.duplicates db2)
                 /\ Db.image_id_a d = "new"
                 /\ Db.image_id_b d = DuplicateDetector.f_imageId Examples.old_image
                 /\ Db.confirmed d = false.
Proof.
  apply (rejected_duplicate_comes_back 33 DuplicateDetector.default_settings
           "new" "C12345678" Scenario.scenario_C Examples.checked_store
           Examples.reported Examples.old_image).
  - vm_compute. reflexivity.
  - vm_compute. left. reflexivity.
Defined.

End Reject.

(* ===================================================================== *)
(** ** postProcess and the versions of the results *)

Section PostProcess.

Import DuplicateDetector Pipeline.

Lemma max_version_ext db1 db2 imageId :
  Db.results db1 = Db.results db2 -> Db.max_version db1 imageId = Db.max_version db2 imageId.
Proof. intros H. unfold Db.max_version. rewrite H. reflexivity. Qed.

(** The status update writes the status of the rows of the image that have
    its highest version, and nothing else. *)
Lemma update_status_spec st imageId db :
  let db' := update_status st imageId db in
  Db.jobs db' = Db.jobs db /\ Db.images db' = Db.images db
  /\ Db.duplicates db' = Db.duplicates db
  /\ Forall2
       (fun r r' =>
          Db.r_image_id r' = Db.r_image_id r /\ Db.r_job_id r' = Db.r_job_id r
          /\ Db.version r' = Db.version r /\ Db.passport_number r' = Db.passport_number r
          /\ Db.r_status r'
             = if String.eqb (Db.r_image_id r) imageId
                  && Db.option_Z_eqb (Db.max_version db imageId) (Db.version r)
               then st else Db.r_status r)
       (Db.results db) (Db.results db').
Proof.
  cbv zeta. unfold update_status. cbn [Db.jobs Db.images Db.duplicates Db.results].
  repeat (split; [reflexivity|]).
  induction (Db.results db) as [|r rs IH]; cbn [map]; constructor; [|exact IH].
  destruct (_ && _); cbn; auto.
Qed.

(** X18: [postProcess] emits the status of the fused result, or DUPLICATE_NUMBER
    in place of SUCCESS; in the second case the store holds a link from the
    image to another image.  A result that is not SUCCESS leaves the
    duplicates table as it is.  In the results table only statuses change:
    the rows of the image with its highest version take the emitted status,
    all other rows keep theirs. *)
Theorem postProcess_status fuel s imageId (result : FusedResult.t) db db' st :
  postProcess fuel s imageId result db = Some (db', st) ->
  (st = FusedResult.status result
   \/ (FusedResult.status result = SUCCESS /\ st = DUPLICATE_NUMBER
       /\ exists d, In d (Db.duplicates db')
                    /\ Db.image_id_a d = imageId /\ Db.image_id_b d <> imageId))
  /\ (FusedResult.status result <> SUCCESS -> Db.duplicates db' = Db.duplicates db)
  /\ Db.images db' = Db.images db
  /\ Forall2
       (fun r r' =>
          Db.r_image_id r' = Db.r_image_id r /\ Db.r_job_id r' = Db.r_job_id r
          /\ Db.version r' = Db.version r /\ Db.passport_number r' = Db.passport_number r
          /\ Db.r_status r'
             = if String.eqb (Db.r_image_id r) imageId
                  && Db.option_Z_eqb (Db.max_version db imageId) (Db.version r)
               then st else Db.r_status r)
       (Db.results db) (Db.results db').
Proof.
  unfold postProcess.
  destruct (FusedResult.status result) eqn:Est;
    try (intros [= <- <-];
         destruct (update_status_spec (FusedResult.status result) imageId db)
           as (_ & Hi & Hd & Hr);
         rewrite Est in *;
         split; [left; reflexivity|]; split; [intros _; exact Hd|];
         split; [exact Hi|exact Hr]).
  destruct (findDuplicates fuel s imageId (FusedResult.passport_number result) db)
    as [[db1 found]|] eqn:Efd; [|discriminate].
  intros [= <- <-].
  unfold findDuplicates in Efd.
  destruct (scan_rows_new _ _ _ _ _ _ _ _ Efd) as (_ & Hi1 & Hr1 & _ & _ & Hfound).
  destruct (update_status_spec
              (if (0 <? List.length found)%nat then DUPLICATE_NUMBER else SUCCESS)
              imageId db1) as (_ & Hi & Hd & Hr).
  cbv zeta in *. split; [|split; [intros H; contradiction H; reflexivity|split]].
  - destruct found as [|f found]; [left; reflexivity|right].
    split; [reflexivity|]. split; [reflexivity|].
    destruct (Hfound f (or_introl eq_refl)) as [[]|(_ & row & Hrow & _ & _ & Hl)].
    destruct (same_number_rows_spec _ _ _ _ Hrow) as (Hne & _).
    apply has_link_iff in Hl as (d & Hd' & Ha & Hb).
    exists d. rewrite Hd. split; [exact Hd'|]. split; [exact Ha|]. rewrite Hb. exact Hne.
  - rewrite Hi. exact Hi1.
  - rewrite (max_version_ext db1 db imageId Hr1) in Hr. rewrite <- Hr1. exact Hr.
Qed.

(** Scenario C: the post-processing of "new" emits DUPLICATE_NUMBER. *)
Lemma postProcess_status_scenario_C :
  (DUPLICATE_NUMBER = FusedResult.status Scenario.success_result
   \/ (FusedResult.status Scenario.success_result = SUCCESS
       /\ DUPLICATE_NUMBER = DUPLICATE_NUMBER
       /\ exists d, In d (Db.duplicates Examples.posted_store)
                    /\ Db.image_id_a d = "new" /\ Db.image_id_b d <> "new"))
  /\ (FusedResult.status Scenario.success_result <> SUCCESS ->
      Db.duplicates Examples.posted_store = Db.duplicates Scenario.scenario_C)
  /\ Db.images Examples.posted_store = Db.images Scenario.scenario_C
  /\ Forall2
       (fun r r' =>
          Db.r_image_id r' = Db.r_image_id r /\ Db.r_job_id r' = Db.r_job_id r
          /\ Db.version r' = Db.version r /\ Db.passport_number r' = Db.passport_number r
          /\ Db.r_status r'
             = if String.eqb (Db.r_image_id r) "new"
                  && Db.option_Z_eqb (Db.max_version Scenario.scenario_C "new") (Db.version r)
               then DUPLICATE_NUMBER else Db.r_status r)
       (Db.results Scenario.scenario_C) (Db.results Examples.posted_store).
Proof.
  apply (postProcess_status 33 DuplicateDetector.default_settings "new"
           Scenario.success_result Scenario.scenario_C Examples.posted_store
           DUPLICATE_NUMBER).
  vm_compute. reflexivity.
Defined.

End PostProcess.

Section Versions.

Import Pipeline Worker.

Lemma Forall2_In_right {A B} (P : A -> B -> Prop) l l' y :
  Forall2 P l l' -> In y l' -> exists x, In x l /\ P x y.
Proof.
  induction 1 as [|x0 y0 l0 l0' Hxy _ IH]; [intros []|].
  intros [<-|Hin]; [exists x0; split; [left; reflexivity|exact Hxy]|].
  destruct (IH Hin) as (x & Hx & Hp). exists x. split; [right; exact Hx|exact Hp].
Qed.

Lemma max_version_one db imageId :
  (forall r, In r (Db.results db) -> Db.r_image_id r = imageId -> Db.version r = 1) ->
  Db.max_version db imageId = None
  \/ Db.max_version db imageId = Some 1.
Proof.
  unfold Db.max_version. intros H.
  assert (Hgen : forall rs acc,
            (forall r, In r rs -> Db.r_image_id r = imageId -> Db.version r = 1) ->
            acc = None \/ acc = Some 1 ->
            fold_left
              (fun acc r =>
                 if String.eqb (Db.r_image_id r) imageId then
                   match acc with
                   | Some m => Some (Z.max m (Db.version r))
                   | None => Some (Db.version r)
                   end
                 else acc) rs acc = None
            \/ fold_left
                 (fun acc r =>
                    if String.eqb (Db.r_image_id r) imageId then
                      match acc with
                      | Some m => Some (Z.max m (Db.version r))
                      | None => Some (Db.version r)
                      end
                    else acc) rs acc = Some 1).
  { induction rs as [|r rs IH]; intros acc Hrs Hacc; cbn [fold_left]; [exact Hacc|].
    apply IH; [intros r' Hr'; apply Hrs; right; exact Hr'|].
    destruct (String.eqb_spec (Db.r_image_id r) imageId) as [He|]; [|exact Hacc].
    rewrite (Hrs r (or_introl eq_refl) He).
    destruct Hacc as [->| ->]; right; reflexivity. }
  apply Hgen; [exact H|left; reflexivity].
Qed.

Lemma max_version_some db imageId r :
  In r (Db.results db) -> Db.r_image_id r = imageId -> Db.max_version db imageId <> None.
Proof.
  unfold Db.max_version. intros Hin He.
  assert (Hgen : forall rs acc,
            acc <> None \/ In r rs ->
            fold_left
              (fun acc r =>
                 if String.eqb (Db.r_image_id r) imageId then
                   match acc with
                   | Some m => Some (Z.max m (Db.version r))
                   | None => Some (Db.version r)
                   end
                 else acc) rs acc <> None).
  { induction rs as [|r0 rs IH]; intros acc Hacc; cbn [fold_left].
    - destruct Hacc as [H|[]]. exact H.
    - apply IH. destruct Hacc as [H|[->|H]].
      + left. destruct (String.eqb _ _); [destruct acc; discriminate|exact H].
      + left. rewrite He, String.eqb_refl. destruct acc; discriminate.
      + right. exact H. }
  apply Hgen. right. exact Hin.
Qed.

(** X19: The queue variant never sets [version]: a row [fuseResults] or
    [handleTaskError] stores takes the default 1, like the rows before it.
    The status update of [postProcess], which selects the rows of the image
    with the highest version, then writes the status of every row the image
    has, the rows of earlier attempts included. *)
Theorem queue_variant_overwrites_earlier_results task passport_number st0 st db :
  (forall r, In r (Db.results db) -> Db.version r = 1) ->
  let db1 := insert_result task passport_number st0 db in
  (forall r, In r (Db.results db1) -> Db.version r = 1)
  /\ forall r, In r (Db.results (update_status st (imageId task) db1)) ->
       Db.r_image_id r = imageId task -> Db.r_status r = st.
Proof.
  intros Hone. cbv zeta.
  assert (Hone1 : forall r, In r (Db.results (insert_result task passport_number st0 db)) ->
                            Db.version r = 1).
  { unfold insert_result. destruct (jobId task); [|exact Hone].
    cbn [Db.results]. intros r Hr. apply in_app_or in Hr as [Hr|[<-|[]]]; [apply Hone, Hr|].
    reflexivity. }
  split; [exact Hone1|].
  set (db1 := insert_result task passport_number st0 db) in *.
  intros r' Hr' He.
  destruct (update_status_spec st (imageId task) db1) as (_ & _ & _ & Hall).
  cbv zeta in Hall.
  destruct (Forall2_In_right _ _ _ _ Hall Hr') as (r & Hr & Hid & _ & _ & _ & Hst).
  rewrite Hst.
  assert (Db.r_image_id r = imageId task) as Hr_id by congruence.
  rewrite Hr_id, String.eqb_refl. cbn [andb].
  destruct (max_version_one db1 (imageId task)) as [Hn|Hs].
  - intros r0 Hr0 _. apply Hone1, Hr0.
  - exfalso. apply (max_version_some db1 (imageId task) r Hr Hr_id Hn).
  - rewrite Hs, (Hone1 r Hr). reflexivity.
Qed.

(** The image "b" failed once and is fused at the second attempt: the
    status update reaches the ERROR row of the first attempt too. *)
Lemma queue_variant_overwrites_the_failed_attempt :
  let db1 :=
    Worker.insert_result Examples.task_b (Some "C12345678") SUCCESS Examples.failed_once in
  (forall r, In r (Db.results db1) -> Db.version r = 1)
  /\ forall r,
       In r (Db.results (Pipeline.update_status DUPLICATE_NUMBER
                           (Pipeline.imageId Examples.task_b) db1)) ->
       Db.r_image_id r = Pipeline.imageId Examples.task_b ->
       Db.r_status r = DUPLICATE_NUMBER.
Proof.
  apply (queue_variant_overwrites_earlier_results Examples.task_b (Some "C12345678")
           SUCCESS DUPLICATE_NUMBER Examples.failed_once).
  intros r Hr. vm_compute in Hr. destruct Hr as [<-|[<-|[]]]; reflexivity.
Defined.

End Versions.

(* ===================================================================== *)
(** ** The workers and the job controls; the pending images *)

Section Workers.

Import Pipeline Worker.

Lemma in_added (j : string) (set : gset string) : j ∈ ({[ j ]} ∪ set : gset string).
Proof. apply elem_of_union. left. apply elem_of_singleton. reflexivity. Qed.

Lemma not_in_removed (j : string) (set : gset string) : j ∉ (set ∖ {[ j ]} : gset string).
Proof.
  intros H. apply elem_of_difference in H as [_ H]. apply H, elem_of_singleton. reflexivity.
Qed.

(** X21: A worker processes a task only when the task is the head of the queue
    of its stage, the memory use is not above the target, and the task has
    a job that is running and not paused; a task without a job, as
    [reprocessImage] queues it, is never processed. *)
Theorem worker_processes_running_jobs_only memPercent ramTargetPct stage p task p' :
  processQueue_turn memPercent ramTargetPct stage p = Processes task p' ->
  JS.gtb memPercent ramTargetPct = false
  /\ queue_of stage (qs p) = task :: queue_of stage (qs p')
  /\ exists j, jobId task = Some j /\ (j ∈ runningJobs p) /\ (j ∉ pausedJobs p).
Proof.
  unfold processQueue_turn.
  destruct (JS.gtb memPercent ramTargetPct); [discriminate|].
  destruct (queue_of stage (qs p)) as [|t rest] eqn:Eq; [discriminate|].
  destruct (held_back p t) eqn:Eh; [discriminate|].
  intros [= <- <-]. split; [reflexivity|].
  split; [f_equal; destruct stage; reflexivity|].
  unfold held_back, has in Eh. apply orb_false_iff in Eh as [Hp Hr].
  destruct (jobId t) as [j|]; [|discriminate].
  exists j. split; [reflexivity|].
  apply negb_false_iff, bool_decide_eq_true in Hr.
  apply bool_decide_eq_false in Hp. split; assumption.
Qed.

(** Job "J" has been started: a preprocess worker takes the task of "a". *)
Lemma worker_processes_the_first_task_of_the_running_job :
  JS.gtb 10 60 = false
  /\ Worker.queue_of Worker.Preprocess (Pipeline.qs Examples.running)
     = Examples.task_a
       :: Worker.queue_of Worker.Preprocess
            (Pipeline.qs (Worker.set_queue Worker.Preprocess [Examples.task_b]
                            Examples.running))
  /\ exists j, Pipeline.jobId Examples.task_a = Some j
               /\ (j ∈ Pipeline.runningJobs Examples.running)
               /\ (j ∉ Pipeline.pausedJobs Examples.running).
Proof.
  apply (worker_processes_running_jobs_only 10 60 Worker.Preprocess Examples.running
           Examples.task_a
           (Worker.set_queue Worker.Preprocess [Examples.task_b] Examples.running)).
  vm_compute. reflexivity.
Defined.

Lemma set_queue_same stage p :
  set_queue stage (queue_of stage (qs p)) p = p.
Proof. destruct p as [[q1 q2 q3 q4] r s]. destruct stage; reflexivity. Qed.

Lemma set_queue_twice stage l l' p :
  set_queue stage l (set_queue stage l' p) = set_queue stage l p.
Proof. destruct stage; reflexivity. Qed.

Lemma queue_of_set_queue stage l p : queue_of stage (qs (set_queue stage l p)) = l.
Proof. destruct stage; reflexivity. Qed.

(** A task a worker holds back goes back to the front of its queue: when
    nothing else has touched the pipeline in between, the pipeline is as it
    was before the turn. *)
Lemma held_back_task_returns_to_the_front memPercent ramTargetPct stage p task p' :
  processQueue_turn memPercent ramTargetPct stage p = PutsBack task p' ->
  put_back stage task p' = p.
Proof.
  unfold processQueue_turn.
  destruct (JS.gtb memPercent ramTargetPct); [discriminate|].
  destruct (queue_of stage (qs p)) as [|t rest] eqn:Eq; [discriminate|].
  destruct (held_back p t); [|discriminate].
  intros [= <- <-]. unfold put_back.
  rewrite queue_of_set_queue, set_queue_twice, <- Eq. apply set_queue_same.
Qed.



(** X23: The job controls and the workers: the tasks of a job are held back
    after [pauseJob] and after [stopJob], and are let through after
    [startJob], also when the job was paused before. *)
Theorem job_controls_open_and_close_the_gate db jobId p task :
  Pipeline.jobId task = Some jobId ->
  held_back (pauseJob jobId p) task = true
  /\ held_back (stopJob jobId p) task = true
  /\ held_back (startJob db jobId p) task = false.
Proof.
  intros Hj. unfold held_back, has. rewrite Hj.
  split; [|split].
  - apply orb_true_iff. left. apply bool_decide_eq_true.
    unfold pauseJob. cbn [pausedJobs]. apply in_added.
  - apply orb_true_iff. right. apply negb_true_iff, bool_decide_eq_false.
    unfold stopJob. cbn [runningJobs]. apply not_in_removed.
  - apply orb_false_iff. split.
    + apply bool_decide_eq_false. unfold startJob. cbn [pausedJobs]. apply not_in_removed.
    + apply negb_false_iff, bool_decide_eq_true. unfold startJob. cbn [runningJobs].
      apply in_added.
Qed.

(** The task of image "a" of job "J". *)
Lemma job_controls_open_and_close_the_gate_for_job_J :
  Worker.held_back (Pipeline.pauseJob "J" Pipeline.initial) Examples.task_a = true
  /\ Worker.held_back (Pipeline.stopJob "J" Pipeline.initial) Examples.task_a = true
  /\ Worker.held_back (Pipeline.startJob Scenario.half_done "J" Pipeline.initial)
       Examples.task_a = false.
Proof.
  apply (job_controls_open_and_close_the_gate Scenario.half_done "J" Pipeline.initial
           Examples.task_a).
  reflexivity.
Defined.

End Workers.

Section Pending.

Import DirectPipeline.

Lemma insert_by_upload_sorted i sorted :
  StronglySorted (fun a b => Db.upload_ts a <= Db.upload_ts b) sorted ->
  StronglySorted (fun a b => Db.upload_ts a <= Db.upload_ts b) (insert_by_upload i sorted).
Proof.
  induction sorted as [|j rest IH]; intros Hs; cbn [insert_by_upload].
  - repeat constructor.
  - apply StronglySorted_inv in Hs as [Hs Hhd].
    destruct (Z.leb_spec (Db.upload_ts i) (Db.upload_ts j)).
    + constructor; [constructor; assumption|].
      constructor; [lia|]. rewrite List.Forall_forall in *. intros x Hx.
      specialize (Hhd x Hx). lia.
    + constructor; [apply IH, Hs|].
      rewrite List.Forall_forall in *. intros x Hx.
      apply insert_by_upload_In in Hx as [->|Hx]; [lia|apply Hhd, Hx].
Qed.

Lemma insert_by_upload_permutation i sorted :
  Permutation (insert_by_upload i sorted) (i :: sorted).
Proof.
  induction sorted as [|j rest IH]; cbn [insert_by_upload]; [reflexivity|].
  destruct (_ <=? _)%Z; [reflexivity|].
  rewrite IH. apply perm_swap.
Qed.

(** X24: The pending images of a job are its images without a result, each as
    often as the table holds it, in the order of their upload times. *)
Theorem pending_images_in_upload_order db jobId :
  StronglySorted (fun a b => Db.upload_ts a <= Db.upload_ts b) (getPendingImages db jobId)
  /\ Permutation
       (getPendingImages db jobId)
       (List.filter
          (fun i => String.eqb (Db.job_id i) jobId && negb (has_result db (Db.id i)))
          (Db.images db))
  /\ forall i : Db.image,
       In i (getPendingImages db jobId)
       <-> In i (Db.images db) /\ Db.job_id i = jobId /\ has_result db (Db.id i) = false.
Proof.
  split; [|split; [|apply getPendingImages_In]].
  - unfold getPendingImages.
    induction (List.filter _ (Db.images db)) as [|x l IH]; cbn [fold_right]; [constructor|].
    apply insert_by_upload_sorted, IH.
  - unfold getPendingImages.
    induction (List.filter _ (Db.images db)) as [|x l IH]; cbn [fold_right]; [reflexivity|].
    rewrite insert_by_upload_permutation, IH. reflexivity.
Qed.

End Pending.

(* ===================================================================== *)
(** ** SystemLogger *)

Section Logger.

Import SystemLogger.

Lemma slice_last_length {A} n (l : list A) :
  (0 < n)%nat -> List.length (slice_last n l) = Nat.min n (List.length l).
Proof.
  intros Hn. unfold slice_last. destruct (Nat.eqb_spec n 0); [lia|].
  rewrite length_skipn. lia.
Qed.

Lemma slice_last_suffix {A} n (l : list A) :
  exists dropped, l = (dropped ++ slice_last n l)%list.
Proof.
  unfold slice_last. destruct (n =? 0)%nat; [exists []; reflexivity|].
  exists (firstn (List.length l - n) l). symmetry. apply firstn_skipn.
Qed.

(** X25: [log] appends the entry and keeps the newest [maxLogEntries] entries:
    the store never grows beyond that number, the new entry is its last
    one, and what it drops are the oldest entries. *)
Theorem log_keeps_the_newest_entries now level component message self :
  (0 < maxLogEntries self)%nat ->
  let entry := {| timestamp := now; level := level; component := component;
                  message := message |} in
  let self' := log now level component message self in
  maxLogEntries self' = maxLogEntries self
  /\ (List.length (logs self') <= maxLogEntries self)%nat
  /\ (exists older, logs self' = older ++ [entry])%list
  /\ (exists dropped, logs self ++ [entry] = dropped ++ logs self')%list.
Proof.
  intros Hmax. cbv zeta. unfold log. cbn [logs maxLogEntries].
  split; [reflexivity|].
  match goal with
  | |- context [Nat.ltb ?a ?b] => destruct (Nat.ltb_spec a b) as [Hlt|Hge]
  end.
  - split; [rewrite slice_last_length by exact Hmax; lia|].
    split; [|apply slice_last_suffix].
    unfold slice_last. destruct (Nat.eqb_spec (maxLogEntries self) 0); [lia|].
    rewrite length_app in *. cbn [List.length] in *.
    rewrite skipn_app.
    replace (List.length (logs self) + 1 - maxLogEntries self - List.length (logs self))%nat
      with 0%nat by lia.
    cbn [skipn]. eexists. reflexivity.
  - split; [exact Hge|]. split; [eexists; reflexivity|exists []; reflexivity].
Qed.

(** The first entry of the fresh logger. *)
Lemma log_keeps_the_newest_entries_first_entry :
  let entry := {| SystemLogger.timestamp := 1000; SystemLogger.level := "info";
                  SystemLogger.component := "Pipeline";
                  SystemLogger.message := "started" |} in
  let self' := SystemLogger.log 1000 "info" "Pipeline" "started" SystemLogger.initial in
  SystemLogger.maxLogEntries self' = SystemLogger.maxLogEntries SystemLogger.initial
  /\ (List.length (SystemLogger.logs self')
      <= SystemLogger.maxLogEntries SystemLogger.initial)%nat
  /\ (exists older, SystemLogger.logs self' = older ++ [entry])%list
  /\ (exists dropped,
        SystemLogger.logs SystemLogger.initial ++ [entry]
        = dropped ++ SystemLogger.logs self')%list.
Proof.
  apply (log_keeps_the_newest_entries 1000 "info" "Pipeline" "started" SystemLogger.initial).
  cbn [SystemLogger.maxLogEntries SystemLogger.initial]. lia.
Defined.

Lemma filter_sublist {A} (f : A -> bool) l : sublist (List.filter f l) l.
Proof.
  induction l as [|x l IH]; cbn [List.filter]; [constructor|].
  destruct (f x); [apply sublist_skip|apply sublist_cons]; exact IH.
Qed.

Lemma slice_last_sublist {A} n (l : list A) : sublist (slice_last n l) l.
Proof.
  unfold slice_last. destruct (n =? 0)%nat; [reflexivity|]. apply sublist_drop.
Qed.

Lemma sublist_In {A} (l1 l2 : list A) x : sublist l1 l2 -> In x l1 -> In x l2.
Proof.
  induction 1 as [|y l1 l2 _ IH|y l1 l2 _ IH]; [intros []| |].
  - intros [<-|H]; [left; reflexivity|right; apply IH, H].
  - intros H. right. apply IH, H.
Qed.

Lemma slice_last_In {A} n (l : list A) x : In x (slice_last n l) -> In x l.
Proof. apply sublist_In, slice_last_sublist. Qed.

(** X26: [getLogs] returns at most 1000 entries of the store, in the order of
    the store; every one of them has the level asked for (unless it is
    "all"), and is not older than the [since] date; a [since] text that is
    no date leaves nothing. *)
Theorem getLogs_returns_matching_entries (filters : filters) (self : t) :
  (List.length (getLogs filters self) <= 1000)%nat
  /\ sublist (getLogs filters self) (logs self)
  /\ forall e, In e (getLogs filters self) ->
       (forall l, f_level filters = Some l -> l <> "" -> l <> "all" -> level e = l)
       /\ (forall d, f_since filters = Some d -> exists ms, d = Some ms /\ ms <= timestamp e).
Proof.
  unfold getLogs. cbv zeta.
  set (l1 := by_level filters (logs self)).
  set (l2 := by_component filters l1).
  set (l3 := by_search filters l2).
  set (l4 := by_since filters l3).
  assert (H1 : sublist l1 (logs self)).
  { unfold l1, by_level. destruct (FusionService.truthy_string _); [|reflexivity].
    destruct (negb _); [apply filter_sublist|reflexivity]. }
  assert (H2 : sublist l2 l1).
  { unfold l2, by_component.
    destruct (FusionService.truthy_string _); [apply filter_sublist|reflexivity]. }
  assert (H3 : sublist l3 l2).
  { unfold l3, by_search.
    destruct (FusionService.truthy_string _); [apply filter_sublist|reflexivity]. }
  assert (H4 : sublist l4 l3).
  { unfold l4, by_since. destruct (f_since filters); [apply filter_sublist|reflexivity]. }
  split; [|split].
  - rewrite slice_last_length by lia. lia.
  - etransitivity; [apply slice_last_sublist|].
    etransitivity; [exact H4|]. etransitivity; [exact H3|].
    etransitivity; [exact H2|exact H1].
  - intros e He. apply slice_last_In in He. split.
    + intros l Hl Hne Hall.
      assert (In e l1) as Hin
        by (eapply sublist_In; [exact H2|]; eapply sublist_In; [exact H3|];
            eapply sublist_In; [exact H4|exact He]).
      unfold l1, by_level in Hin. rewrite Hl in Hin.
      unfold FusionService.truthy_string in Hin.
      apply String.eqb_neq in Hne, Hall. rewrite Hne, Hall in Hin. cbn [negb] in Hin.
      apply filter_In in Hin as [_ Hin]. apply String.eqb_eq in Hin. exact Hin.
    + intros d Hd. unfold l4, by_since in He. rewrite Hd in He.
      apply filter_In in He as [_ He]. destruct d as [ms|]; [|discriminate].
      exists ms. split; [reflexivity|]. apply Z.leb_le, He.
Qed.

Lemma count_once (lvl : string) :
  (list_sum (map (fun l => if String.eqb lvl l then 1%nat else 0%nat) logLevels) <= 1)%nat
  /\ (In lvl logLevels ->
      list_sum (map (fun l => if String.eqb lvl l then 1%nat else 0%nat) logLevels) = 1%nat).
Proof.
  unfold logLevels. cbn [map list_sum In].
  destruct (String.eqb_spec lvl "debug") as [->|]; [cbn; split; [lia|reflexivity]|].
  destruct (String.eqb_spec lvl "info") as [->|]; [cbn; split; [lia|reflexivity]|].
  destruct (String.eqb_spec lvl "warn") as [->|]; [cbn; split; [lia|reflexivity]|].
  destruct (String.eqb_spec lvl "error") as [->|]; [cbn; split; [lia|reflexivity]|].
  destruct (String.eqb_spec lvl "success") as [->|]; [cbn; split; [lia|reflexivity]|].
  split; [simpl; lia|]. intros H. exfalso. intuition congruence.
Qed.

(** X27: In the statistics every entry is counted in [total] and, when its level
    is one of the five known levels, under exactly one level: the counts by
    level add up to at most [total], and to [total] when every entry has a
    known level; [recent] is at most [total]. *)
Theorem stats_count_every_entry_once now self :
  let s := getStats now self in
  total s = List.length (logs self)
  /\ (recent s <= total s)%nat
  /\ map fst (byLevel s) = logLevels
  /\ (list_sum (map snd (byLevel s)) <= total s)%nat
  /\ ((forall e, In e (logs self) -> In (level e) logLevels) ->
      list_sum (map snd (byLevel s)) = total s).
Proof.
  cbv zeta. unfold getStats. cbn [total recent byLevel].
  split; [reflexivity|]. split; [apply filter_length_le|].
  split; [rewrite map_map; cbn [fst]; apply map_id|].
  rewrite map_map. cbn [snd].
  induction (logs self) as [|e l IH].
  - split; [simpl; lia|intros _; reflexivity].
  - assert (Hstep :
      list_sum (map (fun x => List.length (List.filter (fun log => String.eqb (level log) x) (e :: l)))
                    logLevels)
      = (list_sum (map (fun x => if String.eqb (level e) x then 1%nat else 0%nat) logLevels)
         + list_sum (map (fun x => List.length (List.filter (fun log => String.eqb (level log) x) l))
                         logLevels))%nat).
    { unfold logLevels, list_sum. cbn [map fold_right List.filter].
      repeat match goal with
             | |- context [String.eqb (level e) ?x] => destruct (String.eqb (level e) x)
             end; cbn [List.length]; lia. }
    rewrite Hstep. destruct (count_once (level e)) as [Hle Heq].
    destruct IH as [IHle IHeq]. cbn [List.length]. split; [lia|].
    intros Hall. rewrite Heq by (apply Hall; left; reflexivity).
    rewrite IHeq by (intros e' He'; apply Hall; right; exact He'). reflexivity.
Qed.

End Logger.

(* ===================================================================== *)
(** ** The settings table *)

Section Seeding.

Import SettingsTable.

Lemma insert_or_ignore_lookup (table : gmap string string) kv k :
  insert_or_ignore table kv !! k
  = match table !! k with
    | Some v => Some v
    | None => if String.eqb (fst kv) k then Some (snd kv) else None
    end.
Proof.
  unfold insert_or_ignore.
  destruct (String.eqb_spec (fst kv) k) as [<-|Hne].
  - destruct (table !! fst kv) as [v|] eqn:E; [rewrite E; reflexivity|].
    rewrite lookup_insert_eq. reflexivity.
  - destruct (table !! fst kv) as [v|] eqn:E.
    + destruct (table !! k); reflexivity.
    + rewrite lookup_insert_ne by exact Hne. destruct (table !! k); reflexivity.
Qed.

Lemma seed_lookup defaults (table : gmap string string) (k : string) :
  seed defaults table !! k
  = match table !! k with
    | Some v => Some v
    | None => option_map snd (List.find (fun kv => String.eqb (fst kv) k) defaults)
    end.
Proof.
  unfold seed. revert table.
  induction defaults as [|kv defaults IH]; intros table; cbn [fold_left List.find].
  - destruct (table !! k); reflexivity.
  - rewrite IH, insert_or_ignore_lookup.
    destruct (table !! k); [reflexivity|].
    destruct (String.eqb (fst kv) k); reflexivity.
Qed.

(** X28: Seeding keeps every value the table holds and gives a key the table
    does not hold the value of its first entry among the defaults; seeding
    a second time changes nothing. *)
Theorem seeding_keeps_what_is_set defaults (table : gmap string string) :
  (forall k,
     seed defaults table !! k
     = match table !! k with
       | Some v => Some v
       | None => option_map snd (List.find (fun kv => String.eqb (fst kv) k) defaults)
       end)
  /\ seed defaults (seed defaults table) = seed defaults table.
Proof.
  split; [intros k; apply seed_lookup|].
  apply (map_eq (M := gmap string)). intros k. rewrite !seed_lookup.
  destruct (table !! k); [reflexivity|].
  destruct (option_map _ _); reflexivity.
Qed.

(** X29: A default setting that was deleted is back, with its default value,
    after the next seeding; the other settings of the table keep their
    values. *)
Theorem deleted_default_is_restored (table : gmap string string) (k v : string) :
  In (k, v) defaultSettings ->
  seedDefaultSettings (delete_key k table) !! k = Some v
  /\ forall k' v', k' <> k -> table !! k' = Some v' ->
       seedDefaultSettings (delete_key k table) !! k' = Some v'.
Proof.
  intros Hin. unfold seedDefaultSettings, delete_key. split.
  - rewrite seed_lookup, lookup_delete_eq.
    unfold defaultSettings in Hin. cbn [In] in Hin.
    repeat (destruct Hin as [[= <- <-]|Hin]; [vm_compute; reflexivity|]).
    destruct Hin.
  - intros k' v' Hne Hk. rewrite seed_lookup, lookup_delete_ne by congruence.
    rewrite Hk. reflexivity.
Qed.

(** The default confidence threshold. *)
Lemma deleted_default_is_restored_confThreshold :
  SettingsTable.seedDefaultSettings (SettingsTable.delete_key "confThreshold" ∅)
    !! "confThreshold" = Some "80"
  /\ forall k' v', k' <> "confThreshold" -> (∅ : gmap string string) !! k' = Some v' ->
       SettingsTable.seedDefaultSettings (SettingsTable.delete_key "confThreshold" ∅) !! k'
       = Some v'.
Proof.
  apply (deleted_default_is_restored ∅ "confThreshold" "80").
  unfold SettingsTable.defaultSettings. cbn [In].
  repeat first [left; reflexivity | right].
Defined.

End Seeding.
